(** * Featherbone server core: CRUD engine, SQL tools, events, request pipeline

    A shallow embedding of the parts of the featherbone server that the
    specification makes claims about:

    - [server/services/tools.js]  : [sanitize], [resolvePath], [processSort],
      [getKey], [getKeys];
    - [server/services/events.js] : [subscribe], [unsubscribe];
    - [server/services/crud.js]   : [doInsert] (id and natural key checks),
      [doUpdate], [doDelete];
    - [server/datasource.js]      : [request] (dispatch, [doUpsert], [error]).

    JavaScript values are modelled as JSON trees, promises as a [result]
    (resolved value or rejection), exceptions as rejections, and the database
    as explicit state.  Helpers that live outside these files
    ([String.prototype.toCamelCase], [toSnakeCase], [toName], [f.createId],
    [jsonpatch.compare], the feather catalog and the authorization service)
    are section variables. *)

From stdpp Require Import base option list strings gmap pretty.
From Stdlib Require Import ZArith Lia Ascii.

Set Warnings "-clear-no-such-hyp".

Local Open Scope Z_scope.
Local Open Scope string_scope.
Local Open Scope list_scope.

(** ** JSON values and JavaScript outcomes *)

#[warnings="-register-all"]
Inductive json : Type :=
| JNull
| JBool (b : bool)
| JNum (n : Z)
| JStr (s : string)
| JArr (items : list json)
| JObj (fields : list (string * json)).

(** What a [throw] or a [reject] carries. *)
Inductive js_error : Type :=
| TypeError (msg : string)                       (* raised by the engine *)
| SyntaxError (msg : string)                     (* raised by [JSON.parse] *)
| ErrorObj (msg : string) (statusCode : option Z) (* [new Error(msg)], [{statusCode, message}] *)
| ErrString (msg : string)                       (* a bare string *)
| DbError (msg : string)                         (* raised by the database *)
| Diverged.                                      (* the model ran out of fuel *)

Inductive result (A : Type) : Type :=
| Ok (a : A)
| Fail (e : js_error).
Arguments Ok {A} a.
Arguments Fail {A} e.

#[global] Instance result_ret : MRet result := fun _ a => Ok a.
#[global] Instance result_bind : MBind result := fun _ _ f m =>
  match m with
  | Ok a => f a
  | Fail e => Fail e
  end.
#[global] Instance result_fmap : FMap result := fun _ _ f m =>
  match m with
  | Ok a => Ok (f a)
  | Fail e => Fail e
  end.

Definition is_ok {A} (r : result A) : bool :=
  match r with Ok _ => true | Fail _ => false end.

Module Js.

(** [typeof v === "object"] on JSON data: true for null, arrays, objects. *)
Definition typeof_object (v : json) : bool :=
  match v with
  | JNull | JArr _ | JObj _ => true
  | _ => false
  end.

Definition isArray (v : json) : bool :=
  match v with JArr _ => true | _ => false end.

Definition is_null (v : json) : bool :=
  match v with JNull => true | _ => false end.

(** Truthiness of a JSON value. *)
Definition truthy (v : json) : bool :=
  match v with
  | JNull => false
  | JBool b => b
  | JNum n => negb (Z.eqb n 0)
  | JStr s => negb (String.eqb s "")
  | JArr _ | JObj _ => true
  end.

(** Truthiness of a possibly [undefined] value. *)
Definition truthy_opt (v : option json) : bool :=
  match v with Some x => truthy x | None => false end.

(** [o[k]] on the field list of an object; [None] is [undefined]. *)
Fixpoint get (o : list (string * json)) (k : string) : option json :=
  match o with
  | [] => None
  | (k', v) :: o' => if String.eqb k' k then Some v else get o' k
  end.

(** [o[k] = v]: overwrite in place, or append a new key. *)
Fixpoint set (o : list (string * json)) (k : string) (v : json)
  : list (string * json) :=
  match o with
  | [] => [(k, v)]
  | (k', v') :: o' =>
      if String.eqb k' k then (k', v) :: o' else (k', v') :: set o' k v
  end.

(** [delete o[k]] *)
Fixpoint remove (o : list (string * json)) (k : string) : list (string * json) :=
  match o with
  | [] => []
  | (k', v') :: o' =>
      if String.eqb k' k then remove o' k else (k', v') :: remove o' k
  end.

(** [o[k] = v] where [v] may be [undefined]; JSON data has no such field. *)
Definition set_opt (o : list (string * json)) (k : string) (v : option json)
  : list (string * json) :=
  match v with
  | Some x => set o k x
  | None => remove o k
  end.

(** The index a property key names in an array of the given length. *)
Definition index_of (k : string) (len : nat) : option nat :=
  List.find (fun i => String.eqb (pretty i) k) (seq 0 len).

(** [ary[n] = v]: in range the element is replaced; beyond the end the
    array grows, the holes reading as null once copied. *)
Definition set_at (ary : list json) (n : nat) (v : json) : list json :=
  if (n <? length ary)%nat then <[n := v]> ary
  else ary ++ replicate (n - length ary) JNull ++ [v].

(** [v[k]] by key, arrays included. *)
Definition read (v : json) (k : string) : result (option json) :=
  match v with
  | JNull => Fail (TypeError ("Cannot read property '" +:+ k +:+ "' of null"))
  | JObj o => Ok (get o k)
  | JArr l => Ok (i ← index_of k (length l); l !! i)
  | _ => Ok None
  end.

(** [v[k] = x] in strict mode: a primitive has no properties to create. *)
Definition write (v : json) (k : string) (x : json) : result json :=
  match v with
  | JObj o => Ok (JObj (set o k x))
  | JArr l =>
      match index_of k (S (length l)) with
      | Some i => Ok (JArr (set_at l i x))
      | None => Ok v
      end
  | JNull => Fail (TypeError ("Cannot set property '" +:+ k +:+ "' of null"))
  | _ => Fail (TypeError ("Cannot create property '" +:+ k +:+ "'"))
  end.

(** [v[k] = x] where [x] may be [undefined]. *)
Definition write_opt (v : json) (k : string) (x : option json) : result json :=
  match x with
  | Some y => write v k y
  | None =>
      match v with
      | JObj o => Ok (JObj (remove o k))
      | JNull => Fail (TypeError ("Cannot set property '" +:+ k +:+ "' of null"))
      | JArr _ => Ok v
      | _ => Fail (TypeError ("Cannot create property '" +:+ k +:+ "'"))
      end
  end.

(** The fields of an object; other values have none. *)
Definition fields_of (v : json) : list (string * json) :=
  match v with
  | JObj o => o
  | _ => []
  end.

(** [v[k]] for a JSON value; property access on [null] throws. *)
Definition prop (v : json) (k : string) : result (option json) :=
  match v with
  | JNull => Fail (TypeError ("Cannot read property '" +:+ k +:+ "' of null"))
  | JObj o => Ok (get o k)
  | _ => Ok None
  end.

(** [Object.keys(v)] zipped with the values; throws on [null]. *)
Definition entries (v : json) : result (list (string * json)) :=
  match v with
  | JNull => Fail (TypeError "Cannot convert undefined or null to object")
  | JObj o => Ok o
  | JArr l => Ok (imap (fun i x => (pretty i, x)) l)
  | JStr s =>
      Ok (imap (fun i c => (pretty i, JStr (String c EmptyString)))
            (String.list_ascii_of_string s))
  | JBool _ | JNum _ => Ok []
  end.

(** [a === b] for a value and a value taken from another copy of the data:
    primitives compare by value, [undefined] is [None]; two arrays or two
    objects are different references. *)
Definition strict_eq (a b : option json) : bool :=
  match a, b with
  | None, None => true
  | Some JNull, Some JNull => true
  | Some (JBool x), Some (JBool y) => Bool.eqb x y
  | Some (JNum x), Some (JNum y) => Z.eqb x y
  | Some (JStr x), Some (JStr y) => String.eqb x y
  | _, _ => false
  end.

(** The text of a value inside a string concatenation. *)
Fixpoint to_string (v : json) : string :=
  match v with
  | JNull => "null"
  | JBool true => "true"
  | JBool false => "false"
  | JNum n => pretty n
  | JStr s => s
  | JArr l =>
      (fix go (l : list json) : string :=
         match l with
         | [] => ""
         | [x] => match x with JNull => "" | _ => to_string x end
         | x :: rest =>
             (match x with JNull => "" | _ => to_string x end) +:+ "," +:+ go rest
         end) l
  | JObj _ => "[object Object]"
  end.

Definition text (v : option json) : string :=
  match v with
  | Some x => to_string x
  | None => "undefined"
  end.

(** [v.k] where [v] may be [undefined]. *)
Definition prop_opt (v : option json) (k : string) : result (option json) :=
  match v with
  | Some x => prop x k
  | None => Fail (TypeError ("Cannot read property '" +:+ k +:+ "' of undefined"))
  end.

Fixpoint depth (v : json) : nat :=
  match v with
  | JArr l => S (list_max (map depth l))
  | JObj o => S (list_max (map (fun kv => depth kv.2) o))
  | _ => 1%nat
  end.

End Js.

(** ** String helpers *)

Module Str.

Definition is_upper (c : ascii) : bool :=
  let n := nat_of_ascii c in (65 <=? n)%nat && (n <=? 90)%nat.

Definition is_lower (c : ascii) : bool :=
  let n := nat_of_ascii c in (97 <=? n)%nat && (n <=? 122)%nat.

Definition upper (c : ascii) : ascii :=
  if is_lower c then ascii_of_nat (nat_of_ascii c - 32) else c.

Definition lower (c : ascii) : ascii :=
  if is_upper c then ascii_of_nat (nat_of_ascii c + 32) else c.

(** The double quote character, as a string. *)
Definition dq : string := String "034"%char EmptyString.

(** [String.prototype.toUpperCase] on ASCII text. *)
Fixpoint toUpperCase (s : string) : string :=
  match s with
  | EmptyString => EmptyString
  | String c rest => String (upper c) (toUpperCase rest)
  end.

(** [ary.join(sep)] *)
Fixpoint join (sep : string) (l : list string) : string :=
  match l with
  | [] => ""
  | [x] => x
  | x :: rest => x +:+ sep +:+ join sep rest
  end.

(** [s.split(".")] *)
Fixpoint split_dots (s : string) : list string :=
  match s with
  | EmptyString => [EmptyString]
  | String c rest =>
      if Ascii.eqb c "."%char then EmptyString :: split_dots rest
      else match split_dots rest with
           | [] => [String c EmptyString]
           | seg :: segs => String c seg :: segs
           end
  end.

(** Modelled from the spec: [String.prototype.toCamelCase] lives in the
    common core, outside the modelled files; the specification says that
    snake_case keys become camelCase.  An underscore is dropped and the
    character after it is upper-cased. *)
Fixpoint toCamelCase (s : string) : string :=
  match s with
  | EmptyString => EmptyString
  | String c rest =>
      match rest with
      | String d rest' =>
          if Ascii.eqb c "_"%char then String (upper d) (toCamelCase rest')
          else String c (toCamelCase rest)
      | EmptyString => String c EmptyString
      end
  end.

(** Modelled from the spec: [String.prototype.toSnakeCase] lives in the
    common core; the specification names tables by the snake_case of the
    feather name.  An underscore goes between a lower-case letter and the
    upper-case letter after it, and the text is lower-cased. *)
Fixpoint toSnakeCase (s : string) : string :=
  match s with
  | EmptyString => EmptyString
  | String c rest =>
      match rest with
      | String d _ =>
          if is_lower c && is_upper d
          then String c (String "_"%char (toSnakeCase rest))
          else String (lower c) (toSnakeCase rest)
      | EmptyString => String (lower c) EmptyString
      end
  end.

(** Modelled from the spec: [String.prototype.toName] lives in the common
    core; the specification's scenario prints property [lastName] as
    [Last Name] and feather [Contact] as [Contact].  The first letter is
    upper-cased and a space goes before every later upper-case letter that
    follows a lower-case one. *)
Fixpoint spaced (s : string) : string :=
  match s with
  | EmptyString => EmptyString
  | String c rest =>
      match rest with
      | String d _ =>
          if is_lower c && is_upper d
          then String c (String " "%char (spaced rest))
          else String c (spaced rest)
      | EmptyString => String c EmptyString
      end
  end.

Definition toName (s : string) : string :=
  match s with
  | EmptyString => EmptyString
  | String c rest => spaced (String (upper c) rest)
  end.

Lemma append_assoc (a b c : string) : (a +:+ b) +:+ c = a +:+ (b +:+ c).
Proof.
  induction a as [|x a IH]; [reflexivity|].
  change (String x ((a +:+ b) +:+ c) = String x (a +:+ (b +:+ c))). by rewrite IH.
Qed.

End Str.

(** ** tools.sanitize *)

Module Sanitize.
Section Sanitize.

(** [String.prototype.toCamelCase] is defined outside the modelled files. *)
Variable toCamelCase : string -> string.

(** [oKey.match("^_")] *)
Definition is_internal (oKey : string) : bool :=
  match oKey with
  | String "_"%char _ => true
  | _ => false
  end.

(** The inner [while (n < klen)] loop: [rec] is the recursive call
    [tools.sanitize]. *)
Definition keys_loop (rec : json -> result json)
  : list (string * json) -> list (string * json) -> result (list (string * json)) :=
  fix go (ents : list (string * json)) (newObj : list (string * json)) :=
    match ents with
    | [] => Ok newObj
    | (oKey, val) :: rest =>
        if is_internal oKey then go rest newObj
        else
          let nKey := toCamelCase oKey in
          if Js.typeof_object val && negb (Js.is_null val)
          then val' ← rec val; go rest (Js.set newObj nKey val')
          else go rest (Js.set newObj nKey val)
    end.

(** The outer [while (i < len)] loop over [ary]. *)
Definition items_loop (rec : json -> result json)
  : list json -> result (list json) :=
  fix go (ary : list json) :=
    match ary with
    | [] => Ok []
    | item :: rest =>
        item' ← match item with
                | JStr _ => Ok item
                | _ =>
                    ents ← Js.entries item;
                    newObj ← keys_loop rec ents [];
                    Ok (JObj newObj)
                end;
        rest' ← go rest;
        Ok (item' :: rest')
    end.

Fixpoint sanitize (fuel : nat) (obj : json) : result json :=
  match fuel with
  | O => Fail Diverged
  | S fuel' =>
      let isArray := Js.isArray obj in
      let ary := match obj with JArr l => l | _ => [obj] end in
      ary' ← items_loop (sanitize fuel') ary;
      Ok (if isArray then JArr ary' else default JNull (head ary'))
  end.

(** *** The specification's reading of sanitize *)

Definition camel_fields (kvs : list (string * json)) : list (string * json) :=
  fold_left (fun acc kv => Js.set acc (toCamelCase kv.1) kv.2) kvs [].

Fixpoint spec_sanitize (v : json) : json :=
  match v with
  | JObj o =>
      JObj (camel_fields
              (filter (fun kv => is_internal kv.1 = false)
                 (map (fun kv => (kv.1, spec_sanitize kv.2)) o)))
  | JArr l => JArr (map spec_sanitize l)
  | _ => v
  end.

(** Rows as the database hands them over: a string, an object, or an
    array; every array element, at any depth, is a string or an object. *)
Fixpoint row_data (v : json) : bool :=
  match v with
  | JStr _ => true
  | JObj o =>
      forallb (fun kv =>
                 is_internal kv.1 ||
                 match kv.2 with
                 | JObj _ | JArr _ => row_data kv.2
                 | _ => true
                 end) o
  | JArr l =>
      forallb (fun x =>
                 match x with
                 | JStr _ => true
                 | JObj _ => row_data x
                 | _ => false
                 end) l
  | _ => false
  end.

(** *** Refinement proof *)

Lemma depth_elem (l : list json) (x : json) :
  x ∈ l -> (Js.depth x <= list_max (map Js.depth l))%nat.
Proof.
  induction 1 as [x l|x y l _ IH]; simpl; lia.
Qed.

Lemma depth_field (o : list (string * json)) (kv : string * json) :
  kv ∈ o -> (Js.depth kv.2 <= list_max (map (fun kv => Js.depth kv.2) o))%nat.
Proof.
  induction 1 as [x l|x y l _ IH]; simpl; lia.
Qed.

Lemma spec_sanitize_scalar (v : json) :
  Js.typeof_object v && negb (Js.is_null v) = false -> spec_sanitize v = v.
Proof. destruct v; simpl; congruence. Qed.

(** Loop invariant of the key loop: the accumulator is the fold of the
    entries seen so far. *)
Lemma keys_loop_spec (rec : json -> result json) (o acc : list (string * json)) :
  (forall kv, kv ∈ o -> is_internal kv.1 = false ->
              Js.typeof_object kv.2 && negb (Js.is_null kv.2) = true ->
              rec kv.2 = Ok (spec_sanitize kv.2)) ->
  keys_loop rec o acc =
    Ok (fold_left (fun acc kv => Js.set acc (toCamelCase kv.1) kv.2)
          (filter (fun kv => is_internal kv.1 = false)
             (map (fun kv => (kv.1, spec_sanitize kv.2)) o)) acc).
Proof.
  revert acc. induction o as [|[k v] o IH]; intros acc Hrec; [reflexivity|].
  simpl. destruct (is_internal k) eqn:Hk.
  - rewrite filter_cons_False by (simpl; congruence).
    apply IH. intros kv Hin. apply Hrec. by right.
  - rewrite filter_cons_True by done. simpl.
    destruct (Js.typeof_object v && negb (Js.is_null v)) eqn:Hv.
    + assert (rec v = Ok (spec_sanitize v)) as Hr
        by (apply (Hrec (k, v)); [by left|done|done]).
      rewrite Hr. simpl.
      apply IH. intros kv Hin. apply Hrec. by right.
    + rewrite (spec_sanitize_scalar v Hv).
      apply IH. intros kv Hin. apply Hrec. by right.
Qed.

Definition spec_fields (o : list (string * json)) : list (string * json) :=
  camel_fields
    (filter (fun kv => is_internal kv.1 = false)
       (map (fun kv => (kv.1, spec_sanitize kv.2)) o)).

Lemma sanitize_object (fuel : nat) (o : list (string * json)) :
  (forall v, row_data v = true -> (Js.depth v < fuel)%nat ->
             sanitize fuel v = Ok (spec_sanitize v)) ->
  row_data (JObj o) = true ->
  (Js.depth (JObj o) <= fuel)%nat ->
  keys_loop (sanitize fuel) o [] = Ok (spec_fields o).
Proof.
  intros IH Hrow Hd. rewrite keys_loop_spec; [reflexivity|].
  intros [k v] Hin Hk Hv. simpl in *.
  apply IH.
  - rewrite forallb_forall in Hrow.
    specialize (Hrow (k, v)). simpl in Hrow. rewrite Hk in Hrow. simpl in Hrow.
    destruct v; try discriminate; apply Hrow; by apply list_elem_of_In.
  - pose proof (depth_field o (k, v) Hin) as Hle. simpl in Hle. lia.
Qed.

Lemma sanitize_items (fuel : nat) (l : list json) :
  (forall v, row_data v = true -> (Js.depth v < fuel)%nat ->
             sanitize fuel v = Ok (spec_sanitize v)) ->
  row_data (JArr l) = true ->
  (Js.depth (JArr l) <= S fuel)%nat ->
  items_loop (sanitize fuel) l = Ok (map spec_sanitize l).
Proof.
  intros IH. induction l as [|x l IHl]; intros Hrow Hd; [reflexivity|].
  simpl in Hrow. apply andb_prop in Hrow as [Hx Hl].
  simpl in Hd.
  cbn [items_loop]. fold (items_loop (sanitize fuel)).
  rewrite IHl; [|exact Hl|simpl; lia].
  destruct x; try discriminate Hx.
  - reflexivity.
  - cbn [Js.entries]. simpl.
    rewrite (sanitize_object fuel fields IH Hx); [reflexivity|lia].
Qed.

Lemma sanitize_refines (fuel : nat) :
  forall v, row_data v = true -> (Js.depth v < fuel)%nat ->
            sanitize fuel v = Ok (spec_sanitize v).
Proof.
  induction fuel as [|fuel IH]; intros v Hrow Hd; [lia|].
  destruct v; try discriminate Hrow.
  - reflexivity.
  - cbn [sanitize Js.isArray].
    rewrite (sanitize_items fuel items IH Hrow); [reflexivity|lia].
  - cbn [sanitize Js.isArray items_loop Js.entries]. simpl.
    rewrite (sanitize_object fuel fields IH Hrow); [reflexivity|simpl in *; lia].
Qed.

(** C8 (as amended).  On row data, that is a string, an object or an array
    in which every array element at any depth is a string or an object,
    [sanitize] returns, given fuel beyond the nesting depth, the value in
    which keys beginning with an underscore are dropped, the other keys are
    turned to camel case, nested objects and arrays are transformed the same
    way, arrays element by element, and strings are unchanged. *)
Theorem sanitize_row_data (fuel : nat) (v : json) :
  row_data v = true ->
  (Js.depth v < fuel)%nat ->
  sanitize fuel v = Ok (spec_sanitize v).
Proof. apply sanitize_refines. Qed.

End Sanitize.

Definition sample_row : json :=
  JObj [("_pk", JNum 7); ("last_name", JStr "Lovelace"); ("is_deleted", JBool false);
        ("lock", JNull);
        ("lines", JArr [JObj [("_order_pk", JNum 7); ("line_no", JNum 1)]; JStr "x"])].

Lemma sanitize_row_data_witness :
  row_data sample_row = true /\ (Js.depth sample_row < 5)%nat /\
  sanitize Str.toCamelCase 5 sample_row =
    Ok (JObj [("lastName", JStr "Lovelace"); ("isDeleted", JBool false);
              ("lock", JNull);
              ("lines", JArr [JObj [("lineNo", JNum 1)]; JStr "x"])]).
Proof.
  split; [reflexivity|]. split; [vm_compute; lia|].
  rewrite (sanitize_row_data Str.toCamelCase 5 sample_row);
    [reflexivity|reflexivity|vm_compute; lia].
Defined.

(** C8 as stated fails: on [null], [sanitize] throws a [TypeError] from
    [Object.keys] whatever the fuel, so it returns nothing. *)
Lemma sanitize_null_throws :
  ~ (exists fuel r, sanitize Str.toCamelCase fuel JNull = Ok r).
Proof.
  intros (fuel & r & H). destruct fuel as [|fuel]; simpl in H; discriminate H.
Qed.

(** Other values outside row data: a number is replaced by an empty object,
    also as an array element, and a null array element throws. *)
Example sanitize_number :
  sanitize Str.toCamelCase 3 (JObj [("sizes", JArr [JNum 1; JNum 2])])
  = Ok (JObj [("sizes", JArr [JObj []; JObj []])]).
Proof. reflexivity. Qed.

Example sanitize_null_element :
  sanitize Str.toCamelCase 3 (JObj [("sizes", JArr [JNull])])
  = Fail (TypeError "Cannot convert undefined or null to object").
Proof. reflexivity. Qed.

End Sanitize.

(** ** SQL statements and the database

    The server talks to PostgreSQL through SQL text with [%I] identifier
    placeholders (filled by [String.prototype.format] from a token list)
    and [$n] value parameters.  A compiled query keeps that text and, next
    to it, the conditions it stands for, on which the database semantics is
    defined. *)

Module Sql.

(** A column reference [((%I).%I).%I]: the identifiers, outermost first. *)
Definition path : Type := list string.

Inductive where_part : Type :=
| WIn (col : path) (vals : list json)                 (* col IN ($p,...) *)
| WOr (cols : list path) (op : string) (val : option json) (* (col op $p OR ...) *)
| WIsNull (col : path)                                (* col IS NULL *)
| WCmp (col : path) (op : string) (val : option json). (* col op $p *)

Record select_keys : Type := {
  q_sql : string;                    (* text, before the tokens are filled in *)
  q_tokens : list string;
  q_params : list (option json);
  q_from : string;                   (* FROM %I *)
  q_not_deleted : bool;              (* WHERE NOT is_deleted / WHERE true *)
  q_auth : option json;              (* the user of the authorization clause *)
  q_where : list where_part;
  q_order : list (path * string);
  q_offset : option json;
  q_limit : option json
}.

End Sql.

Module Pg.
Import Sql.

(** A row of table [object] or of a table inheriting from it: the tables
    it is visible in (its own and the ancestors), and its columns. *)
Record row : Type := {
  tables : list string;
  cols : list (string * json)
}.

(** Rows of [$subscription]: nodeid, sessionid, subscriptionid, objectid. *)
Definition subscription : Type := (string * string * string * string)%type.

Record db : Type := {
  objects : list row;
  subscriptions : gset subscription
}.

Fixpoint json_eqb (a b : json) {struct a} : bool :=
  match a, b with
  | JNull, JNull => true
  | JBool x, JBool y => Bool.eqb x y
  | JNum x, JNum y => Z.eqb x y
  | JStr x, JStr y => String.eqb x y
  | JArr l, JArr l' =>
      (fix go (l l' : list json) {struct l} : bool :=
         match l, l' with
         | [], [] => true
         | x :: xs, y :: ys => json_eqb x y && go xs ys
         | _, _ => false
         end) l l'
  | JObj o, JObj o' =>
      (fix go (o o' : list (string * json)) {struct o} : bool :=
         match o, o' with
         | [], [] => true
         | (k, x) :: xs, (k', y) :: ys =>
             String.eqb k k' && json_eqb x y && go xs ys
         | _, _ => false
         end) o o'
  | _, _ => false
  end.

(** The value of a column reference in a row; [None] and [JNull] are NULL. *)
Fixpoint lookup (fields : list (string * json)) (col : path) : option json :=
  match col with
  | [] => None
  | [c] => Js.get fields c
  | c :: rest =>
      match Js.get fields c with
      | Some (JObj inner) => lookup inner rest
      | _ => None
      end
  end.

Definition column (r : row) (c : string) : option json := Js.get (cols r) c.

Definition row_id (r : row) : option json := column r "id".

Definition is_deleted (r : row) : bool :=
  match column r "is_deleted" with
  | Some (JBool true) => true
  | _ => false
  end.

(** [NOT is_deleted] holds when the column is false (not when it is NULL). *)
Definition not_deleted (r : row) : bool :=
  match column r "is_deleted" with
  | Some (JBool false) => true
  | _ => false
  end.

Definition set_column (c : string) (v : json) (r : row) : row :=
  {| tables := tables r; cols := Js.set (cols r) c v |}.

Section Semantics.

(** Comparison operators other than equality, the authorization sub-select
    over [$auth] and the roles, and row ordering are PostgreSQL's. *)
Variable pg_op : string -> json -> json -> bool.
Variable authorized : json -> row -> bool.
Variable order_rows : list (path * string) -> list row -> list row.

Definition compare (op : string) (a : option json) (b : option json) : bool :=
  match a, b with
  | Some JNull, _ | None, _ | _, Some JNull | _, None => false
  | Some x, Some y =>
      if String.eqb op "=" then json_eqb x y
      else if String.eqb op "!=" || String.eqb op "<>" then negb (json_eqb x y)
      else pg_op op x y
  end.

Definition holds (r : row) (w : where_part) : bool :=
  match w with
  | WIn col vals => existsb (fun v => compare "=" (lookup (cols r) col) (Some v)) vals
  | WOr alts op val => existsb (fun col => compare op (lookup (cols r) col) val) alts
  | WIsNull col =>
      match lookup (cols r) col with
      | None | Some JNull => true
      | _ => false
      end
  | WCmp col op val => compare op (lookup (cols r) col) val
  end.

Definition selected (q : select_keys) (r : row) : bool :=
  bool_decide (q_from q ∈ tables r)
  && (if q_not_deleted q then not_deleted r else true)
  && match q_auth q with Some user => authorized user r | None => true end
  && forallb (holds r) (q_where q).

Definition window (q : select_keys) (l : list row) : list row :=
  let l1 := match q_offset q with
            | Some (JNum n) => drop (Z.to_nat n) l
            | _ => l
            end in
  match q_limit q with
  | Some (JNum n) => take (Z.to_nat n) l1
  | _ => l1
  end.

(** The rows a key query returns, in order. *)
Definition select_rows (d : db) (q : select_keys) : list row :=
  window q (order_rows (q_order q) (List.filter (selected q) (objects d))).

(** [resp.rows.map(rec => rec[tools.PKCOL])] *)
Definition select_pks (d : db) (q : select_keys) : list (option json) :=
  map (fun r => column r "_pk") (select_rows d q).

(** Ordering returns rows of its input. *)
Hypothesis order_rows_sub :
  forall keys l r, r ∈ order_rows keys l -> r ∈ l.

Lemma window_sub (q : select_keys) (l : list row) (r : row) :
  r ∈ window q l -> r ∈ l.
Proof.
  unfold window. intros H.
  assert (forall l1, r ∈ match q_limit q with
                         | Some (JNum n) => take (Z.to_nat n) l1
                         | _ => l1
                         end -> r ∈ l1) as Hlimit.
  { intros l1 H1. destruct (q_limit q) as [[| | n | | |]|]; try done.
    by apply (subseteq_take (Z.to_nat n) l1). }
  apply Hlimit in H.
  destruct (q_offset q) as [[| | n | | |]|]; try done.
  by apply (subseteq_drop (Z.to_nat n) l).
Qed.

Lemma select_rows_selected (d : db) (q : select_keys) (r : row) :
  r ∈ select_rows d q -> r ∈ objects d /\ selected q r = true.
Proof using order_rows_sub.
  unfold select_rows. intros H.
  apply window_sub, order_rows_sub in H.
  apply list_elem_of_In, filter_In in H as [H1 H2].
  split; [by apply list_elem_of_In|done].
Qed.

(** A query with [NOT is_deleted] returns no deleted row. *)
Lemma select_rows_not_deleted (d : db) (q : select_keys) (r : row) :
  q_not_deleted q = true ->
  r ∈ select_rows d q ->
  is_deleted r = false.
Proof using order_rows_sub.
  intros Hq H. apply select_rows_selected in H as [_ H].
  unfold selected in H. rewrite Hq in H.
  repeat (apply andb_prop in H as [H ?]).
  unfold not_deleted in *. unfold is_deleted.
  by destruct (column r "is_deleted") as [[|[|]| | | |]|].
Qed.

End Semantics.

(** [UPDATE object SET is_deleted = true WHERE id=$1;] *)
Definition soft_delete (id : option json) (d : db) : db :=
  {| objects :=
       map (fun r =>
              if compare (fun _ _ _ => false) "=" (row_id r) id
              then set_column "is_deleted" (JBool true) r else r)
         (objects d);
     subscriptions := subscriptions d |}.

(** [DELETE FROM object WHERE id=$1;] *)
Definition hard_delete (id : option json) (d : db) : db :=
  {| objects :=
       List.filter (fun r => negb (compare (fun _ _ _ => false) "=" (row_id r) id))
         (objects d);
     subscriptions := subscriptions d |}.

Lemma get_set_eq (o : list (string * json)) (k : string) (v : json) :
  Js.get (Js.set o k v) k = Some v.
Proof.
  induction o as [|[k' v'] o IH]; simpl.
  - by rewrite String.eqb_refl.
  - destruct (String.eqb k' k) eqn:E; simpl; by rewrite E.
Qed.

Lemma get_set_ne (o : list (string * json)) (k k' : string) (v : json) :
  k <> k' -> Js.get (Js.set o k v) k' = Js.get o k'.
Proof.
  intros Hne. induction o as [|[k0 v0] o IH]; simpl.
  - by rewrite (proj2 (String.eqb_neq k k')).
  - destruct (String.eqb k0 k) eqn:E; simpl.
    + apply String.eqb_eq in E as ->.
      by rewrite (proj2 (String.eqb_neq k k')).
    + by rewrite IH.
Qed.

(** After the soft delete every row with the id is marked deleted. *)
Lemma soft_delete_marks (i : string) (d : db) (r : row) :
  r ∈ objects (soft_delete (Some (JStr i)) d) ->
  row_id r = Some (JStr i) ->
  is_deleted r = true.
Proof.
  unfold soft_delete. simpl. intros Hin Hid.
  apply list_elem_of_fmap in Hin as (r0 & -> & _).
  destruct (compare _ "=" (row_id r0) (Some (JStr i))) eqn:E.
  - unfold is_deleted, column, set_column. simpl. by rewrite get_set_eq.
  - rewrite Hid in E. simpl in E. by rewrite String.eqb_refl in E.
Qed.

End Pg.

(** ** tools.js: path resolution, sorting, key queries *)

Module Tools.
Import Sql.

(** [where.property] and [sort[i].property]: a name, an array of names,
    or absent. *)
Inductive prop_ref : Type :=
| PName (s : string)
| PNames (l : list string)
| PMissing.

Record Criterion : Type := {
  c_property : prop_ref;
  c_operator : option string;
  c_value : option json
}.

Record SortEntry : Type := {
  sort_property : prop_ref;
  order : option string
}.

Record Filter : Type := {
  criteria : option (list Criterion);
  sort : option (list SortEntry);
  offset : option json;
  limit : option json
}.

(** The request payload of [getKeys]; [currentUser] stands for
    [payload.client.currentUser()]. *)
Record Payload : Type := {
  name : string;
  filter : option Filter;
  showDeleted : bool;
  currentUser : json
}.

Definition PKCOL : string := "_pk".

(** The state the compiler of [getKeys] threads through its loops. *)
Record compiler : Type := {
  tokens : list string;
  params : list (option json);
  p : nat;
  parts : list string;
  conds : list where_part
}.

Section Tools.

Variable toSnakeCase : string -> string.
(** [Object.keys(f.operators)] *)
Variable ops : list string.

(** The identifiers a dotted column name stands for. *)
Definition path_of (col : string) : path := map toSnakeCase (Str.split_dots col).

(** [resolvePath] on the segments of [col], last segment first:
    [suffix :: prefix] is the split at [col.lastIndexOf(".")]. *)
Fixpoint resolve_segments (rev_segments : list string) (toks : list string)
  : string * list string :=
  match rev_segments with
  | [] => ("%I", toks ++ [toSnakeCase ""])
  | [col] => ("%I", toks ++ [toSnakeCase col])
  | suffix :: prefix =>
      let '(ret, toks1) := resolve_segments prefix toks in
      ("(" +:+ ret +:+ ").%I", toks1 ++ [toSnakeCase suffix])
  end.

Definition resolvePath (col : prop_ref) (toks : list string)
  : result (string * list string) :=
  match col with
  | PName s => Ok (resolve_segments (rev (Str.split_dots s)) toks)
  | PNames _ => Fail (TypeError "col.toSnakeCase is not a function")
  | PMissing => Fail (TypeError "Cannot read property 'lastIndexOf' of undefined")
  end.

Definition ref_path (col : prop_ref) : path :=
  match col with
  | PName s => path_of s
  | _ => []
  end.

(** The [while (sort[i])] loop of [processSort]. *)
Fixpoint sort_loop (entries : list SortEntry) (toks : list string)
  (sqlparts : list string) (keys : list (path * string))
  : result (list string * list string * list (path * string)) :=
  match entries with
  | [] => Ok (toks, sqlparts, keys)
  | entry :: rest =>
      let ord := Str.toUpperCase
                   (match order entry with
                    | Some o => if String.eqb o "" then "ASC" else o
                    | None => "ASC"
                    end) in
      if negb (String.eqb ord "ASC") && negb (String.eqb ord "DESC")
      then Fail (ErrString ("Unknown operator " +:+ Str.dq +:+ ord +:+ Str.dq))
      else
        '(part, toks1) ← resolvePath (sort_property entry) toks;
        sort_loop rest toks1 (sqlparts ++ [part +:+ " " +:+ ord])
          (keys ++ [(ref_path (sort_property entry), ord)])
  end.

(** [processSort(sort, tokens)]: the first component is the [sort] array
    after the call, which has been pushed onto in place. *)
Definition processSort (sort : list SortEntry) (toks : list string)
  : list SortEntry * result (string * list string * list (path * string)) :=
  let sort1 := sort ++ [{| sort_property := PName PKCOL; order := None |}] in
  (sort1,
   '(toks1, sqlparts, keys) ← sort_loop sort1 toks [] [];
   Ok (match sqlparts with
       | [] => ""
       | _ => " ORDER BY " +:+ Str.join "," sqlparts
       end, toks1, keys)).

(** [buildAuthSql(action, table, tokens)] for the three valid actions. *)
Definition buildAuthSql (action table : string) (toks : list string)
  : result (string * list string) :=
  if negb (existsb (String.eqb action) ["canRead"; "canUpdate"; "canDelete"])
  then Fail (ErrString ("Invalid authorization action for object " +:+ Str.dq
                         +:+ action +:+ Str.dq))
  else
    let toks1 := toks ++ replicate 7 table in
    let action := toSnakeCase action in
    Ok (" AND _pk IN (" +:+
        "SELECT %I._pk " +:+
        "FROM %I " +:+
        "  JOIN " +:+ Str.dq +:+ "$feather" +:+ Str.dq +:+ " " +:+
        "  ON " +:+ Str.dq +:+ "$feather" +:+ Str.dq +:+
        ".id::regclass::oid=%I.tableoid " +:+
        "WHERE EXISTS (" +:+
        "  SELECT " +:+ action +:+ " FROM ( " +:+
        "    SELECT " +:+ action +:+
        "    FROM " +:+ Str.dq +:+ "$auth" +:+ Str.dq +:+ ", pg_authid" +:+
        "    WHERE pg_has_role($1, pg_authid.oid, 'member')" +:+
        "      AND " +:+ Str.dq +:+ "$auth" +:+ Str.dq +:+ ".object_pk " +:+
        "        IN (" +:+ Str.dq +:+ "$feather" +:+ Str.dq +:+
        ".parent_pk, %I._pk)" +:+
        "      AND " +:+ Str.dq +:+ "$auth" +:+ Str.dq +:+
        ".role=pg_authid.rolname" +:+
        "      AND " +:+ action +:+ " IS NOT NULL " +:+
        "    ORDER BY " +:+ action +:+ " DESC" +:+
        "    LIMIT 1" +:+
        "  ) AS data" +:+
        "  WHERE " +:+ action +:+
        ") " +:+
        "EXCEPT " +:+
        "SELECT %I._pk " +:+
        "FROM %I " +:+
        "WHERE EXISTS ( " +:+
        "  SELECT " +:+ action +:+ " FROM (" +:+
        "    SELECT " +:+ action +:+
        "    FROM " +:+ Str.dq +:+ "$auth" +:+ Str.dq +:+ ", pg_authid" +:+
        "    WHERE pg_has_role($1, pg_authid.oid, 'member')" +:+
        "      AND " +:+ Str.dq +:+ "$auth" +:+ Str.dq +:+ ".object_pk=%I._pk" +:+
        "      AND " +:+ Str.dq +:+ "$auth" +:+ Str.dq +:+
        ".role=pg_authid.rolname" +:+
        "      AND " +:+ action +:+ " IS NOT NULL " +:+
        "    ORDER BY " +:+ action +:+ " DESC" +:+
        "    LIMIT 1 " +:+
        "  ) AS data " +:+
        "WHERE NOT " +:+ action +:+ "))", toks1).

Definition dollar (n : nat) : string := "$" +:+ pretty n.

(** [where.operator || "="] *)
Definition operator_of (crit : Criterion) : string :=
  match c_operator crit with
  | Some o => if String.eqb o "" then "=" else o
  | None => "="
  end.

(** The loop over [where.property] when it is an array of names. *)
Fixpoint or_loop (op : string) (val : option json) (props : list string)
  (st : compiler) (alts : list string) : compiler * list string :=
  match props with
  | [] => (st, alts)
  | prop :: rest =>
      let '(txt, toks1) := resolve_segments (rev (Str.split_dots prop)) (tokens st) in
      or_loop op val rest
        {| tokens := toks1;
           params := params st ++ [val];
           p := S (p st);
           parts := parts st;
           conds := conds st |}
        (alts ++ [txt +:+ " " +:+ op +:+ " " +:+ dollar (p st)])
  end.

(** [part = resolvePath(where.property, tokens) + " " + op + " $" + p] *)
Definition comparison (op : string) (st : compiler) (crit : Criterion)
  : result (compiler * Criterion) :=
  let params1 := params st ++ [c_value crit] in
  '(txt, toks1) ← resolvePath (c_property crit) (tokens st);
  Ok ({| tokens := toks1;
         params := params1;
         p := S (p st);
         parts := parts st ++ [txt +:+ " " +:+ op +:+ " " +:+ dollar (p st)];
         conds := conds st ++ [WCmp (ref_path (c_property crit)) op (c_value crit)] |},
      crit).

(** One turn of [criteria.forEach]; the criterion comes back as the loop
    leaves it, since a relation value rewrites it in place. *)
Definition where_step (st : compiler) (crit : Criterion)
  : result (compiler * Criterion) :=
  let op := operator_of crit in
  if negb (existsb (String.eqb op) ops)
  then Fail (ErrString ("Unknown operator " +:+ Str.dq +:+ op +:+ Str.dq))
  else if String.eqb op "IN" then
    match c_value crit with
    | Some (JArr vals) =>
        let ps := imap (fun i _ => dollar (p st + i)) vals in
        '(txt, toks1) ← resolvePath (c_property crit) (tokens st);
        Ok ({| tokens := toks1;
               params := params st ++ map Some vals;
               p := (p st + length vals)%nat;
               parts := parts st ++ [txt +:+ " IN (" +:+ Str.join "," ps +:+ ")"];
               conds := conds st ++ [WIn (ref_path (c_property crit)) vals] |},
            crit)
    | Some JNull =>
        Fail (TypeError "Cannot read property 'forEach' of null")
    | None =>
        Fail (TypeError "Cannot read property 'forEach' of undefined")
    | Some _ => Fail (TypeError "where.value.forEach is not a function")
    end
  else
    match c_property crit with
    | PNames props =>
        let '(st1, alts) := or_loop op (c_value crit) props st [] in
        Ok ({| tokens := tokens st1;
               params := params st1;
               p := p st1;
               parts := parts st1 ++ ["(" +:+ Str.join " OR " alts +:+ ")"];
               conds := conds st1 ++ [WOr (map path_of props) op (c_value crit)] |},
            crit)
    | _ =>
        match c_value crit with
        | Some v =>
            if Js.typeof_object v then
              (* [typeof where.value === "object" && !where.value.id] *)
              idv ← Js.prop v "id";
              if negb (Js.truthy_opt idv) then
                '(txt, toks1) ← resolvePath (c_property crit) (tokens st);
                Ok ({| tokens := toks1;
                       params := params st;
                       p := p st;
                       parts := parts st ++ [txt +:+ " IS NULL"];
                       conds := conds st ++ [WIsNull (ref_path (c_property crit))] |},
                    crit)
              else
                comparison op st
                  {| c_property := match c_property crit with
                                 | PName s => PName (s +:+ ".id")
                                 | _ => PName "undefined.id"
                                 end;
                     c_operator := c_operator crit;
                     c_value := idv |}
            else comparison op st crit
        | None => comparison op st crit
        end
    end.

Fixpoint where_loop (st : compiler) (wheres : list Criterion)
  : list Criterion * result compiler :=
  match wheres with
  | [] => ([], Ok st)
  | crit :: rest =>
      match where_step st crit with
      | Ok (st1, crit1) =>
          let '(rest1, r) := where_loop st1 rest in (crit1 :: rest1, r)
      | Fail e => (crit :: rest, Fail e)
      end
  end.

(** The authorization criteria of [getKeys]: the text so far, the tokens,
    the parameters and the next parameter number. *)
Definition auth_part (obj : Payload) (isSuperUser : option bool)
  (table sql0 : string) : result (string * list string * list (option json) * nat) :=
  match isSuperUser with
  | Some false =>
      '(txt, toks1) ← buildAuthSql "canRead" table [table];
      Ok (sql0 +:+ txt, toks1, [Some (currentUser obj)], 2%nat)
  | _ => Ok (sql0, [table], [], 1%nat)
  end.

(** [filter.offset] and [filter.limit], when truthy. *)
Definition offset_of (f : option Filter) : option json :=
  match f with
  | Some f => if Js.truthy_opt (offset f) then offset f else None
  | None => None
  end.

Definition limit_of (f : option Filter) : option json :=
  match f with
  | Some f => if Js.truthy_opt (limit f) then limit f else None
  | None => None
  end.

(** The [OFFSET] and [LIMIT] suffix and its parameters. *)
Definition paging (f : option Filter) (sql3 : string) (st1 : compiler)
  : string * list (option json) :=
  let '(sql4, p2, params2) :=
    match offset_of f with
    | Some o => (sql3 +:+ " OFFSET " +:+ dollar (p st1), S (p st1),
                 params st1 ++ [Some o])
    | None => (sql3, p st1, params st1)
    end in
  match limit_of f with
  | Some l => (sql4 +:+ " LIMIT " +:+ dollar p2, params2 ++ [Some l])
  | None => (sql4, params2)
  end.

(** The filter object after a call: its criteria and its sort array are
    the ones the loops wrote to. *)
Definition written_filter (criteria1 : list Criterion)
  (sort1 : option (list SortEntry)) (f : Filter) : Filter :=
  {| criteria := match criteria f with
                 | Some _ => Some criteria1
                 | None => None
                 end;
     sort := match sort f with
             | Some l => Some (default l sort1)
             | None => None
             end;
     offset := offset f;
     limit := limit f |}.

Definition written_payload (obj : Payload) (criteria1 : list Criterion)
  (sort1 : option (list SortEntry)) : Payload :=
  {| name := name obj;
     filter := written_filter criteria1 sort1 <$> filter obj;
     showDeleted := showDeleted obj;
     currentUser := currentUser obj |}.

(** [criteria = filter.criteria || []] and [sort = filter.sort || []],
    when there is a filter. *)
Definition criteria_of (obj : Payload) : list Criterion :=
  match filter obj with
  | Some f => default [] (criteria f)
  | None => []
  end.

Definition sort_of (obj : Payload) : list SortEntry :=
  match filter obj with
  | Some f => default [] (sort f)
  | None => []
  end.

(** [getKeys(obj, isSuperUser)] up to the query it sends.  [isSuperUser]
    may be left out ([None]); the first component is the payload after the
    call, whose filter has been written to in place. *)
Definition getKeys (obj : Payload) (isSuperUser : option bool)
  : Payload * result select_keys :=
  let table := toSnakeCase (name obj) in
  let clause := if showDeleted obj then "true" else "NOT is_deleted" in
  let sql0 := "SELECT _pk FROM %I WHERE " +:+ clause in
  let criteria0 := criteria_of obj in
  let sort0 := sort_of obj in
  match auth_part obj isSuperUser table sql0 with
  | Fail e => (obj, Fail e)
  | Ok (sql1, toks1, params1, p1) =>
      let st0 := {| tokens := toks1; params := params1; p := p1;
                    parts := []; conds := [] |} in
      match (match filter obj with
             | Some _ => where_loop st0 criteria0
             | None => ([], Ok st0)
             end) with
      | (criteria1, Fail e) => (written_payload obj criteria1 None, Fail e)
      | (criteria1, Ok st1) =>
          let sql2 := match parts st1 with
                      | [] => sql1
                      | _ => sql1 +:+ " AND " +:+ Str.join " AND " (parts st1)
                      end in
          match processSort sort0 (tokens st1) with
          | (sort1, Fail e) =>
              (written_payload obj criteria1 (Some sort1), Fail e)
          | (sort1, Ok (txt, toks2, keys)) =>
              let '(sql5, params3) := paging (filter obj) (sql2 +:+ txt) st1 in
              (written_payload obj criteria1 (Some sort1),
               Ok {| q_sql := sql5;
                     q_tokens := toks2;
                     q_params := params3;
                     q_from := table;
                     q_not_deleted := negb (showDeleted obj);
                     q_auth := match isSuperUser with
                               | Some false => Some (currentUser obj)
                               | _ => None
                               end;
                     q_where := conds st1;
                     q_order := keys;
                     q_offset := offset_of (filter obj);
                     q_limit := limit_of (filter obj) |})
          end
      end
  end.

(** The argument of [getKey]. *)
Record KeyRequest : Type := {
  key_name : option string;
  key_id : option json;
  key_showDeleted : bool;
  key_user : json
}.

(** The payload [getKey] hands to [getKeys]; it resolves to [keys[0]]. *)
Definition getKey_payload (obj : KeyRequest) : Payload :=
  {| name := match key_name obj with
             | Some n => if String.eqb n "" then "Object" else n
             | None => "Object"
             end;
     filter := Some {| criteria := Some [{| c_property := PName "id";
                                            c_operator := None;
                                            c_value := key_id obj |}];
                       sort := None; offset := None; limit := None |};
     showDeleted := key_showDeleted obj;
     currentUser := key_user obj |}.

Definition getKey (obj : KeyRequest) (isSuperUser : option bool)
  : result select_keys :=
  (getKeys (getKey_payload obj) isSuperUser).2.

(** *** Facts about sorting *)

Definition pk_entry : SortEntry := {| sort_property := PName PKCOL; order := None |}.

Lemma resolve_segments_tokens (segs toks : list string) :
  resolve_segments segs toks
  = ((resolve_segments segs []).1, toks ++ (resolve_segments segs []).2).
Proof.
  induction segs as [|s segs IH]; [reflexivity|].
  destruct segs as [|s' segs']; [reflexivity|].
  change (resolve_segments (s :: s' :: segs') toks)
    with (let '(ret, toks1) := resolve_segments (s' :: segs') toks in
          ("(" +:+ ret +:+ ").%I", toks1 ++ [toSnakeCase s])).
  change (resolve_segments (s :: s' :: segs') [])
    with (let '(ret, toks1) := resolve_segments (s' :: segs') [] in
          ("(" +:+ ret +:+ ").%I", toks1 ++ [toSnakeCase s])).
  rewrite IH. destruct (resolve_segments (s' :: segs') []) as [ret toks1].
  simpl. by rewrite app_assoc.
Qed.

(** The tokens a sort adds, its clause parts and its keys do not depend on
    the tokens collected before. *)
Lemma sort_loop_tokens (l : list SortEntry) :
  forall toks sp ks toks1 sp1 ks1,
    sort_loop l toks sp ks = Ok (toks1, sp1, ks1) ->
    exists added,
      toks1 = toks ++ added /\
      forall toks', sort_loop l toks' sp ks = Ok (toks' ++ added, sp1, ks1).
Proof.
  induction l as [|e l IH]; intros toks sp ks toks1 sp1 ks1 H.
  - simpl in H. injection H as <- <- <-. exists []. split; [by rewrite app_nil_r|].
    intros toks'. simpl. by rewrite app_nil_r.
  - cbn [sort_loop] in H |- *.
    destruct (negb _ && negb _); [discriminate|].
    destruct (sort_property e) as [s| |]; simpl in H; try discriminate.
    rewrite resolve_segments_tokens in H. simpl in H.
    apply IH in H as (added & -> & H).
    eexists. split; [by rewrite <- app_assoc|].
    intros toks'. simpl. rewrite (resolve_segments_tokens _ toks'). simpl.
    rewrite H. by rewrite <- app_assoc.
Qed.

(** One more tiebreaker entry adds one more [%I ASC] on the primary key. *)
Lemma sort_loop_snoc_pk (l : list SortEntry) :
  forall toks sp ks toks1 sp1 ks1,
    sort_loop l toks sp ks = Ok (toks1, sp1, ks1) ->
    sort_loop (l ++ [pk_entry]) toks sp ks
    = Ok (toks1 ++ [toSnakeCase PKCOL], sp1 ++ ["%I ASC"],
          ks1 ++ [(path_of PKCOL, "ASC")]).
Proof.
  induction l as [|e l IH]; intros toks sp ks toks1 sp1 ks1 H.
  - simpl in H. injection H as <- <- <-. reflexivity.
  - cbn [app sort_loop] in H |- *.
    destruct (negb _ && negb _); [discriminate|].
    destruct (resolvePath (sort_property e) toks) as [[part toks2]|err];
      simpl in H |- *; [|discriminate].
    by apply IH.
Qed.

Lemma join_snoc (sep x : string) (l : list string) :
  l <> [] -> Str.join sep (l ++ [x]) = Str.join sep l +:+ sep +:+ x.
Proof.
  induction l as [|y l IH]; [done|]. intros _.
  destruct l as [|z l]; [reflexivity|].
  change (Str.join sep ((y :: z :: l) ++ [x]))
    with (y +:+ sep +:+ Str.join sep ((z :: l) ++ [x])).
  rewrite IH by done.
  change (Str.join sep (y :: z :: l)) with (y +:+ sep +:+ Str.join sep (z :: l)).
  by rewrite !Str.append_assoc.
Qed.

Lemma sort_loop_app (l1 l2 : list SortEntry) :
  forall toks sp ks,
    sort_loop (l1 ++ l2) toks sp ks
    = '(toks1, sp1, ks1) ← sort_loop l1 toks sp ks; sort_loop l2 toks1 sp1 ks1.
Proof.
  induction l1 as [|e l1 IH]; intros toks sp ks; [reflexivity|].
  cbn [app sort_loop].
  destruct (negb _ && negb _); [reflexivity|].
  destruct (resolvePath (sort_property e) toks) as [[part toks2]|err];
    simpl; [apply IH|reflexivity].
Qed.

(** *** What a successful [getKeys] has done *)

Lemma getKeys_inv (obj obj1 : Payload) (su : option bool) (q : select_keys) :
  getKeys obj su = (obj1, Ok q) ->
  exists criteria1 st1 toks2 sp,
    obj1 = written_payload obj criteria1 (Some (sort_of obj ++ [pk_entry])) /\
    sort_loop (sort_of obj ++ [pk_entry]) (tokens st1) [] []
      = Ok (toks2, sp, q_order q) /\
    q_not_deleted q = negb (showDeleted obj) /\
    q_from q = toSnakeCase (name obj) /\
    q_where q = conds st1.
Proof.
  unfold getKeys. intros H.
  destruct (auth_part _ _ _ _) as [[[[sql1 toks1] params1] p1]|e]; [|discriminate H].
  destruct (match filter obj with Some _ => _ | None => _ end)
    as [criteria1 [st1|e]]; [|discriminate H].
  unfold processSort in H. fold pk_entry in H.
  destruct (sort_loop (sort_of obj ++ [pk_entry]) (tokens st1) [] [])
    as [[[toks2 sp] keys]|e] eqn:Hs; simpl in H; [|discriminate H].
  destruct (paging _ _ _) as [sql5 params3].
  injection H as <- <-.
  exists criteria1, st1, toks2, sp. by rewrite Hs.
Qed.

Lemma written_sort (obj : Payload) (criteria1 : list Criterion)
  (sort1 : list SortEntry) (f : Filter) (l : list SortEntry) :
  filter obj = Some f -> sort f = Some l ->
  exists f1, filter (written_payload obj criteria1 (Some sort1)) = Some f1 /\
             sort f1 = Some sort1 /\
             sort_of (written_payload obj criteria1 (Some sort1)) = sort1.
Proof.
  intros Hf Hl. unfold written_payload, sort_of. simpl. rewrite Hf. simpl.
  eexists. split; [reflexivity|]. unfold written_filter. simpl. by rewrite Hl.
Qed.

Lemma sort_of_filter (obj : Payload) (f : Filter) (l : list SortEntry) :
  filter obj = Some f -> sort f = Some l -> sort_of obj = l.
Proof. intros Hf Hl. unfold sort_of. by rewrite Hf, Hl. Qed.

Lemma sort_loop_pk_last (l : list SortEntry) (toks toks1 sp sp1 : list string)
  (ks ks1 : list (path * string)) :
  sort_loop (l ++ [pk_entry]) toks sp ks = Ok (toks1, sp1, ks1) ->
  exists toks0 sp0 ks0,
    sort_loop l toks sp ks = Ok (toks0, sp0, ks0) /\
    toks1 = toks0 ++ [toSnakeCase PKCOL] /\
    sp1 = sp0 ++ ["%I ASC"] /\
    ks1 = ks0 ++ [(path_of PKCOL, "ASC")].
Proof.
  rewrite sort_loop_app.
  destruct (sort_loop l toks sp ks) as [[[toks0 sp0] ks0]|e]; [|discriminate].
  intros H. simpl in H. injection H as <- <- <-.
  by exists toks0, sp0, ks0.
Qed.

(** The clause of a second [processSort] on the same array. *)
Lemma processSort_again (l : list SortEntry) (toks toks1 : list string)
  (clause : string) (keys : list (path * string)) :
  (processSort l toks).2 = Ok (clause, toks1, keys) ->
  forall toks',
    exists toks2,
      (processSort (processSort l toks).1 toks').2
      = Ok (clause +:+ ",%I ASC", toks2, keys ++ [(path_of PKCOL, "ASC")]).
Proof.
  unfold processSort. cbn [fst snd]. fold pk_entry. intros H toks'.
  destruct (sort_loop (l ++ [pk_entry]) toks [] []) as [[[t1 sp1] ks1]|e] eqn:Hs;
    simpl in H; [|discriminate H].
  injection H as <- <- <-.
  destruct (sort_loop_tokens _ _ _ _ _ _ _ Hs) as (added & -> & Hany).
  rewrite (sort_loop_snoc_pk _ _ _ _ _ _ _ (Hany toks')).
  destruct (sort_loop_pk_last _ _ _ _ _ _ _ Hs) as (t0 & sp0 & ks0 & _ & _ & -> & _).
  eexists. simpl. f_equal. f_equal. f_equal.
  destruct sp0 as [|x sp0].
  - reflexivity.
  - change (((x :: sp0) ++ ["%I ASC"]) ++ ["%I ASC"])
      with (x :: ((sp0 ++ ["%I ASC"]) ++ ["%I ASC"])).
    change ((x :: sp0) ++ ["%I ASC"]) with (x :: (sp0 ++ ["%I ASC"])).
    destruct (sp0 ++ ["%I ASC"]) as [|y rest] eqn:E;
      [by destruct sp0|].
    change (x :: (y :: rest) ++ ["%I ASC"]) with ((x :: y :: rest) ++ ["%I ASC"]).
    rewrite join_snoc by done.
    by rewrite !Str.append_assoc.
Qed.

(** C10.  [processSort] pushes the primary key entry onto the array it is
    given, so after a successful [getKeys] the caller's [filter.sort] is one
    entry longer, the query sorts by the caller's keys and then the primary
    key, and a second [getKeys] on the same payload sorts by the primary key
    twice and leaves the array two entries longer. *)
Theorem getKeys_sort_accumulates (obj obj1 : Payload) (su : option bool)
  (f : Filter) (l : list SortEntry) (q1 : select_keys) :
  filter obj = Some f ->
  sort f = Some l ->
  getKeys obj su = (obj1, Ok q1) ->
  (forall toks, (processSort l toks).1 = l ++ [pk_entry]) /\
  sort_of obj1 = l ++ [pk_entry] /\
  exists keys,
    q_order q1 = keys ++ [(path_of PKCOL, "ASC")] /\
    forall su2 obj2 q2,
      getKeys obj1 su2 = (obj2, Ok q2) ->
      q_order q2 = keys ++ [(path_of PKCOL, "ASC"); (path_of PKCOL, "ASC")] /\
      sort_of obj2 = l ++ [pk_entry; pk_entry].
Proof.
  intros Hf Hl H1. split; [reflexivity|].
  apply getKeys_inv in H1 as (c1 & st1 & t1 & sp1 & -> & Hs1 & _).
  rewrite (sort_of_filter obj f l Hf Hl) in *.
  destruct (written_sort obj c1 (l ++ [pk_entry]) f l Hf Hl) as (f1 & Hf1 & Hl1 & Hso1).
  split; [exact Hso1|].
  destruct (sort_loop_pk_last _ _ _ _ _ _ _ Hs1) as (t0 & sp0 & ks0 & _ & _ & _ & Hk).
  exists ks0. split; [exact Hk|].
  intros su2 obj2 q2 H2.
  apply getKeys_inv in H2 as (c2 & st2 & t2 & sp2 & -> & Hs2 & _).
  rewrite Hso1 in *.
  destruct (written_sort _ c2 ((l ++ [pk_entry]) ++ [pk_entry]) f1 _ Hf1 Hl1)
    as (f2 & _ & _ & Hso2).
  split.
  - destruct (sort_loop_tokens _ _ _ _ _ _ _ Hs1) as (added & _ & Hany).
    rewrite (sort_loop_snoc_pk _ _ _ _ _ _ _ (Hany (tokens st2))) in Hs2.
    injection Hs2 as _ _ <-. rewrite Hk. by rewrite <- app_assoc.
  - rewrite Hso2. by rewrite <- app_assoc.
Qed.

(** *** A null filter value *)

Lemma where_step_null (st : compiler) (crit : Criterion) (s : string) :
  c_property crit = PName s ->
  c_value crit = Some JNull ->
  is_ok (where_step st crit) = false.
Proof.
  intros Hp Hv. unfold where_step.
  destruct (negb (existsb _ ops)); [reflexivity|].
  rewrite Hv, Hp. by destruct (String.eqb (operator_of crit) "IN").
Qed.

Lemma where_loop_fails (crit : Criterion) (wheres : list Criterion) :
  crit ∈ wheres ->
  (forall st, is_ok (where_step st crit) = false) ->
  forall st, is_ok (where_loop st wheres).2 = false.
Proof.
  intros Hin Hfail. induction Hin as [crit rest|crit other rest Hin IH]; intros st.
  - cbn [where_loop]. specialize (Hfail st).
    by destruct (where_step st crit) as [[st1 crit1]|e].
  - cbn [where_loop].
    destruct (where_step st other) as [[st1 crit1]|e]; [|reflexivity].
    specialize (IH Hfail st1). by destruct (where_loop st1 rest).
Qed.

(** C7, as the code has it.  A criterion on a single property whose value
    is null makes [getKeys] fail: the test [typeof where.value === "object"
    && !where.value.id] reads [id] off null before any [IS NULL] is
    compiled. *)
Theorem getKeys_null_value_fails (obj : Payload) (su : option bool)
  (f : Filter) (wheres : list Criterion) (crit : Criterion) (s : string) :
  filter obj = Some f ->
  criteria f = Some wheres ->
  crit ∈ wheres ->
  c_property crit = PName s ->
  c_value crit = Some JNull ->
  is_ok (getKeys obj su).2 = false.
Proof.
  intros Hf Hc Hin Hp Hv. unfold getKeys.
  destruct (auth_part _ _ _ _) as [[[[sql1 toks1] params1] p1]|e]; [|reflexivity].
  unfold criteria_of. rewrite Hf, Hc.
  change (default [] (Some wheres)) with wheres.
  pose proof (where_loop_fails crit wheres Hin
                (fun st => where_step_null st crit s Hp Hv)
                {| tokens := toks1; params := params1; p := p1;
                   parts := []; conds := [] |}) as Hloop.
  destruct (where_loop _ wheres) as [criteria1 [st1|e]]; [discriminate Hloop|].
  reflexivity.
Qed.

(** *** Paths *)

(** The placeholder of a path of [n] names: one level of parentheses for
    every dot. *)
Fixpoint nest (n : nat) : string :=
  match n with
  | O => "%I"
  | S m => match m with
           | O => "%I"
           | S _ => "(" +:+ nest m +:+ ").%I"
           end
  end.

Lemma split_dots_cons (s : string) :
  exists seg segs, Str.split_dots s = seg :: segs.
Proof.
  induction s as [|c s (seg & segs & IH)]; [by eexists _, _|].
  cbn [Str.split_dots]. destruct (Ascii.eqb c "."); [by eexists _, _|].
  rewrite IH. by eexists _, _.
Qed.

Lemma resolve_segments_rev (segs : list string) :
  segs <> [] ->
  forall toks,
    resolve_segments (rev segs) toks
    = (nest (length segs), toks ++ map toSnakeCase segs).
Proof.
  induction segs as [|x l IH] using rev_ind; [done|]. intros _ toks.
  rewrite rev_app_distr, length_app, map_app. cbn [rev app length map].
  destruct l as [|y l]; [reflexivity|].
  specialize (IH ltac:(done) toks).
  destruct (rev (y :: l)) as [|z rest] eqn:E.
  { apply (f_equal length) in E. rewrite length_rev in E. discriminate E. }
  change (resolve_segments (x :: z :: rest) toks)
    with (let '(ret, toks1) := resolve_segments (z :: rest) toks in
          ("(" +:+ ret +:+ ").%I", toks1 ++ [toSnakeCase x])).
  rewrite IH. rewrite Nat.add_1_r, <- app_assoc. reflexivity.
Qed.

(** X9.  [resolvePath] on a dotted column name pushes the snake case of
    every segment onto the tokens, left to right, after the tokens that
    were there, and returns one [%I] per segment, nested to the left:
    [a.b.c] gives [((%I).%I).%I] and the tokens [a], [b], [c]. *)
Theorem resolvePath_nested (col : string) (toks : list string) :
  resolvePath (PName col) toks
  = Ok (nest (length (Str.split_dots col)), toks ++ path_of col).
Proof.
  unfold resolvePath, path_of. rewrite resolve_segments_rev; [done|].
  by destruct (split_dots_cons col) as (seg & segs & ->).
Qed.

(** *** Operators and orders *)

(** [(sort[i].order || "ASC").toUpperCase()] *)
Definition sort_order (entry : SortEntry) : string :=
  Str.toUpperCase (match order entry with
                   | Some o => if String.eqb o "" then "ASC" else o
                   | None => "ASC"
                   end).

Lemma where_loop_ops (wheres : list Criterion) :
  forall st wheres1 st1,
    where_loop st wheres = (wheres1, Ok st1) ->
    Forall (fun crit => operator_of crit ∈ ops) wheres.
Proof.
  induction wheres as [|crit rest IH]; intros st wheres1 st1 H; [constructor|].
  cbn [where_loop] in H.
  destruct (where_step st crit) as [[st2 crit2]|e] eqn:Hstep; [|discriminate H].
  destruct (where_loop st2 rest) as [rest1 r] eqn:Hrest.
  injection H as _ ->. constructor; [|by eapply IH].
  unfold where_step in Hstep.
  destruct (existsb (String.eqb (operator_of crit)) ops) eqn:Hop;
    [|discriminate Hstep].
  apply existsb_exists in Hop as (o & Hin & Heq).
  apply String.eqb_eq in Heq as ->. by apply list_elem_of_In.
Qed.

Lemma sort_loop_orders (entries : list SortEntry) :
  forall toks sp ks r,
    sort_loop entries toks sp ks = Ok r ->
    Forall (fun e => sort_order e = "ASC" \/ sort_order e = "DESC") entries.
Proof.
  induction entries as [|e rest IH]; intros toks sp ks r H; [constructor|].
  cbn [sort_loop] in H. fold (sort_order e) in H.
  destruct (String.eqb (sort_order e) "ASC") eqn:Ea.
  - apply String.eqb_eq in Ea. cbn [negb andb] in H.
    destruct (resolvePath _ _) as [[part toks1]|err]; [|discriminate H].
    constructor; [by left|by eapply IH].
  - destruct (String.eqb (sort_order e) "DESC") eqn:Ed; [|discriminate H].
    apply String.eqb_eq in Ed. cbn [negb andb] in H.
    destruct (resolvePath _ _) as [[part toks1]|err]; [|discriminate H].
    constructor; [by right|by eapply IH].
Qed.

(** X10.  Nothing but listed operators and sort directions reach the SQL
    text: when [getKeys] gets as far as a query, the operator of every
    criterion (or [=]) is one of the known operators and the order of
    every sort entry, upper-cased, is [ASC] or [DESC]; the query orders by
    those directions. *)
Theorem getKeys_whitelist (obj obj1 : Payload) (su : option bool)
  (q : select_keys) :
  getKeys obj su = (obj1, Ok q) ->
  Forall (fun crit => operator_of crit ∈ ops) (criteria_of obj) /\
  Forall (fun e => sort_order e = "ASC" \/ sort_order e = "DESC") (sort_of obj) /\
  Forall (fun k => k.2 = "ASC" \/ k.2 = "DESC") (q_order q).
Proof.
  unfold getKeys. intros H.
  destruct (auth_part _ _ _ _) as [[[[sql1 toks1] params1] p1]|e]; [|discriminate H].
  destruct (match filter obj with Some _ => _ | None => _ end)
    as [criteria1 [st1|e]] eqn:Hw; [|discriminate H].
  unfold processSort in H. fold pk_entry in H.
  destruct (sort_loop (sort_of obj ++ [pk_entry]) (tokens st1) [] [])
    as [[[toks2 sp] keys]|e] eqn:Hs; simpl in H; [|discriminate H].
  destruct (paging _ _ _) as [sql5 params3].
  injection H as _ <-. cbn [q_order].
  split; [|split].
  - unfold criteria_of in *. destruct (filter obj); [by eapply where_loop_ops|constructor].
  - apply sort_loop_orders in Hs. by apply Forall_app in Hs as [Hs _].
  - clear Hw. revert Hs. generalize (sort_of obj ++ [pk_entry]).
    assert (Hgen : forall l toks sp0 ks0 toks3 sp3 ks3,
              Forall (fun k : path * string => k.2 = "ASC" \/ k.2 = "DESC") ks0 ->
              sort_loop l toks sp0 ks0 = Ok (toks3, sp3, ks3) ->
              Forall (fun k : path * string => k.2 = "ASC" \/ k.2 = "DESC") ks3).
    { induction l as [|e l IH]; intros toks sp0 ks0 toks3 sp3 ks3 Hk Hl.
      - injection Hl as _ _ <-. exact Hk.
      - pose proof (sort_loop_orders _ _ _ _ _ Hl) as Ho.
        apply Forall_cons in Ho as [Ho _].
        cbn [sort_loop] in Hl. fold (sort_order e) in Hl.
        destruct (negb _ && negb _); [discriminate Hl|].
        destruct (resolvePath _ _) as [[part toks4]|err]; [|discriminate Hl].
        simpl in Hl. eapply IH; [|exact Hl].
        apply Forall_app. split; [exact Hk|]. by constructor. }
    intros l Hl. by eapply Hgen; [constructor|exact Hl].
Qed.

(** *** The query of [getKey] *)

(** X11.  [getKey] for an id that is a string, a number or a boolean, when
    no authorization is asked for: the query it compiles selects [_pk]
    from the table of the named feather ([object] without a name) where
    the [id] column equals the one parameter, leaves deleted rows out
    unless [showDeleted] is set, and orders by [_pk]. *)
Theorem getKey_query (obj : KeyRequest) (su : option bool) (v : json) :
  key_id obj = Some v ->
  Js.typeof_object v = false ->
  "=" ∈ ops ->
  su <> Some false ->
  getKey obj su
  = Ok {| q_sql := if key_showDeleted obj
                   then "SELECT _pk FROM %I WHERE true AND %I = $1 ORDER BY %I ASC"
                   else "SELECT _pk FROM %I WHERE NOT is_deleted AND %I = $1 ORDER BY %I ASC";
          q_tokens := [toSnakeCase (name (getKey_payload obj));
                       toSnakeCase "id"; toSnakeCase "_pk"];
          q_params := [Some v];
          q_from := toSnakeCase (name (getKey_payload obj));
          q_not_deleted := negb (key_showDeleted obj);
          q_auth := None;
          q_where := [WCmp [toSnakeCase "id"] "=" (Some v)];
          q_order := [([toSnakeCase "_pk"], "ASC")];
          q_offset := None;
          q_limit := None |}.
Proof.
  intros Hv Ht Hop Hsu.
  assert (Hops : existsb (String.eqb "=") ops = true).
  { apply existsb_exists. exists "=". split; [by apply list_elem_of_In|done]. }
  assert (Hauth : forall table sql0,
            auth_part (getKey_payload obj) su table sql0 = Ok (sql0, [table], [], 1%nat)).
  { intros table sql0. by destruct su as [[|]|]. }
  assert (Hq : match su with Some false => Some (key_user obj) | _ => None end
               = (None : option json)).
  { by destruct su as [[|]|]. }
  unfold getKey, getKeys. rewrite Hauth.
  cbn [getKey_payload filter criteria_of criteria default from_option id
       where_loop tokens params p parts conds].
  unfold where_step, operator_of. cbn [c_operator]. rewrite Hops.
  cbn [negb String.eqb Ascii.eqb Bool.eqb c_property c_value].
  rewrite Hv, Ht. unfold comparison.
  cbn [c_property c_value resolvePath tokens params p parts conds].
  cbn. rewrite Hq. by destruct (key_showDeleted obj).
Qed.

(** *** Authorization *)








End Tools.

(** Modelled from the spec: [f.operators] is defined in the common core,
    outside the modelled files; the specification lists the supported
    operators. *)
Definition operators : list string :=
  ["="; "!="; "<"; ">"; "<="; ">="; "<>"; "~"; "~*"; "!~"; "!~*"; "IN"].

Definition null_criterion : Criterion :=
  {| c_property := PName "lastName"; c_operator := None; c_value := Some JNull |}.

Definition null_filter : Filter :=
  {| criteria := Some [null_criterion];
     sort := None; offset := None; limit := None |}.

Definition null_query : Payload :=
  {| name := "Contact"; filter := Some null_filter;
     showDeleted := false; currentUser := JStr "ada" |}.

Lemma getKeys_null_value_fails_witness :
  (getKeys Str.toSnakeCase operators null_query None).2
    = Fail (TypeError "Cannot read property 'id' of null") /\
  is_ok (getKeys Str.toSnakeCase operators null_query None).2 = false.
Proof.
  split; [reflexivity|].
  apply (getKeys_null_value_fails Str.toSnakeCase operators null_query None
           null_filter [null_criterion] null_criterion "lastName" eq_refl eq_refl);
    [by left|reflexivity|reflexivity].
Defined.

Definition sorted_filter : Filter :=
  {| criteria := None;
     sort := Some [{| sort_property := PName "firstName"; order := Some "desc" |}];
     offset := None; limit := None |}.

Definition sorted_query : Payload :=
  {| name := "Contact"; filter := Some sorted_filter;
     showDeleted := false; currentUser := JStr "ada" |}.

Lemma getKeys_sort_accumulates_witness :
  let first := getKeys Str.toSnakeCase operators sorted_query None in
  let second := getKeys Str.toSnakeCase operators first.1 None in
  q_sql <$> first.2
    = Ok "SELECT _pk FROM %I WHERE NOT is_deleted ORDER BY %I DESC,%I ASC" /\
  q_sql <$> second.2
    = Ok "SELECT _pk FROM %I WHERE NOT is_deleted ORDER BY %I DESC,%I ASC,%I ASC" /\
  q_tokens <$> second.2 = Ok ["contact"; "first_name"; "_pk"; "_pk"] /\
  sort_of second.1
    = [{| sort_property := PName "firstName"; order := Some "desc" |};
       pk_entry; pk_entry].
Proof.
  intros first second. subst first second.
  split; [reflexivity|]. split; [reflexivity|]. split; [reflexivity|].
  destruct (getKeys Str.toSnakeCase operators sorted_query None)
    as [obj1 r1] eqn:H1.
  pose proof H1 as E1. vm_compute in E1. injection E1 as <- <-.
  destruct (getKeys_sort_accumulates Str.toSnakeCase operators sorted_query _
              None sorted_filter _ _ eq_refl eq_refl H1)
    as (_ & _ & keys & _ & Hsecond).
  cbn [fst].
  match goal with
  | |- sort_of (getKeys ?a ?b ?c ?d).1 = _ =>
      destruct (getKeys a b c d) as [obj2 r2] eqn:H2
  end.
  pose proof H2 as E2. vm_compute in E2. injection E2 as <- <-.
  exact (proj2 (Hsecond None _ _ H2)).
Defined.

(** Contacts named Lovelace or Byron, by first name from the end. *)
Definition named_query : Payload :=
  {| name := "Contact";
     filter := Some {| criteria :=
                         Some [{| c_property := PName "lastName";
                                  c_operator := Some "IN";
                                  c_value := Some (JArr [JStr "Lovelace";
                                                         JStr "Byron"]) |};
                               {| c_property := PNames ["firstName"; "address.city"];
                                  c_operator := Some "~*";
                                  c_value := Some (JStr "^a") |}];
                       sort := Some [{| sort_property := PName "firstName";
                                        order := Some "desc" |}];
                       offset := Some (JNum 20);
                       limit := Some (JNum 10) |};
     showDeleted := false;
     currentUser := JStr "ada" |}.

Example resolvePath_address :
  resolvePath Str.toSnakeCase (PName "billTo.address.postalCode") ["contact"]
  = Ok ("((%I).%I).%I", ["contact"; "bill_to"; "address"; "postal_code"]).
Proof. reflexivity. Qed.

Lemma getKeys_whitelist_witness :
  Forall (fun crit => operator_of crit ∈ operators) (criteria_of named_query) /\
  Forall (fun e => sort_order e = "ASC" \/ sort_order e = "DESC")
    (sort_of named_query) /\
  Forall (fun k : path * string => k.2 = "ASC" \/ k.2 = "DESC")
    [(["first_name"], "DESC"); (["_pk"], "ASC")].
Proof.
  destruct (getKeys Str.toSnakeCase operators named_query None) as [obj1 r] eqn:H.
  pose proof H as E. vm_compute in E. injection E as _ Hr. rewrite <- Hr in H.
  exact (getKeys_whitelist Str.toSnakeCase operators named_query _ None _ H).
Defined.

Definition contact_key : KeyRequest :=
  {| key_name := Some "Contact"; key_id := Some (JStr "c1");
     key_showDeleted := false; key_user := JStr "ada" |}.

Lemma getKey_query_witness :
  getKey Str.toSnakeCase operators contact_key (Some true)
  = Ok {| q_sql := "SELECT _pk FROM %I WHERE NOT is_deleted AND %I = $1 ORDER BY %I ASC";
          q_tokens := ["contact"; "id"; "_pk"];
          q_params := [Some (JStr "c1")];
          q_from := "contact";
          q_not_deleted := true;
          q_auth := None;
          q_where := [WCmp ["id"] "=" (Some (JStr "c1"))];
          q_order := [(["_pk"], "ASC")];
          q_offset := None;
          q_limit := None |}.
Proof.
  apply (getKey_query Str.toSnakeCase operators contact_key (Some true) (JStr "c1"));
    [reflexivity|reflexivity|apply list_elem_of_here|discriminate].
Defined.


End Tools.

(** ** events.js: subscriptions *)

Module Events.

(** Modelled from the spec: the table [$subscription] is created by the
    install scripts, outside the modelled files; its rows are
    [(nodeId, sessionId, subscriptionId, target)] and a row occurs at most
    once, so that [ON CONFLICT DO NOTHING] has a conflict to skip.  A plain
    [INSERT] of a row that is already there is a unique violation. *)
Definition insert (onConflictDoNothing : bool) (r : Pg.subscription)
  (d : Pg.db) : Pg.db * result unit :=
  if bool_decide (r ∈ Pg.subscriptions d) then
    if onConflictDoNothing then (d, Ok ())
    else (d, Fail (DbError "duplicate key value violates unique constraint"))
  else
    ({| Pg.objects := Pg.objects d;
        Pg.subscriptions := {[ r ]} ∪ Pg.subscriptions d |}, Ok ()).

(** The column [type + "id"] of a subscription row. *)
Definition column (type : string) (r : Pg.subscription) : option string :=
  let '(nodeid, sessionid, subscriptionid, _) := r in
  if String.eqb type "subscription" then Some subscriptionid
  else if String.eqb type "session" then Some sessionid
  else if String.eqb type "node" then Some nodeid
  else None.

(** [DELETE FROM "$subscription" WHERE <type>id = $1] *)
Definition delete (type id : string) (d : Pg.db) : Pg.db :=
  {| Pg.objects := Pg.objects d;
     Pg.subscriptions :=
       filter (fun r => column type r <> Some id) (Pg.subscriptions d) |}.

Record Subscription : Type := {
  nodeId : option string;
  sessionId : option string;
  id : option string;
  merge : bool
}.

(** A string that is there and not empty. *)
Definition present (s : option string) : bool :=
  match s with
  | Some x => negb (String.eqb x "")
  | None => false
  end.

Section Events.

Variable toSnakeCase : string -> string.

(** [events.unsubscribe(client, id, type)] *)
Definition unsubscribe (id : option string) (type : option string)
  (d : Pg.db) : Pg.db * result unit :=
  let type := match type with
              | Some t => if String.eqb t "" then "subscription" else t
              | None => "subscription"
              end in
  match id with
  | Some i =>
      if String.eqb i "" then (d, Ok ())
      else if negb (existsb (String.eqb type) ["subscription"; "session"; "node"])
      then (d, Fail (ErrorObj (type +:+ " is not a valid type for unsubscribe.") None))
      else (delete type i d, Ok ())
  | None => (d, Ok ())
  end.

(** The queries of [doSubscribe], in the order they are sent; a failed
    query rejects the whole. *)
Fixpoint insert_ids (node session sub : string) (ids : list string)
  (d : Pg.db) : Pg.db * result unit :=
  match ids with
  | [] => (d, Ok ())
  | i :: rest =>
      match insert true (node, session, sub, i) d with
      | (d1, Ok _) => insert_ids node session sub rest d1
      | (d1, Fail e) => (d1, Fail e)
      end
  end.

Definition doSubscribe (node session sub : string) (ids : list string)
  (tablename : option string) (d : Pg.db) : Pg.db * result unit :=
  match insert_ids node session sub ids d with
  | (d1, Ok _) =>
      if present tablename
      then insert false (node, session, sub, toSnakeCase (default "" tablename)) d1
      else (d1, Ok ())
  | (d1, Fail e) => (d1, Fail e)
  end.

(** [events.subscribe(client, subscription, ids, tablename)] *)
Definition subscribe (subscription : option Subscription) (ids : list string)
  (tablename : option string) (d : Pg.db) : Pg.db * result unit :=
  match subscription with
  | None => (d, Ok ())
  | Some s =>
      if negb (present (nodeId s))
      then (d, Fail (ErrorObj "Subscription requires a nodeId." None))
      else if negb (present (sessionId s))
      then (d, Fail (ErrorObj "Subscription requires a sessionId." None))
      else if negb (present (id s))
      then (d, Fail (ErrorObj "Subscription requires an id." None))
      else
        let node := default "" (nodeId s) in
        let session := default "" (sessionId s) in
        let sub := default "" (id s) in
        if merge s then doSubscribe node session sub ids tablename d
        else
          match unsubscribe (id s) None d with
          | (d1, Ok _) => doSubscribe node session sub ids tablename d1
          | (d1, Fail e) => (d1, Fail e)
          end
  end.

(** *** Facts about subscribing *)

(** The id rows never fail: a row that is there is skipped. *)
Lemma insert_ids_spec (node session sub : string) (ids : list string) :
  forall d,
    (insert_ids node session sub ids d).2 = Ok () /\
    Pg.objects (insert_ids node session sub ids d).1 = Pg.objects d /\
    Pg.subscriptions (insert_ids node session sub ids d).1
    = list_to_set (map (fun i => (node, session, sub, i)) ids)
        ∪ Pg.subscriptions d.
Proof.
  induction ids as [|i ids IH]; intros d.
  - simpl. split; [done|]. split; [done|]. set_solver.
  - cbn [insert_ids]. unfold insert. case_bool_decide as Hin.
    + destruct (IH d) as (-> & -> & ->). split; [done|]. split; [done|].
      simpl. set_solver.
    + match goal with
      | |- context [insert_ids _ _ _ _ ?d1] => destruct (IH d1) as (-> & -> & ->)
      end.
      split; [done|]. split; [done|]. simpl. set_solver.
Qed.

(** X5, C6 as the code has it.  The row for the feather is inserted without
    [ON CONFLICT DO NOTHING]: when a merging subscription names a feather
    whose row is already there, [subscribe] is rejected with the unique
    violation instead of skipping the row. *)
Theorem subscribe_feather_conflict (s : Subscription) (ids : list string)
  (tablename : string) (d : Pg.db) :
  present (nodeId s) = true ->
  present (sessionId s) = true ->
  present (id s) = true ->
  merge s = true ->
  present (Some tablename) = true ->
  (default "" (nodeId s), default "" (sessionId s), default "" (id s),
   toSnakeCase tablename) ∈ Pg.subscriptions d ->
  (subscribe (Some s) ids (Some tablename) d).2
  = Fail (DbError "duplicate key value violates unique constraint").
Proof.
  intros Hn Hs Hi Hm Ht Hin. unfold subscribe.
  rewrite Hn, Hs, Hi, Hm. cbn [negb]. unfold doSubscribe.
  destruct (insert_ids_spec (default "" (nodeId s)) (default "" (sessionId s))
              (default "" (id s)) ids d) as (Hok & _ & Hsubs).
  destruct (insert_ids _ _ _ ids d) as [d1 r]. simpl in Hok, Hsubs. subst r.
  rewrite Ht. unfold insert. cbn [default from_option id].
  rewrite bool_decide_eq_true_2; [reflexivity|].
  rewrite Hsubs. set_solver.
Qed.

(** Without a feather name every row is inserted or skipped, and the call
    resolves. *)
Lemma subscribe_ids (s : Subscription) (ids : list string) (d : Pg.db) :
  present (nodeId s) = true ->
  present (sessionId s) = true ->
  present (id s) = true ->
  (subscribe (Some s) ids None d).2 = Ok () /\
  forall i, i ∈ ids ->
    (default "" (nodeId s), default "" (sessionId s), default "" (id s), i)
      ∈ Pg.subscriptions (subscribe (Some s) ids None d).1.
Proof.
  intros Hn Hs Hi. unfold subscribe. rewrite Hn, Hs, Hi. cbn [negb].
  unfold doSubscribe, unsubscribe. cbn [present].
  assert (forall d0,
    (let '(d1, r) := insert_ids (default "" (nodeId s)) (default "" (sessionId s))
                       (default "" (id s)) ids d0 in
     match r with Ok _ => (d1, Ok ()) | Fail e => (d1, Fail e) end).2 = Ok () /\
    forall i, i ∈ ids ->
      (default "" (nodeId s), default "" (sessionId s), default "" (id s), i)
        ∈ Pg.subscriptions
            (let '(d1, r) := insert_ids (default "" (nodeId s))
                               (default "" (sessionId s)) (default "" (id s)) ids d0 in
             match r with Ok _ => (d1, Ok ()) | Fail e => (d1, Fail e) end).1)
    as Hgen.
  { intros d0.
    destruct (insert_ids_spec (default "" (nodeId s)) (default "" (sessionId s))
                (default "" (id s)) ids d0) as (Hok & _ & Hsubs).
    destruct (insert_ids _ _ _ ids d0) as [d1 r]. simpl in Hok, Hsubs. subst r.
    split; [done|]. intros i Hin. simpl. rewrite Hsubs.
    apply elem_of_union_l, elem_of_list_to_set, list_elem_of_fmap. eauto. }
  destruct (merge s); [apply Hgen|].
  destruct (id s) as [i0|]; [|discriminate Hi].
  simpl in Hi. destruct (String.eqb i0 ""); [discriminate Hi|].
  cbn [existsb String.eqb negb orb]. simpl. apply Hgen.
Qed.

(** *** Facts about unsubscribing *)

(** X7.  [unsubscribe] with an id and one of the types subscription,
    session and node resolves, leaves the objects alone and deletes from
    [$subscription] exactly the rows whose [<type>id] column is the id;
    without a type the column is [subscriptionid]. *)
Theorem unsubscribe_removes (i kind : string) (d : Pg.db) :
  present (Some i) = true ->
  kind ∈ ["subscription"; "session"; "node"] ->
  (unsubscribe (Some i) (Some kind) d).2 = Ok () /\
  Pg.objects (unsubscribe (Some i) (Some kind) d).1 = Pg.objects d /\
  (forall r, r ∈ Pg.subscriptions (unsubscribe (Some i) (Some kind) d).1
             <-> r ∈ Pg.subscriptions d /\ column kind r <> Some i) /\
  unsubscribe (Some i) None d = unsubscribe (Some i) (Some "subscription") d.
Proof.
  intros Hi Hk. unfold unsubscribe. simpl in Hi.
  destruct (String.eqb i "") eqn:Ei; [discriminate Hi|].
  assert (String.eqb kind "" = false /\
          existsb (String.eqb kind) ["subscription"; "session"; "node"] = true)
    as [-> ->].
  { repeat (apply elem_of_cons in Hk as [->|Hk]); [done..|].
    by apply elem_of_nil in Hk. }
  cbn [negb]. split; [done|]. split; [done|]. split; [|done].
  intros r. unfold delete. cbn [Pg.subscriptions fst]. by rewrite elem_of_filter, (comm and).
Qed.

(** X8.  A subscription that does not merge replaces the earlier one: when
    the feather name, if one is given, is not among the ids, [subscribe]
    resolves, and afterwards [$subscription] holds one row per id and one
    for the feather, the rows of every other subscription id as they
    were, and no other row of this subscription id. *)
Theorem subscribe_replaces (s : Subscription) (ids : list string)
  (tablename : option string) (d : Pg.db) :
  present (nodeId s) = true ->
  present (sessionId s) = true ->
  present (id s) = true ->
  merge s = false ->
  (present tablename = true -> toSnakeCase (default "" tablename) ∉ ids) ->
  let node := default "" (nodeId s) in
  let session := default "" (sessionId s) in
  let sub := default "" (id s) in
  let targets := ids ++ (if present tablename
                         then [toSnakeCase (default "" tablename)] else []) in
  (subscribe (Some s) ids tablename d).2 = Ok () /\
  Pg.objects (subscribe (Some s) ids tablename d).1 = Pg.objects d /\
  forall r, r ∈ Pg.subscriptions (subscribe (Some s) ids tablename d).1
            <-> (exists t, t ∈ targets /\ r = (node, session, sub, t))
                \/ (r ∈ Pg.subscriptions d /\ column "subscription" r <> Some sub).
Proof.
  intros Hn Hs Hi Hm Ht node session sub targets.
  unfold subscribe. rewrite Hn, Hs, Hi, Hm. cbn [negb].
  destruct (id s) as [i0|] eqn:Eid; [|discriminate Hi].
  destruct (unsubscribe_removes i0 "subscription" d Hi) as (_ & _ & _ & Hnone);
    [set_solver|].
  destruct (unsubscribe_removes i0 "subscription" d Hi) as (Hok & Hobj & Hsubs & _);
    [set_solver|].
  rewrite Hnone.
  destruct (unsubscribe (Some i0) (Some "subscription") d) as [d1 r1].
  cbn [fst snd] in Hok, Hobj, Hsubs. subst r1.
  unfold doSubscribe. fold node session. change (default "" (Some i0)) with sub.
  destruct (insert_ids_spec node session sub ids d1) as (Hok2 & Hobj2 & Hsubs2).
  destruct (insert_ids node session sub ids d1) as [d2 r2].
  cbn [fst snd] in Hok2, Hobj2, Hsubs2. subst r2.
  assert (Hrows : forall r, r ∈ Pg.subscriptions d2
            <-> (exists t, t ∈ ids /\ r = (node, session, sub, t))
                \/ (r ∈ Pg.subscriptions d /\ column "subscription" r <> Some sub)).
  { intros r. rewrite Hsubs2, elem_of_union, elem_of_list_to_set, list_elem_of_fmap.
    rewrite Hsubs. subst sub. simpl. split.
    - intros [(t & -> & Hin)|H]; [left; eauto|by right].
    - intros [(t & Hin & ->)|H]; [left; eauto|by right]. }
  subst targets. destruct (present tablename) eqn:Hp.
  - unfold insert. rewrite bool_decide_eq_false_2.
    + cbn [fst snd Pg.objects Pg.subscriptions]. split; [done|].
      split; [by rewrite Hobj2, Hobj|].
      intros r. rewrite elem_of_union, elem_of_singleton, Hrows. split.
      * intros [->|[(t & Hin & ->)|H]].
        -- left. eexists. split; [|done]. set_solver.
        -- left. eexists. split; [|done]. set_solver.
        -- by right.
      * intros [(t & Hin & ->)|H]; [|by right; right].
        apply elem_of_app in Hin as [Hin|Hin].
        -- right. left. eauto.
        -- apply list_elem_of_singleton in Hin as ->. by left.
    + rewrite Hrows. intros [(t & Hin & Heq)|[_ Hcol]].
      * injection Heq as <-. by apply Ht.
      * apply Hcol. subst sub. reflexivity.
  - cbn [fst snd]. split; [done|]. split; [by rewrite Hobj2, Hobj|].
    intros r. rewrite Hrows, app_nil_r. done.
Qed.

End Events.

Definition taken : Pg.db :=
  {| Pg.objects := [];
     Pg.subscriptions := {[ ("N", "S", "sub1", "contact") ]} |}.

Definition merging : Subscription :=
  {| nodeId := Some "N"; sessionId := Some "S"; id := Some "sub1"; merge := true |}.

Lemma subscribe_feather_conflict_witness :
  (subscribe Str.toSnakeCase (Some merging) ["c1"; "c2"] (Some "Contact") taken).2
  = Fail (DbError "duplicate key value violates unique constraint").
Proof.
  apply (subscribe_feather_conflict Str.toSnakeCase merging ["c1"; "c2"] "Contact" taken);
    try reflexivity.
Defined.

Definition replacing : Subscription :=
  {| nodeId := Some "N"; sessionId := Some "S"; id := Some "sub1"; merge := false |}.

Lemma unsubscribe_removes_witness :
  (unsubscribe (Some "sub1") (Some "subscription") taken).2 = Ok () /\
  Pg.objects (unsubscribe (Some "sub1") (Some "subscription") taken).1
  = Pg.objects taken /\
  (forall r, r ∈ Pg.subscriptions
                   (unsubscribe (Some "sub1") (Some "subscription") taken).1
             <-> r ∈ Pg.subscriptions taken /\ column "subscription" r <> Some "sub1") /\
  unsubscribe (Some "sub1") None taken
  = unsubscribe (Some "sub1") (Some "subscription") taken.
Proof.
  apply (unsubscribe_removes "sub1" "subscription" taken); [reflexivity|].
  apply list_elem_of_here.
Defined.

Lemma subscribe_replaces_witness :
  (subscribe Str.toSnakeCase (Some replacing) ["c1"] (Some "Contact") taken).2
  = Ok () /\
  Pg.objects (subscribe Str.toSnakeCase (Some replacing) ["c1"] (Some "Contact")
                taken).1 = Pg.objects taken /\
  forall r,
    r ∈ Pg.subscriptions
          (subscribe Str.toSnakeCase (Some replacing) ["c1"] (Some "Contact") taken).1
    <-> (exists t, t ∈ ["c1"; "contact"] /\ r = ("N", "S", "sub1", t))
        \/ (r ∈ Pg.subscriptions taken /\ column "subscription" r <> Some "sub1").
Proof.
  apply (subscribe_replaces Str.toSnakeCase replacing ["c1"] (Some "Contact") taken);
    try reflexivity.
  intros _. apply (bool_decide_unpack _). vm_compute. exact I.
Defined.

End Events.

(** ** crud.js: the CRUD engine

    The functions of [crud.js] are asynchronous chains of callbacks.  In the
    model a function is run against the responses of the services it calls
    (section variables), and yields the statements and service calls it
    makes, in order, next to the value it resolves to or the error it
    rejects with. *)

Module Crud.

(** *** Feathers *)

Inductive ptype : Type :=
| Scalar (type : string)
| Relation (relation : string) (parentOf childOf : option string) (isChild : bool).

Record Autonumber : Type := {
  a_prefix : option string;
  a_suffix : option string;
  a_length : nat;
  a_sequence : string
}.

Record Property : Type := {
  p_type : ptype;
  p_format : option string;
  p_default : option json;
  p_isRequired : bool;
  p_isNaturalKey : bool;
  p_isReadOnly : bool;
  p_autonumber : option Autonumber;
  p_alias : option string;
  p_inheritedFrom : option string
}.

Record Feather : Type := {
  f_name : string;
  f_isChild : bool;
  f_properties : list (string * Property)
}.

(** [typeof props[key].type === "object"] *)
Definition is_relation (pr : Property) : bool :=
  match p_type pr with Relation _ _ _ _ => true | Scalar _ => false end.

Definition is_parentOf (pr : Property) : bool :=
  match p_type pr with Relation _ (Some _) _ _ => true | _ => false end.

Definition is_childOf (pr : Property) : bool :=
  match p_type pr with Relation _ _ (Some _) _ => true | _ => false end.

Definition relation_of (pr : Property) : string :=
  match p_type pr with Relation r _ _ _ => r | Scalar _ => "" end.

Definition scalar_is (pr : Property) (t : string) : bool :=
  match p_type pr with Scalar s => String.eqb s t | _ => false end.

(** [noChildProps]: the keys that are not [childOf] relations. *)
Definition noChildProps (props : list (string * Property)) : list string :=
  map fst (List.filter (fun kp => negb (is_childOf kp.2)) props).

(** *** Requests, statements, calls *)

Record Request : Type := {
  name : string;
  id : option json;
  data : option json;
  eventkey : option json;
  isHard : bool;          (* [obj.isHard === true] *)
  cache : option json;
  pk : option json
}.

(** What a write statement does, next to its text. *)
Inductive meaning : Type :=
| SoftDelete (id : option json)
| HardDelete (id : option json)
| Update (table : string) (sets : list (Sql.path * option json)) (pk : option json)
| Insert (table : string) (pk : option json) (values : list (Sql.path * option json)).

Record Statement : Type := {
  sql : string;
  tokens : list string;
  params : list (option json);
  does : meaning
}.

(** Calls to other services, with the arguments [isChild] and
    [isSuperUser] as they are passed. *)
Inductive Call : Type :=
| CallDelete (obj : Request) (isChild : bool) (isSuperUser : option bool)
| CallInsert (obj : Request) (isChild : bool) (isSuperUser : option bool)
| CallUpdate (obj : Request) (isChild : bool) (isSuperUser : option bool)
| CallUnlock (id : option json).

Inductive action : Type :=
| Query (s : Statement)
| Invoke (c : Call).

Record SelectRequest : Type := {
  s_name : string;
  s_id : option json;
  s_showDeleted : bool;
  s_properties : option (list string);
  s_sanitize : bool
}.

Record AuthRequest : Type := {
  auth_id : option json;
  auth_feather : option string;
  auth_action : string
}.

(** *** Effects *)

Definition io (A : Type) : Type := (list action * result A)%type.

Definition io_ret {A} (a : A) : io A := ([], Ok a).

Definition io_bind {A B} (m : io A) (f : A -> io B) : io B :=
  match m with
  | (l, Ok a) => let '(l', r) := f a in (l ++ l', r)
  | (l, Fail e) => (l, Fail e)
  end.

Definition emit (a : action) : io unit := ([a], Ok ()).
Definition reject {A} (e : js_error) : io A := ([], Fail e).
Definition lift {A} (r : result A) : io A := ([], r).

#[global] Instance io_mret : MRet io := @io_ret.
#[global] Instance io_mbind : MBind io := fun A B f m => io_bind m f.

(** All calls are started, then the first rejection, if any, rejects. *)
Fixpoint first_failure (rs : list (result (option json))) : result unit :=
  match rs with
  | [] => Ok ()
  | Ok _ :: rest => first_failure rest
  | Fail e :: _ => Fail e
  end.

Definition request (n : string) (i : option json) (d : option json) (hard : bool)
  : Request :=
  {| name := n; id := i; data := d; eventkey := None; isHard := hard;
     cache := None; pk := None |}.

Section Crud.

#[local] Set Default Proof Using "Type".

Variable toSnakeCase : string -> string.

(** Responses of the services the engine calls. *)
Variable getFeather : string -> result (option Feather).
Variable isAuthorized : AuthRequest -> result bool.
Variable doSelect : SelectRequest -> bool -> option bool -> result (option json).
Variable call : Call -> result (option json).
(** [f.now()] *)
Variable now : json.

(** **** doDelete *)

(** The lock test of [afterDoSelect]:
    [oldRec && oldRec.lock && oldRec.lock[eventKey] !== obj.eventkey]. *)
Definition locked_out (oldRec : option json) (obj : Request) : result bool :=
  match oldRec with
  | Some rec =>
      if Js.truthy rec then
        lock ← Js.prop rec "lock";
        if Js.truthy_opt lock then
          key ← Js.prop_opt lock "_eventkey";
          Ok (negb (Js.strict_eq key (eventkey obj)))
        else Ok false
      else Ok false
  | None => Ok false
  end.

Definition lock_message (rec : json) : result string :=
  lock ← Js.prop rec "lock";
  username ← Js.prop_opt lock "username";
  Ok ("Record is locked by " +:+ Js.text username +:+ " and cannot be updated.").

(** The rows of the child arrays, with the relation they belong to:
    the keys are filtered first (reading [oldRec[key].length]). *)
Fixpoint child_rows (props : list (string * Property)) (oldRec : json)
  : result (list (string * json)) :=
  match props with
  | [] => Ok []
  | (key, pr) :: rest =>
      if is_parentOf pr then
        rows ← Js.prop oldRec key;
        match rows with
        | Some (JArr l) =>
            more ← child_rows rest oldRec;
            Ok (map (fun row => (relation_of pr, row)) l ++ more)
        | _ => Fail (TypeError "Cannot read property 'length' of undefined")
        end
      else child_rows rest oldRec
  end.

Definition delete_statement (obj : Request) : Statement :=
  if isHard obj
  then {| sql := "DELETE FROM object WHERE id=$1;"; tokens := [];
          params := [id obj]; does := HardDelete (id obj) |}
  else {| sql := "UPDATE object SET is_deleted = true WHERE id=$1;"; tokens := [];
          params := [id obj]; does := SoftDelete (id obj) |}.

Definition delete_log (obj : Request) : Request :=
  request "Log" None
    (Some (JObj [("objectId", default JNull (id obj)); ("action", JStr "DELETE");
                 ("created", now); ("createdBy", now);
                 ("updated", now); ("updatedBy", now)])) false.

(** The child deletions are started one after the other. *)
Fixpoint start_deletes (obj : Request) (rows : list (string * json))
  : io (list (result (option json))) :=
  match rows with
  | [] => mret []
  | (rel, row) :: rest =>
      rid ← lift (Js.prop row "id");
      let c := CallDelete (request rel rid None (isHard obj)) true None in
      _ ← emit (Invoke c);
      rs ← start_deletes obj rest;
      mret (call c :: rs)
  end.

Definition doDelete (obj : Request) (isChild : bool) (isSuperUser : option bool)
  : io bool :=
  feather ← lift (getFeather (name obj));
  (* afterGetFeather *)
  if negb isChild && match feather with Some f => f_isChild f | None => false end
  then reject (ErrString "Can not directly delete a child class")
  else
    authorized ← lift (match isSuperUser with
                       | Some false =>
                           isAuthorized {| auth_id := id obj; auth_feather := None;
                                           auth_action := "canDelete" |}
                       | _ => Ok true
                       end);
    (* afterAuthorization *)
    if negb authorized
    then reject (ErrString ("Not authorized to delete " +:+ Str.dq
                            +:+ Js.text (id obj) +:+ Str.dq))
    else
      match feather with
      | None => reject (TypeError "Cannot convert undefined or null to object")
      | Some f =>
          let props := f_properties f in
          oldRec ← lift (doSelect {| s_name := name obj; s_id := id obj;
                                     s_showDeleted := true;
                                     s_properties := Some (noChildProps props);
                                     s_sanitize := true |} true None);
          (* afterDoSelect *)
          if negb (Js.truthy_opt oldRec)
          then reject (ErrString ("Record " +:+ Js.text (id obj) +:+ " not found."))
          else
            let rec := default JNull oldRec in
            deleted ← lift (Js.prop rec "isDeleted");
            if Js.truthy_opt deleted
            then reject (ErrString ("Record " +:+ Js.text (id obj)
                                    +:+ " already deleted."))
            else
              locked ← lift (locked_out oldRec obj);
              if (locked : bool)
              then msg ← lift (lock_message rec); reject (ErrorObj msg None)
              else
                rows ← lift (child_rows props rec);
                results ← start_deletes obj rows;
                _ ← emit (Query (delete_statement obj));
                (* afterDelete, once every callback has reported *)
                _ ← lift (first_failure results);
                if isChild || isHard obj then mret true
                else
                  let c := CallInsert (delete_log obj) true None in
                  _ ← emit (Invoke c);
                  _ ← lift (call c);
                  mret true
      end.

(** **** Natural keys *)

Variable toName : string -> string.
Variable getKey : option json -> option bool -> result (option json).
Variable getKeys : Tools.Payload -> option bool -> result (list (option json)).
Variable query : Statement -> result unit.
Variable applyPatch : json -> json -> result json.
Variable compare : json -> json -> list json.
Variable JSON_stringify : option json -> option json.
(** [f.createId()], [new Date().toJSON()], [client.currentUser()] *)
Variable createId : string.
Variable timestamp : json.
Variable currentUser : json.

Record Unique : Type := {
  u_feather : string;
  u_prop : string;
  u_value : option json;
  u_label : string
}.

(** The payload of the uniqueness probe. *)
Definition probe (unique : Unique) : Tools.Payload :=
  {| Tools.name := u_feather unique;
     Tools.filter :=
       Some {| Tools.criteria :=
                 Some [{| Tools.c_property := Tools.PName (u_prop unique);
                          Tools.c_operator := None;
                          Tools.c_value := u_value unique |}];
               Tools.sort := None; Tools.offset := None; Tools.limit := None |};
     Tools.showDeleted := false;
     Tools.currentUser := currentUser |}.

Definition unique_message (feather : Feather) (unique : Unique) : string :=
  "Value '" +:+ Js.text (u_value unique) +:+ "' assigned to "
  +:+ toName (u_label unique) +:+ " on "
  +:+ toName (f_name feather)
  +:+ " is not unique to data type "
  +:+ toName (u_feather unique) +:+ ".".

(** [str || other] for optional strings. *)
Definition or_else (s : option string) (other : string) : string :=
  match s with
  | Some x => if String.eqb x "" then other else x
  | None => other
  end.

(** **** doUpdate *)

(** [obj.data || []] as a list of patch operations. *)
Definition patches_of (d : option json) : list json :=
  match d with
  | Some (JArr l) => l
  | _ => []
  end.

Record updating : Type := {
  up_tokens : list string;
  up_ary : list string;
  up_params : list (option json);
  up_p : nat;
  up_sets : list (Sql.path * option json);
  up_doList : list Call;
  up_rec : list (string * json)     (* the fields of [updRec] *)
}.

(** [tools.relationColumn(key, relation)] *)
Definition relationColumn (key relation : string) : string :=
  "_" +:+ toSnakeCase key +:+ "_" +:+ toSnakeCase relation +:+ "_pk".

(** [tokens.push(col); ary.push("%I = $" + p); params.push(value); p += 1] *)
Definition assign (col : string) (value : option json) (st : updating) : updating :=
  {| up_tokens := up_tokens st ++ [col];
     up_ary := up_ary st ++ ["%I = " +:+ Tools.dollar (up_p st)];
     up_params := up_params st ++ [value];
     up_p := S (up_p st);
     up_sets := up_sets st ++ [([col], value)];
     up_doList := up_doList st;
     up_rec := up_rec st |}.

(** The loop over the attributes of a money value. *)
Fixpoint assign_attrs (key : string) (attrs : list (string * json))
  (st : updating) : updating :=
  match attrs with
  | [] => st
  | (attr, v) :: rest =>
      assign_attrs key rest
        {| up_tokens := up_tokens st ++ [toSnakeCase key; toSnakeCase attr];
           up_ary := up_ary st ++ ["%I.%I = " +:+ Tools.dollar (up_p st)];
           up_params := up_params st ++ [Some v];
           up_p := S (up_p st);
           up_sets := up_sets st ++ [([toSnakeCase key; toSnakeCase attr], Some v)];
           up_doList := up_doList st;
           up_rec := up_rec st |}
  end.

Definition push_call (c : Call) (st : updating) : updating :=
  {| up_tokens := up_tokens st; up_ary := up_ary st; up_params := up_params st;
     up_p := up_p st; up_sets := up_sets st;
     up_doList := up_doList st ++ [c];
     up_rec := up_rec st |}.

Definition set_rec (key : string) (v : json) (st : updating) : updating :=
  {| up_tokens := up_tokens st; up_ary := up_ary st; up_params := up_params st;
     up_p := up_p st; up_sets := up_sets st; up_doList := up_doList st;
     up_rec := Js.set (up_rec st) key v |}.

(** Objects whose values are actually strings are quoted, arrays are
    encoded. *)
Definition quote (t : string) (v : option json) : option json :=
  match v with
  | Some (JStr text) =>
      if String.eqb t "object"
         && negb (String.eqb (String.substring 0 1 text) "[")
      then Some (JStr (Str.dq +:+ text +:+ Str.dq))
      else if String.eqb t "array" then JSON_stringify v
      else v
  | _ => if String.eqb t "array" then JSON_stringify v else v
  end.

(** [updRec[key]] is overwritten with the quoted value. *)
Definition requote (key : string) (quoted upd : option json) (st : updating)
  : updating :=
  match quoted with
  | Some v => if Js.strict_eq quoted upd then st else set_rec key v st
  | None => st
  end.

(** [find(ary, id)]: the first truthy item whose [id] is [id]. *)
Fixpoint find (ary : list json) (i : option json) : option json :=
  match ary with
  | [] => None
  | item :: rest =>
      if Js.truthy item
         && match Js.prop item "id" with
            | Ok v => Js.strict_eq v i
            | Fail _ => false
            end
      then Some item else find rest i
  end.

(** Child rows of the old record that are gone from the new one. *)
Fixpoint process_deletes (relation : string) (oldRows newRows : list json)
  (st : updating) : result updating :=
  match oldRows with
  | [] => Ok st
  | row :: rest =>
      cid ← Js.prop row "id";
      process_deletes relation rest newRows
        (match find newRows cid with
         | Some _ => st
         | None => push_call (CallDelete (request relation cid None false) true None) st
         end)
  end.

(** Child rows of the new record: patched when known, inserted otherwise. *)
Fixpoint process_upserts (relation parentOf : string) (parentId : option json)
  (oldRows newRows : list json) (st : updating) : result updating :=
  match newRows with
  | [] => Ok st
  | cNewRec :: rest =>
      if negb (Js.truthy cNewRec) then
        process_upserts relation parentOf parentId oldRows rest st
      else
        cidv ← Js.prop cNewRec "id";
        let cid := if Js.truthy_opt cidv then cidv else Some JNull in
        match find oldRows cid with
        | Some cOldRec =>
            let cpatches := compare cOldRec cNewRec in
            process_upserts relation parentOf parentId oldRows rest
              (match cpatches with
               | [] => st
               | _ => push_call (CallUpdate
                                   {| name := relation; id := cid;
                                      data := Some (JArr cpatches);
                                      eventkey := None; isHard := false;
                                      cache := None; pk := None |} true None) st
               end)
        | None =>
            (* [cNewRec[parentOf] = {id: updRec.id}] *)
            stamped ← match cNewRec with
                      | JObj fields =>
                          Ok (JObj (Js.set fields parentOf
                                      (JObj (match parentId with
                                             | Some v => [("id", v)]
                                             | None => []
                                             end))))
                      | JArr _ => Ok cNewRec
                      | _ => Fail (TypeError ("Cannot create property '"
                                              +:+ parentOf +:+ "'"))
                      end;
            process_upserts relation parentOf parentId oldRows rest
              (push_call (CallInsert (request relation None (Some stamped) false)
                            true None) st)
        end
  end.

(** [afterGetRelKey(resp)] *)
Definition afterGetRelKey (key relation : string) (resp : option json)
  (st : updating) : result updating :=
  match resp with
  | None =>
      upd ← Js.prop_opt (Js.get (up_rec st) key) "id";
      Fail (ErrorObj ("Relation not found in " +:+ Str.dq +:+ relation +:+ Str.dq
                      +:+ " for " +:+ Str.dq +:+ key +:+ Str.dq
                      +:+ " with id " +:+ Str.dq +:+ Js.text upd +:+ Str.dq) None)
  | Some value => Ok (assign (relationColumn key relation) (Some value) st)
  end.

(** [x || {}] *)
Definition or_empty (v : option json) : json :=
  match v with
  | Some x => if Js.truthy x then x else JObj []
  | None => JObj []
  end.

(** One turn of [nextProp] for the property [key]. *)
Definition update_prop (oldRec : list (string * json)) (key : string)
  (pr : Property) (st : updating) : io updating :=
  let upd := Js.get (up_rec st) key in
  let old := Js.get oldRec key in
  match p_type pr with
  | Relation relation parentOf childOf isChildRel =>
      let updProp := or_empty upd in
      let oldProp := or_empty old in
      (* regular to one relations *)
      let to_one (st : updating) : io updating :=
        uid ← lift (Js.prop updProp "id");
        oid ← lift (Js.prop oldProp "id");
        if negb (bool_decide (childOf <> None)) && negb (Js.strict_eq uid oid) then
          if Js.truthy_opt uid then
            rid ← lift (Js.prop_opt upd "id");
            resp ← lift (getKey rid None);
            lift (afterGetRelKey key relation resp st)
          else lift (afterGetRelKey key relation (Some JNull) st)
        else mret st in
      match upd with
      | Some (JArr newRows) =>
          (* child records *)
          match old with
          | Some (JArr oldRows) =>
              st1 ← lift (process_deletes relation oldRows newRows st);
              st2 ← lift (process_upserts relation (default "undefined" parentOf)
                            (Js.get (up_rec st) "id") oldRows newRows st1);
              to_one st2
          | _ => reject (TypeError "Cannot read property 'forEach' of undefined")
          end
      | _ =>
          if isChildRel then
            (* child relation updates *)
            if Js.truthy_opt old && negb (Js.truthy_opt upd) then
              oid ← lift (Js.prop_opt old "id");
              let c := CallDelete (request relation oid None true) true (Some true) in
              _ ← emit (Invoke c);
              _ ← lift (call c);
              lift (afterGetRelKey key relation (Some JNull) st)
            else if Js.truthy_opt upd && negb (Js.truthy_opt old) then
              uid ← lift (Js.prop_opt upd "id");
              let c := CallInsert (request relation uid upd false) true (Some true) in
              _ ← emit (Invoke c);
              _ ← lift (call c);
              resp ← lift (getKey uid None);
              lift (afterGetRelKey key relation resp st)
            else
              uid ← lift (if Js.truthy_opt upd then Js.prop_opt upd "id" else Ok None);
              oid ← lift (if Js.truthy_opt old then Js.prop_opt old "id" else Ok None);
              if Js.truthy_opt upd && Js.truthy_opt old && negb (Js.strict_eq uid oid)
              then reject (ErrorObj ("Id cannot be changed on child"
                                     +:+ "relation '" +:+ key +:+ "'") None)
              else
                match compare oldProp updProp with
                | [] => mret st
                | cpatches =>
                    uid ← lift (Js.prop_opt upd "id");
                    let c := CallUpdate {| name := relation; id := uid;
                                           data := Some (JArr cpatches);
                                           eventkey := None; isHard := false;
                                           cache := None; pk := None |}
                               true (Some true) in
                    _ ← emit (Invoke c);
                    _ ← lift (call c);
                    resp ← lift (getKey uid None);
                    lift (afterGetRelKey key relation resp st)
                end
          else to_one st
      end
  | Scalar t =>
      if negb (Js.strict_eq upd old) && String.eqb t "object"
         && bool_decide (p_format pr = Some "money")
      then
        (* non-relational composites *)
        attrs ← lift (match upd with
                      | Some v => Js.entries v
                      | None => Fail (TypeError "Cannot convert undefined or null to object")
                      end);
        mret (assign_attrs key attrs st)
      else if negb (Js.strict_eq upd old) && negb (String.eqb key "objectType")
      then
        (* regular data types *)
        let quoted := quote t upd in
        mret (assign (toSnakeCase key) quoted (requote key quoted upd st))
      else mret st
  end.

(** [nextProp], over the keys of the feather in order. *)
Fixpoint nextProp (oldRec : list (string * json))
  (props : list (string * Property)) (st : updating) : io updating :=
  match props with
  | [] => mret st
  | (key, pr) :: rest =>
      st1 ← update_prop oldRec key pr st;
      nextProp oldRec rest st1
  end.

(** The first required property that is null in [updRec]. *)
Fixpoint requiredIsNull (props : list (string * Property))
  (updRec : list (string * json)) : option string :=
  match props with
  | [] => None
  | (fkey, pr) :: rest =>
      if p_isRequired pr && Js.strict_eq (Js.get updRec fkey) (Some JNull)
      then Some fkey
      else requiredIsNull rest updRec
  end.

(** The first natural key whose value changed. *)
Fixpoint uniqueChanged (feather : Feather) (props : list (string * Property))
  (oldRec updRec : list (string * json)) : option Unique :=
  match props with
  | [] => None
  | (fkey, pf) :: rest =>
      if p_isNaturalKey pf
         && negb (Js.strict_eq (Js.get updRec fkey) (Js.get oldRec fkey))
      then Some {| u_feather := or_else (p_inheritedFrom pf) (f_name feather);
                   u_prop := fkey;
                   u_value := Js.get updRec fkey;
                   u_label := or_else (p_alias pf) fkey |}
      else uniqueChanged feather rest oldRec updRec
  end.

Variable toCamelCase : string -> string.

(** [tools.sanitize(resp)] on a response that may be [undefined]. *)
Definition sanitize (resp : option json) : result json :=
  match resp with
  | Some v => Sanitize.sanitize toCamelCase (S (Js.depth v)) v
  | None => Fail (SyntaxError "Unexpected token u in JSON at position 0")
  end.

(** The fields [afterDoSelect] writes onto the copy of [newRec]. *)
Definition stamp (feather : Feather) (oldRec newRec : list (string * json))
  : list (string * json) :=
  let r1 := Js.set_opt newRec "created" (Js.get oldRec "created") in
  let r2 := Js.set_opt r1 "createdBy" (Js.get oldRec "createdBy") in
  let r3 := Js.set r2 "updated" timestamp in
  let r4 := Js.set r3 "updatedBy" currentUser in
  let r5 := Js.set r4 "isDeleted" (JBool false) in
  let r6 := Js.set_opt r5 "lock" (Js.get oldRec "lock") in
  (* [if (props.etag)] *)
  if existsb (fun kp => String.eqb kp.1 "etag") (f_properties feather)
  then Js.set r6 "etag" (JStr createId)
  else r6.

Definition update_statement (feather : Feather) (pk : option json)
  (st : updating) : Statement :=
  {| sql := "UPDATE %I SET " +:+ Str.join "," (up_ary st)
            +:+ " WHERE _pk = " +:+ Tools.dollar (up_p st);
     tokens := up_tokens st;
     params := up_params st ++ [pk];
     does := Update (toSnakeCase (f_name feather)) (up_sets st) pk |}.

Definition update_log (obj : Request) (updRec : list (string * json))
  (change : list json) : Request :=
  request "Log" None
    (Some (JObj
       (Js.set_opt
          (Js.set_opt
             (Js.set_opt
                (Js.set_opt
                   (Js.set_opt [("objectId", default JNull (id obj));
                                ("action", JStr "PATCH")]
                      "created" (Js.get updRec "updated"))
                   "createdBy" (Js.get updRec "updatedBy"))
                "updated" (Js.get updRec "updated"))
             "updatedBy" (Js.get updRec "updatedBy"))
          "change" (JSON_stringify (Some (JArr change)))))) false.

(** Everything after the old record has been read: [afterDoSelect] up to
    [done]. *)
Definition afterDoSelect (obj : Request) (isChild : bool) (feather : Feather)
  (pk : option json) (resp : option json) : io (option json) :=
  let props := f_properties feather in
  let patches := patches_of (data obj) in
  (* [let oldRec;] is assigned only after the lock test *)
  let oldRec0 : option json := None in
  locked ← lift (locked_out oldRec0 obj);
  if (locked : bool)
  then msg ← lift (lock_message (default JNull oldRec0)); reject (ErrorObj msg None)
  else
    oldRec ← lift (sanitize resp);
    keys ← lift (Js.entries oldRec);
    deleted ← lift (Js.prop oldRec "isDeleted");
    if match keys with [] => true | _ => false end || Js.truthy_opt deleted
    then mret (Some (JBool false))
    else
      let old := Js.fields_of oldRec in
      newRec ← lift (applyPatch oldRec (JArr patches));
      (* changes of the original request *)
      cacheRec ← lift (match cache obj with
                       | Some c =>
                           if Js.truthy c then Some <$> applyPatch oldRec c
                           else Ok None
                       | None => Ok None
                       end);
      let updRec := stamp feather old (Js.fields_of newRec) in
      (* required properties *)
      match requiredIsNull props updRec with
      | Some key => reject (ErrString (Str.dq +:+ key +:+ Str.dq +:+ " is required."))
      | None =>
          (* unique properties *)
          _ ← match uniqueChanged feather props old updRec with
              | Some unique =>
                  found ← lift (getKeys (probe unique) None);
                  match found with
                  | [] => mret ()
                  | _ => reject (ErrorObj (unique_message feather unique) None)
                  end
              | None => mret ()
              end;
          (* properties *)
          st ← nextProp old props
                 {| up_tokens := [toSnakeCase (f_name feather)]; up_ary := [];
                    up_params := []; up_p := 1%nat; up_sets := [];
                    up_doList := []; up_rec := updRec |};
          (* afterProperties: child changes first *)
          let started := map (fun c => (Invoke c, call c)) (up_doList st) in
          _ ← ((map fst started, Ok ()) : io unit);
          _ ← lift (first_failure (map snd started));
          let stmt := update_statement feather pk st in
          _ ← emit (Query stmt);
          _ ← lift (query stmt);
          (* afterUpdate *)
          if isChild then mret None
          else
            result ← lift (doSelect {| s_name := f_name feather; s_id := id obj;
                                       s_showDeleted := false;
                                       s_properties := None;
                                       s_sanitize := true |} false None);
            (* afterSelectUpdated *)
            match result with
            | None => reject (TypeError "Cannot set property 'lock' of undefined")
            | Some res =>
                let c := CallInsert (update_log obj (up_rec st) (compare oldRec res))
                           true None in
                _ ← emit (Invoke c);
                _ ← lift (call c);
                (* doUnlock *)
                _ ← emit (Invoke (CallUnlock (id obj)));
                _ ← lift (call (CallUnlock (id obj)));
                (* done *)
                let unlocked := match res with
                                | JObj fields => JObj (Js.set fields "lock" JNull)
                                | other => other
                                end in
                match cacheRec with
                | Some c => mret (Some (JArr (compare c unlocked)))
                | None => reject (TypeError "Cannot convert undefined or null to object")
                end
            end
      end.

Definition doUpdate (obj : Request) (isChild : bool) (isSuperUser : option bool)
  : io (option json) :=
  match patches_of (data obj) with
  | [] => mret (Some (JArr []))
  | _ =>
      resp ← lift (getFeather (name obj));
      (* afterGetFeather *)
      match resp with
      | None => reject (ErrString ("Feather " +:+ Str.dq +:+ name obj +:+ Str.dq
                                   +:+ " not found."))
      | Some feather =>
          if negb isChild && f_isChild feather
          then reject (ErrString "Can not directly update a child class")
          else
            authorized ← lift (match isSuperUser with
                               | Some false =>
                                   isAuthorized {| auth_id := id obj;
                                                   auth_feather := None;
                                                   auth_action := "canUpdate" |}
                               | _ => Ok true
                               end);
            (* afterAuthorization *)
            if negb authorized
            then reject (ErrString ("Not authorized to update " +:+ Str.dq
                                    +:+ Js.text (id obj) +:+ Str.dq))
            else
              pk ← lift (getKey (id obj) None);
              (* afterGetKey *)
              old ← lift (doSelect {| s_name := name obj; s_id := id obj;
                                      s_showDeleted := false;
                                      s_properties := Some (noChildProps
                                                              (f_properties feather));
                                      s_sanitize := false |} isChild None);
              afterDoSelect obj isChild feather pk old
      end
  end.

(** **** doInsert *)

(** [tools.formats[format].default] and [tools.types[type].default], where
    the table has the key and the default is defined. *)
Definition format_default (format : string) : option (option json) :=
  if existsb (String.eqb format) ["integer"; "long"; "float"; "double"]
  then Some (Some (JNum 0))
  else if String.eqb format "string" then Some (Some (JStr "''"))
  else if String.eqb format "boolean" then Some (Some (JStr "false"))
  else if String.eqb format "date" then Some (Some (JStr "today()"))
  else if String.eqb format "dateTime" then Some (Some (JStr "now()"))
  else if String.eqb format "enum" then Some (Some (JStr ""))
  else if String.eqb format "color" then Some (Some (JStr "#000000"))
  else if String.eqb format "money" then Some (Some (JStr "money()"))
  else if String.eqb format "lock" then Some (Some JNull)
  else if String.eqb format "object" then Some (Some JNull)
  else None.

Definition type_default (type : string) : result (option json) :=
  if String.eqb type "object" || String.eqb type "array" then Ok (Some JNull)
  else if String.eqb type "string" then Ok (Some (JStr ""))
  else if String.eqb type "integer" || String.eqb type "number" then Ok (Some (JNum 0))
  else if String.eqb type "boolean" then Ok (Some (JStr "false"))
  else Fail (TypeError "Cannot read property 'default' of undefined").

(** The functions named by a default such as [now()], the sequences of the
    database, and [Number.prototype.pad]. *)
Variable callDefault : string -> result json.
Variable nextval : string -> result Z.
Variable pad : Z -> nat -> string.

Record inserting : Type := {
  in_args : list string;
  in_tokens : list string;
  in_values : list (option json);
  in_params : list string;
  in_p : nat;
  in_cols : list (Sql.path * option json);
  in_data : list (string * json)
}.

(** The columns of [afterHandleRelations] for a value that is not a child. *)
Definition add_column (col : string) (value : option json) (st : inserting)
  : inserting :=
  {| in_args := in_args st ++ [col];
     in_tokens := in_tokens st ++ ["%I"];
     in_values := in_values st ++ [value];
     in_params := in_params st ++ [Tools.dollar (in_p st)];
     in_p := S (in_p st);
     in_cols := in_cols st ++ [([col], value)];
     in_data := in_data st |}.

Fixpoint add_attrs (col : string) (value : json) (attrs : list (string * json))
  (st : inserting) : inserting :=
  match attrs with
  | [] => st
  | (attr, _) :: rest =>
      let v := Js.get (Js.fields_of value) (toSnakeCase attr) in
      add_attrs col value rest
        {| in_args := in_args st ++ [col; toSnakeCase attr];
           in_tokens := in_tokens st ++ ["%I.%I"];
           in_values := in_values st ++ [v];
           in_params := in_params st ++ [Tools.dollar (in_p st)];
           in_p := S (in_p st);
           in_cols := in_cols st ++ [([col; toSnakeCase attr], v)];
           in_data := in_data st |}
  end.

(** [afterHandleRelations] when [child] is false. *)
Definition afterHandleRelations (feather : Feather) (key col : string)
  (pr : Property) (value : option json) (st : inserting) : result inserting :=
  if p_isRequired pr && Js.strict_eq value (Some JNull)
  then Fail (ErrorObj (Str.dq +:+ key +:+ Str.dq +:+ " is required on "
                       +:+ f_name feather +:+ ".") None)
  else if scalar_is pr "object" && bool_decide (p_format pr = Some "money")
  then Ok (add_attrs col (or_empty value)
             (match value with
              | Some v => if Js.truthy v then Js.fields_of v else []
              | None => []
              end) st)
  else Ok (add_column col value st).

(** [afterGetPk(id)] *)
Definition afterGetPk (feather : Feather) (isChild : bool) (key col : string)
  (pr : Property) (found : option json) (st : inserting) : result inserting :=
  match found with
  | None =>
      rid ← Js.prop_opt (Js.get (in_data st) key) "id";
      Fail (ErrorObj ("Relation not found in " +:+ Str.dq +:+ relation_of pr
                      +:+ Str.dq +:+ " for " +:+ Str.dq +:+ key +:+ Str.dq
                      +:+ " with id " +:+ Str.dq +:+ Js.text rid +:+ Str.dq) None)
  | Some _ =>
      if negb isChild && is_childOf pr
      then Fail (ErrorObj ("Child records may only be created from the"
                           +:+ " parent.") None)
      else afterHandleRelations feather key col pr found st
  end.

(** A default that names a function: [value.match(/\(\)$/)]. *)
Definition function_name (v : option json) : option string :=
  match v with
  | Some (JStr s) =>
      let n := String.length s in
      if (2 <=? n)%nat && String.eqb (String.substring (n - 2) 2 s) "()"
      then Some (String.substring 0 (n - 2) s)
      else None
  | _ => None
  end.

(** One turn of [buildInsert] for the property [key]. *)
Definition insert_prop (obj : Request) (isChild : bool) (feather : Feather)
  (key : string) (pr : Property) (st : inserting) : io inserting :=
  let given := Js.get (in_data st) key in
  match p_type pr with
  | Relation relation parentOf childOf isChildRel =>
      match parentOf with
      | Some _ => mret st                      (* to many: [child = true] *)
      | None =>
          (* to one *)
          let col := relationColumn key relation in
          let missing := match given with
                         | None | Some JNull => true
                         | _ => false
                         end in
          let use_default :=
            match p_default pr with
            | Some d =>
                negb (Js.is_null d)
                || bool_decide (p_format pr = Some "date")
                || bool_decide (p_format pr = Some "dateTime")
            | None => false
            end in
          if missing && negb use_default then
            if negb (p_isRequired pr)
            then lift (afterHandleRelations feather key col pr (Some (JNum (-1))) st)
            else reject (ErrorObj ("Property " +:+ key +:+ " is required on "
                                   +:+ f_name feather +:+ ".") None)
          else
            let st1 := if missing
                       then {| in_args := in_args st; in_tokens := in_tokens st;
                               in_values := in_values st; in_params := in_params st;
                               in_p := in_p st; in_cols := in_cols st;
                               in_data := Js.set_opt (in_data st) key (p_default pr) |}
                       else st in
            let target := Js.get (in_data st1) key in
            if isChildRel then
              (* insert the child relation on the fly *)
              let c := CallInsert (request relation None target false)
                         true (Some true) in
              _ ← emit (Invoke c);
              _ ← lift (call c);
              rid ← lift (Js.prop_opt target "id");
              found ← lift (getKey rid None);
              lift (afterGetPk feather isChild key col pr found st1)
            else if bool_decide (childOf <> None) && Js.truthy_opt (pk obj) then
              lift (afterGetPk feather isChild key col pr (pk obj) st1)
            else
              rid ← lift (Js.prop_opt target "id");
              found ← lift (getKey rid None);
              lift (afterGetPk feather isChild key col pr found st1)
      end
  | Scalar t =>
      if String.eqb key "objectType" then mret st   (* discriminator *)
      else
        let col := toSnakeCase key in
        (* objects whose values are actually strings *)
        let value := quote t given in
        match p_autonumber pr with
        | Some auto =>
            if match value with None => true | Some _ => p_isReadOnly pr end then
              seq ← lift (nextval (a_sequence auto));
              lift (afterHandleRelations feather key col pr
                      (Some (JStr (default "" (a_prefix auto)
                                   +:+ pad seq (a_length auto)
                                   +:+ default "" (a_suffix auto)))) st)
            else lift (afterHandleRelations feather key col pr value st)
        | None =>
            match value with
            | Some _ => lift (afterHandleRelations feather key col pr value st)
            | None =>
                (* other types of defaults *)
                dflt ← lift (match p_default pr with
                             | Some d => Ok (Some d)
                             | None =>
                                 match p_format pr with
                                 | Some fmt =>
                                     match (if String.eqb fmt "" then None
                                            else format_default fmt) with
                                     | Some d => Ok d
                                     | None => type_default t
                                     end
                                 | None => type_default t
                                 end
                             end);
                match function_name dflt with
                | Some fn =>
                    v ← lift (callDefault fn);
                    lift (afterHandleRelations feather key col pr (Some v) st)
                | None => lift (afterHandleRelations feather key col pr dflt st)
                end
            end
        end
  end.

(** [buildInsert], over the keys of the feather in order. *)
Fixpoint buildInsert (obj : Request) (isChild : bool) (feather : Feather)
  (props : list (string * Property)) (st : inserting) : io inserting :=
  match props with
  | [] => mret st
  | (key, pr) :: rest =>
      st1 ← insert_prop obj isChild feather key pr st;
      buildInsert obj isChild feather rest st1
  end.

(** The first key of the data that the feather does not have. *)
Fixpoint unknown_key (props : list (string * Property))
  (dkeys : list string) : option string :=
  match dkeys with
  | [] => None
  | k :: rest =>
      if existsb (fun kp => String.eqb kp.1 k) props
      then unknown_key props rest
      else Some k
  end.

(** The first natural key that is not an autonumber, with the value the
    request gives it. *)
Fixpoint natural_key (feather : Feather) (props : list (string * Property))
  (requested : list (string * json)) : option Unique :=
  match props with
  | [] => None
  | (key, fp) :: rest =>
      if p_isNaturalKey fp && negb (bool_decide (p_autonumber fp <> None))
      then Some {| u_feather := or_else (p_inheritedFrom fp) (f_name feather);
                   u_prop := key;
                   u_value := Js.get requested key;
                   u_label := or_else (p_alias fp) key |}
      else natural_key feather rest requested
  end.

(** The system controlled values of [afterAuthorized]. *)
Definition system_fields (d : list (string * json)) : list (string * json) :=
  let d1 := Js.set d "updated" now in
  let d2 := Js.set d1 "created" now in
  let d3 := Js.set d2 "createdBy" currentUser in
  let d4 := Js.set d3 "updatedBy" currentUser in
  let d5 := Js.set d4 "isDeleted" (JBool false) in
  Js.set d5 "lock" JNull.

Definition insert_statement (st : inserting) (pkv : option json) : Statement :=
  {| sql := "INSERT INTO %I (_pk, " +:+ Str.join "," (in_tokens st)
            +:+ ") VALUES ($1," +:+ Str.join "," (in_params st) +:+ ");";
     tokens := in_args st;
     params := in_values st;
     does := Insert (default "" (head (in_args st))) pkv (in_cols st) |}.

(** The rows of the child arrays of the data, stamped with the parent. *)
Fixpoint child_inserts (props : list (string * Property))
  (d : list (string * json)) (pkv : option json) : result (list Call) :=
  match props with
  | [] => Ok []
  | (key, pr) :: rest =>
      match p_type pr, Js.get d key with
      | Relation rel (Some parentOf) _ _, Some (JArr rows) =>
          more ← child_inserts rest d pkv;
          Ok (map (fun row =>
                     CallInsert
                       {| name := rel; id := None;
                          data := Some (match row with
                                        | JObj fields =>
                                            JObj (Js.set fields parentOf
                                                    (JObj (match Js.get d "id" with
                                                           | Some v => [("id", v)]
                                                           | None => []
                                                           end)))
                                        | other => other
                                        end);
                          eventkey := None; isHard := false; cache := None;
                          pk := pkv |} true None) rows ++ more)
      | Relation rel (Some parentOf) _ _, Some _ =>
          Fail (TypeError "Cannot read property 'length' of null")
      | _, _ => child_inserts rest d pkv
      end
  end.

Definition insert_log (d : list (string * json)) (result : json) : Request :=
  request "Log" None
    (Some (JObj
       (Js.set
          (Js.set_opt
             (Js.set_opt
                (Js.set_opt
                   (Js.set_opt
                      (Js.set_opt [("action", JStr "POST")]
                         "objectId" (Js.get d "id"))
                      "created" (Js.get d "created"))
                   "createdBy" (Js.get d "createdBy"))
                "updated" (Js.get d "updated"))
             "updatedBy" (Js.get d "updatedBy"))
          "change" result))) false.

(** [afterAuthorized] and what follows it, on the data as it stands. *)
Definition afterAuthorized (obj : Request) (isChild : bool) (feather : Feather)
  (d : list (string * json)) : io (option json) :=
  let d1 := system_fields d in
  (* primary key *)
  pkn ← lift (nextval "object__pk_seq");
  let pkv := Some (JNum pkn) in
  st ← buildInsert obj isChild feather (f_properties feather)
         {| in_args := [toSnakeCase (name obj)]; in_tokens := [];
            in_values := [pkv]; in_params := []; in_p := 2%nat;
            in_cols := []; in_data := d1 |};
  let stmt := insert_statement st pkv in
  (* insertChildren: children first *)
  children ← lift (child_inserts (f_properties feather) (in_data st) pkv);
  let started := map (fun c => (Invoke c, call c)) children in
  _ ← ((map fst started, Ok ()) : io unit);
  _ ← lift (first_failure (map snd started));
  (* afterInsert: the parent insert *)
  _ ← emit (Query stmt);
  _ ← lift (query stmt);
  if isChild then mret None
  else
    result ← lift (doSelect {| s_name := name obj;
                               s_id := Js.get (in_data st) "id";
                               s_showDeleted := false; s_properties := None;
                               s_sanitize := true |} false None);
    match result, cache obj with
    | Some res, Some cached =>
        let c := CallInsert (insert_log (in_data st) res) true None in
        _ ← emit (Invoke c);
        _ ← lift (call c);
        mret (Some (JArr (compare cached res)))
    | Some res, None =>
        let c := CallInsert (insert_log (in_data st) res) true None in
        _ ← emit (Invoke c);
        _ ← lift (call c);
        reject (TypeError "Cannot convert undefined or null to object")
    | None, _ => reject (TypeError "Cannot convert undefined or null to object")
    end.

(** [afterUniqueCheck(resp)] with the keys the probe found, if there was
    a probe. *)
Definition afterUniqueCheck (obj : Request) (isChild : bool)
  (isSuperUser : option bool) (feather : Feather) (d : list (string * json))
  (unique : option Unique) (found : list (option json)) : io (option json) :=
  match unique, found with
  | Some u, _ :: _ => reject (ErrorObj (unique_message feather u) None)
  | _, _ =>
      authorized ← lift (match isSuperUser with
                         | Some false =>
                             if negb isChild
                             then isAuthorized {| auth_id := None;
                                                  auth_feather := Some (name obj);
                                                  auth_action := "canCreate" |}
                             else Ok true
                         | _ => Ok true
                         end);
      if negb authorized
      then reject (ErrorObj ("Not authorized to create " +:+ Str.dq
                             +:+ name obj +:+ Str.dq) (Some 401))
      else afterAuthorized obj isChild feather d
  end.

(** [afterIdCheck(id)]: [found] is what the key lookup resolved to. *)
Definition afterIdCheck (obj : Request) (isChild : bool)
  (isSuperUser : option bool) (feather : Feather)
  (requested d : list (string * json)) (found : option json) : io (option json) :=
  let d1 := match found with
            | Some _ => Js.set d "id" (JStr createId)
            | None => d
            end in
  match natural_key feather (f_properties feather) requested with
  | Some unique =>
      keys ← lift (getKeys (probe unique) None);
      afterUniqueCheck obj isChild isSuperUser feather d1 (Some unique) keys
  | None => afterUniqueCheck obj isChild isSuperUser feather d1 None []
  end.

Definition doInsert (obj : Request) (isChild : bool) (isSuperUser : option bool)
  : io (option json) :=
  match data obj with
  | Some (JObj requested) =>
      let d := requested in                  (* [f.copy(obj.data)] *)
      resp ← lift (getFeather (name obj));
      (* afterGetFeather *)
      match resp with
      | None => reject (ErrString ("Class " +:+ Str.dq +:+ name obj +:+ Str.dq
                                   +:+ " not found"))
      | Some feather =>
          match unknown_key (f_properties feather) (map fst d) with
          | Some k =>
              reject (ErrorObj ("Feather " +:+ Str.dq +:+ name obj +:+ Str.dq
                                +:+ " does not contain property " +:+ Str.dq
                                +:+ k +:+ Str.dq) None)
          | None =>
              (* id existence and uniqueness *)
              if negb (Js.truthy_opt (Js.get d "id"))
              then afterIdCheck obj isChild isSuperUser feather requested d (Some JNull)
              else
                found ← lift (getKey (Js.get d "id") (Some true));
                afterIdCheck obj isChild isSuperUser feather requested d found
          end
      end
  | _ => reject (TypeError "Cannot convert undefined or null to object")
  end.

(** *** Facts about effects *)

Lemma bind_lift_ok {A B} (r : result A) (a : A) (f : A -> io B) :
  r = Ok a -> (lift r ≫= f) = f a.
Proof. intros ->. unfold mbind, io_mbind, io_bind, lift. by destruct (f a). Qed.

Lemma bind_lift_fail {A B} (r : result A) (e : js_error) (f : A -> io B) :
  r = Fail e -> (lift r ≫= f) = ([], Fail e).
Proof. by intros ->. Qed.

Lemma bind_ret {A B} (a : A) (f : A -> io B) : (mret a ≫= f) = f a.
Proof. unfold mbind, io_mbind, io_bind, mret, io_mret, io_ret. by destruct (f a). Qed.

Lemma bind_ok {A B} (m : io A) (f : A -> io B) (acts : list action) (b : B) :
  (m ≫= f) = (acts, Ok b) ->
  exists l1 a l2, m = (l1, Ok a) /\ f a = (l2, Ok b) /\ acts = l1 ++ l2.
Proof.
  unfold mbind, io_mbind, io_bind. destruct m as [l1 [a|e]]; [|discriminate].
  destruct (f a) as [l2 r] eqn:Hf. intros [= <- ->].
  by exists l1, a, l2.
Qed.

Lemma lift_ok {A} (r : result A) (acts : list action) (a : A) :
  lift r = (acts, Ok a) -> r = Ok a /\ acts = [].
Proof. unfold lift. by intros [= <- ->]. Qed.

(** Membership goals, decided from the hypotheses about lists alone. *)
Ltac sets :=
  repeat match goal with
    | f : ?T |- _ =>
        lazymatch type of T with
        | Prop => fail
        | _ => clear f
        end
    end;
  set_solver.

(** One step of walking through a successful run. *)
Ltac io_step H :=
  first
    [ apply bind_ok in H as (? & ? & ? & ? & H & ->)
    | match type of H with
      | (if ?c then _ else _) = _ =>
          destruct c eqn:?; [try discriminate H|try discriminate H]
      | match ?x with _ => _ end = _ => destruct x eqn:?; try discriminate H
      | reject _ = _ => discriminate H
      end ].

(** *** Facts about doDelete *)

(** A delete that resolves has sent its delete statement. *)
Lemma doDelete_statement (obj : Request) (isChild : bool) (su : option bool)
  (acts : list action) (b : bool) :
  doDelete obj isChild su = (acts, Ok b) ->
  Query (delete_statement obj) ∈ acts /\ b = true.
Proof.
  unfold doDelete. intros H. repeat io_step H.
  all: repeat match goal with
         | E : emit _ = _ |- _ => injection E as <- _
         end.
  all: injection H as _ <-.
  all: split; [sets|done].
Qed.


(** *** Facts about doUpdate *)

(** The sets of a run only grow, and the fields of [updRec] change only
    at the keys given. *)
Definition grows (keys : list string) (st st' : updating) : Prop :=
  (exists more, up_sets st' = up_sets st ++ more) /\
  forall k, k ∉ keys -> Js.get (up_rec st') k = Js.get (up_rec st) k.

Lemma grows_refl (keys : list string) (st : updating) : grows keys st st.
Proof. split; [exists []; by rewrite app_nil_r|done]. Qed.

Lemma grows_trans (keys1 keys2 : list string) (st1 st2 st3 : updating) :
  grows keys1 st1 st2 -> grows keys2 st2 st3 -> grows (keys1 ++ keys2) st1 st3.
Proof.
  intros [[m1 H1] G1] [[m2 H2] G2]. split.
  - exists (m1 ++ m2). by rewrite H2, H1, app_assoc.
  - intros k Hk. rewrite G2, G1; [done| |]; sets.
Qed.

Lemma grows_weaken (keys keys' : list string) (st st' : updating) :
  keys ⊆ keys' -> grows keys st st' -> grows keys' st st'.
Proof. intros Hs [H G]. split; [done|]. intros k Hk. apply G. sets. Qed.

Lemma assign_grows (col : string) (v : option json) (st : updating) :
  grows [] st (assign col v st).
Proof. split; [by eexists|done]. Qed.

Lemma assign_attrs_grows (key : string) (attrs : list (string * json)) :
  forall st, grows [] st (assign_attrs key attrs st).
Proof.
  induction attrs as [|[attr v] attrs IH]; intros st; [apply grows_refl|].
  cbn [assign_attrs].
  eapply (grows_trans [] []); [|apply IH]. split; [by eexists|done].
Qed.

Lemma push_call_grows (c : Call) (st : updating) : grows [] st (push_call c st).
Proof. split; [exists []; by rewrite app_nil_r|done]. Qed.

Lemma set_rec_grows (key : string) (v : json) (st : updating) :
  grows [key] st (set_rec key v st).
Proof.
  split; [exists []; by rewrite app_nil_r|].
  intros k Hk. simpl. apply Pg.get_set_ne. sets.
Qed.

Lemma process_deletes_grows (relation : string) (oldRows newRows : list json) :
  forall st st', process_deletes relation oldRows newRows st = Ok st' ->
                 grows [] st st'.
Proof.
  induction oldRows as [|row rest IH]; intros st st' H.
  - injection H as <-. apply grows_refl.
  - cbn [process_deletes] in H.
    destruct (Js.prop row "id") as [cid|e]; [|discriminate H]. simpl in H.
    apply IH in H. destruct (find newRows cid); [done|].
    eapply (grows_trans [] []); [apply push_call_grows|done].
Qed.

Lemma process_upserts_grows (relation parentOf : string) (parentId : option json)
  (oldRows newRows : list json) :
  forall st st',
    process_upserts relation parentOf parentId oldRows newRows st = Ok st' ->
    grows [] st st'.
Proof.
  induction newRows as [|row rest IH]; intros st st' H.
  - injection H as <-. apply grows_refl.
  - cbn [process_upserts] in H.
    destruct (negb (Js.truthy row)); [by apply IH|].
    destruct (Js.prop row "id") as [cidv|e]; [|discriminate H]. simpl in H.
    destruct (find oldRows _) as [cOldRec|].
    + apply IH in H. destruct (compare cOldRec row); [done|].
      eapply (grows_trans [] []); [apply push_call_grows|done].
    + destruct row; simpl in H; try discriminate H;
        apply IH in H;
        (eapply (grows_trans [] []); [apply push_call_grows|done]).
Qed.

Lemma afterGetRelKey_grows (key relation : string) (resp : option json)
  (st st' : updating) :
  afterGetRelKey key relation resp st = Ok st' -> grows [] st st'.
Proof.
  unfold afterGetRelKey. destruct resp as [value|].
  - intros [= <-]. apply assign_grows.
  - destruct (Js.prop_opt _ _); discriminate.
Qed.

Ltac grows_done :=
  repeat match goal with
    | H : lift _ = (_, Ok _) |- _ => apply lift_ok in H as [H ->]
    | H : mret _ = (_, Ok _) |- _ => injection H as <- <-
    | H : emit _ = (_, Ok _) |- _ => injection H as <- _
    | H : afterGetRelKey _ _ _ _ = Ok _ |- _ => apply afterGetRelKey_grows in H
    | H : process_deletes _ _ _ _ = Ok _ |- _ => apply process_deletes_grows in H
    | H : process_upserts _ _ _ _ _ _ = Ok _ |- _ => apply process_upserts_grows in H
    end.

Lemma requote_grows (key : string) (quoted upd : option json) (st : updating) :
  grows [key] st (requote key quoted upd st).
Proof.
  unfold requote. destruct quoted as [v|]; [|apply grows_refl].
  destruct (Js.strict_eq _ _); [apply grows_refl|apply set_rec_grows].
Qed.

Lemma grows_step (st1 st2 st3 : updating) :
  grows [] st1 st2 -> grows [] st2 st3 -> grows [] st1 st3.
Proof. apply (grows_trans [] []). Qed.

Lemma update_prop_grows (oldRec : list (string * json)) (key : string)
  (pr : Property) (st st' : updating) (acts : list action) :
  update_prop oldRec key pr st = (acts, Ok st') -> grows [key] st st'.
Proof.
  unfold update_prop. intros H.
  destruct (p_type pr) as [t|relation parentOf childOf isChildRel].
  - repeat io_step H; grows_done.
    + apply (grows_weaken []); [sets|apply assign_attrs_grows].
    + eapply (grows_trans [key] []); [apply requote_grows|apply assign_grows].
    + apply grows_refl.
  - repeat io_step H; grows_done.
    all: apply (grows_weaken []); [sets|].
    all: eauto using grows_step, grows_refl.
Qed.

Lemma nextProp_grows (oldRec : list (string * json))
  (props : list (string * Property)) :
  forall st st' acts,
    nextProp oldRec props st = (acts, Ok st') -> grows (map fst props) st st'.
Proof.
  induction props as [|[key pr] props IH]; intros st st' acts H.
  - injection H as <- <-. apply grows_refl.
  - cbn [nextProp] in H. io_step H.
    match goal with
    | E : update_prop _ _ _ _ = _ |- _ => apply update_prop_grows in E
    end.
    apply IH in H. by eapply (grows_trans [key] (map fst props)).
Qed.

Lemma nextProp_app (oldRec : list (string * json))
  (props1 props2 : list (string * Property)) :
  forall st,
    nextProp oldRec (props1 ++ props2) st
    = nextProp oldRec props1 st ≫= nextProp oldRec props2.
Proof.
  induction props1 as [|[key pr] props1 IH]; intros st.
  - symmetry. apply bind_ret.
  - cbn [app nextProp]. unfold mbind, io_mbind, io_bind.
    destruct (update_prop oldRec key pr st) as [l1 [st1|e]]; [|done].
    rewrite IH. unfold mbind, io_mbind, io_bind.
    destruct (nextProp oldRec props1 st1) as [l2 [st2|e]]; [|done].
    destruct (nextProp oldRec props2 st2) as [l3 r]. by rewrite app_assoc.
Qed.

Lemma strict_eq_fresh (fresh : string) (v : option json) :
  v <> Some (JStr fresh) -> Js.strict_eq (Some (JStr fresh)) v = false.
Proof.
  intros Hne. destruct v as [[| | |s| |]|]; try done.
  simpl. apply String.eqb_neq. congruence.
Qed.

(** The turn of the etag: the fresh id goes into the [SET] list. *)
Lemma update_prop_etag (oldRec : list (string * json)) (pr : Property)
  (st : updating) :
  p_type pr = Scalar "string" ->
  Js.get (up_rec st) "etag" = Some (JStr createId) ->
  Js.get oldRec "etag" <> Some (JStr createId) ->
  update_prop oldRec "etag" pr st
  = ([], Ok (assign (toSnakeCase "etag") (Some (JStr createId)) st)).
Proof.
  intros Ht Hnew Hold. unfold update_prop. rewrite Ht, Hnew.
  rewrite (strict_eq_fresh _ _ Hold). cbn [negb andb String.eqb Ascii.eqb Bool.eqb].
  unfold quote, requote. cbn [String.eqb Ascii.eqb Bool.eqb andb].
  cbn [Js.strict_eq]. by rewrite String.eqb_refl.
Qed.

Lemma stamp_etag (feather : Feather) (oldRec newRec : list (string * json))
  (before after : list (string * Property)) (pr : Property) :
  f_properties feather = before ++ ("etag", pr) :: after ->
  Js.get (stamp feather oldRec newRec) "etag" = Some (JStr createId).
Proof.
  intros Hp. unfold stamp.
  assert (existsb (fun kp : string * Property => String.eqb kp.1 "etag")
            (f_properties feather) = true) as ->.
  { rewrite Hp. apply existsb_exists. exists ("etag", pr).
    split; [apply in_app_iff; right; by left|done]. }
  apply Pg.get_set_eq.
Qed.

(** A run of [nextProp] over a feather with an etag has the fresh id among
    its sets. *)
Lemma nextProp_etag (oldRec : list (string * json))
  (before after : list (string * Property)) (pr : Property)
  (st st' : updating) (acts : list action) :
  "etag" ∉ map fst before ->
  p_type pr = Scalar "string" ->
  Js.get (up_rec st) "etag" = Some (JStr createId) ->
  Js.get oldRec "etag" <> Some (JStr createId) ->
  nextProp oldRec (before ++ ("etag", pr) :: after) st = (acts, Ok st') ->
  ([toSnakeCase "etag"], Some (JStr createId)) ∈ up_sets st'.
Proof.
  intros Hb Ht Hnew Hold H. rewrite nextProp_app in H.
  apply bind_ok in H as (l1 & st1 & l2 & H1 & H2 & ->).
  apply nextProp_grows in H1 as [_ Hrec].
  cbn [nextProp] in H2.
  rewrite update_prop_etag in H2; [|done|by rewrite Hrec|done].
  apply bind_ok in H2 as (l3 & st2 & l4 & H3 & H4 & ->).
  injection H3 as <- <-.
  apply nextProp_grows in H4 as [[more Hsets] _].
  rewrite Hsets. simpl. sets.
Qed.

(** X1, C2.  An update with an empty patch list resolves to [[]] and has sent
    nothing, so the stored record and its etag are as before.  An update
    with patches that resolves, other than to [false] for a record that is
    gone, on a feather with the string property [etag], has sent an
    [UPDATE] of the record that sets [etag] to the id [f.createId()] gave,
    an id that is not the etag the record had. *)
Theorem doUpdate_etag (obj : Request) (isChild : bool) (su : option bool) :
  (patches_of (data obj) = [] ->
   doUpdate obj isChild su = ([], Ok (Some (JArr [])))) /\
  (forall feather before pr after old oldRec acts r,
     patches_of (data obj) <> [] ->
     getFeather (name obj) = Ok (Some feather) ->
     f_properties feather = before ++ ("etag", pr) :: after ->
     "etag" ∉ map fst before ->
     p_type pr = Scalar "string" ->
     doSelect {| s_name := name obj; s_id := id obj; s_showDeleted := false;
                 s_properties := Some (noChildProps (f_properties feather));
                 s_sanitize := false |} isChild None = Ok old ->
     sanitize old = Ok oldRec ->
     Js.get (Js.fields_of oldRec) "etag" <> Some (JStr createId) ->
     doUpdate obj isChild su = (acts, Ok r) ->
     r <> Some (JBool false) ->
     exists stmt sets pk,
       Query stmt ∈ acts /\
       does stmt = Update (toSnakeCase (f_name feather)) sets pk /\
       ([toSnakeCase "etag"], Some (JStr createId)) ∈ sets).
Proof.
  split.
  - intros Hp. unfold doUpdate. by rewrite Hp.
  - intros feather before pr after old oldRec acts r Hp Hf Hprops Hb Ht Hs Hsan
      Hfresh H Hr.
    unfold doUpdate in H.
    destruct (patches_of (data obj)) as [|patch patches] eqn:Epatches; [done|].
    rewrite (bind_lift_ok _ _ _ Hf) in H.
    io_step H. io_step H. io_step H. io_step H.
    rewrite (bind_lift_ok _ _ _ Hs) in H.
    unfold afterDoSelect in H.
    cbn [locked_out] in H. rewrite (bind_lift_ok _ _ _ eq_refl) in H.
    rewrite (bind_lift_ok _ _ _ Hsan) in H.
    io_step H. io_step H. io_step H.
    { injection H as _ <-. done. }
    io_step H. io_step H. io_step H.
    apply bind_ok in H as (lu & [] & l0 & _ & H & ->).
    apply bind_ok in H as (ln & st & l1 & Hnext & H & ->).
    apply bind_ok in H as (lc & [] & l2 & _ & H & ->).
    apply bind_ok in H as (lf & [] & l3 & _ & H & ->).
    apply bind_ok in H as (lq & [] & l4 & Hq & _ & ->).
    injection Hq as <-.
    rewrite Hprops in Hnext.
    apply nextProp_etag in Hnext; [|done|done| |done].
    + match goal with
      | E : lift (getKey (id obj) None) = (_, Ok ?pk) |- _ =>
          exists (update_statement feather pk st), (up_sets st), pk
      end.
      split; [sets|]. split; [reflexivity|done].
    + simpl. eapply stamp_etag. exact Hprops.
Qed.

(** The lock test of [doUpdate] reads [oldRec] before it is assigned, so
    the request's event key has no part in the outcome. *)
Definition with_eventkey (obj : Request) (key : option json) : Request :=
  {| name := name obj; id := id obj; data := data obj; eventkey := key;
     isHard := isHard obj; cache := cache obj; pk := pk obj |}.

Lemma doUpdate_ignores_eventkey (obj : Request) (key : option json)
  (isChild : bool) (su : option bool) :
  doUpdate (with_eventkey obj key) isChild su = doUpdate obj isChild su.
Proof. reflexivity. Qed.

(** *** Facts about doInsert *)

Lemma get_remove_ne (o : list (string * json)) (k k' : string) :
  k <> k' -> Js.get (Js.remove o k) k' = Js.get o k'.
Proof.
  intros Hne. induction o as [|[k0 v0] o IH]; simpl; [done|].
  destruct (String.eqb k0 k) eqn:E; simpl.
  - apply String.eqb_eq in E as ->.
    by rewrite (proj2 (String.eqb_neq k k')).
  - by rewrite IH.
Qed.

















Lemma only_bind {A B} (P : action -> Prop) (m : io A) (f : A -> io B) :
  Forall P m.1 -> (forall a, m.2 = Ok a -> Forall P (f a).1) ->
  Forall P (m ≫= f).1.
Proof.
  unfold mbind, io_mbind, io_bind. destruct m as [l1 [a|e]]; simpl; [|done].
  intros H1 H2. specialize (H2 a eq_refl). destruct (f a) as [l2 r].
  simpl in *. by apply Forall_app.
Qed.

Ltac only_step :=
  match goal with
  | |- Forall _ (_ ≫= _).1 => apply only_bind; [|intros ? ?]
  | |- Forall _ (lift _).1 => by constructor
  | |- Forall _ (mret _).1 => by constructor
  | |- Forall _ (reject _).1 => by constructor
  | |- Forall _ (emit _).1 => repeat constructor
  | |- Forall _ (if ?c then _ else _).1 => destruct c
  | |- Forall _ (match ?x with _ => _ end).1 => destruct x
  end.









Lemma natural_key_first (feather : Feather)
  (before after : list (string * Property)) (key : string) (fp : Property)
  (requested : list (string * json)) :
  Forall (fun kp => p_isNaturalKey kp.2 = false \/ p_autonumber kp.2 <> None)
    before ->
  p_isNaturalKey fp = true ->
  p_autonumber fp = None ->
  natural_key feather (before ++ (key, fp) :: after) requested
  = Some {| u_feather := or_else (p_inheritedFrom fp) (f_name feather);
            u_prop := key;
            u_value := Js.get requested key;
            u_label := or_else (p_alias fp) key |}.
Proof.
  intros Hb Hn Ha. induction Hb as [|[k p] before [Hk|Hk] _ IH]; cbn [app natural_key].
  - rewrite Hn, Ha. by rewrite bool_decide_false by (by intros ?).
  - cbn [snd] in Hk. by rewrite Hk.
  - cbn [snd] in Hk. rewrite bool_decide_true by done. by rewrite andb_false_r.
Qed.

(** X3, C3 as the code has it.  When the first property of the feather that is a natural key and
    is not an autonumber is probed and a record of the class that defines
    the property already holds the value given for it, [doInsert] rejects,
    before anything is sent, with an Error whose message is "Value
    '<value>' assigned to <Label> on <Feather> is not unique to data type
    <Defining feather>."; the Error carries no status code.  The probe is
    made for that first property only, with the value of the request. *)
Theorem doInsert_natural_key_conflict (obj : Request) (isChild : bool)
  (su : option bool) (requested : list (string * json)) (feather : Feather)
  (before after : list (string * Property)) (key : string) (fp : Property)
  (k : option json) (ks : list (option json)) :
  data obj = Some (JObj requested) ->
  getFeather (name obj) = Ok (Some feather) ->
  unknown_key (f_properties feather) (map fst requested) = None ->
  (Js.truthy_opt (Js.get requested "id") = true ->
   is_ok (getKey (Js.get requested "id") (Some true)) = true) ->
  f_properties feather = before ++ (key, fp) :: after ->
  Forall (fun kp => p_isNaturalKey kp.2 = false \/ p_autonumber kp.2 <> None)
    before ->
  p_isNaturalKey fp = true ->
  p_autonumber fp = None ->
  let unique := {| u_feather := or_else (p_inheritedFrom fp) (f_name feather);
                   u_prop := key;
                   u_value := Js.get requested key;
                   u_label := or_else (p_alias fp) key |} in
  getKeys (probe unique) None = Ok (k :: ks) ->
  doInsert obj isChild su
  = ([], Fail (ErrorObj (unique_message feather unique) None)).
Proof.
  intros Hd Hf Hk Hid Hp Hb Hn Ha unique Hkeys.
  assert (Hcheck : forall d found,
            afterIdCheck obj isChild su feather requested d found
            = ([], Fail (ErrorObj (unique_message feather unique) None))).
  { intros d found. unfold afterIdCheck.
    rewrite Hp, (natural_key_first _ _ _ _ _ _ Hb Hn Ha). fold unique.
    by rewrite (bind_lift_ok _ _ _ Hkeys). }
  unfold doInsert. rewrite Hd, (bind_lift_ok _ _ _ Hf), Hk.
  destruct (Js.truthy_opt (Js.get requested "id")); cbn [negb]; [|apply Hcheck].
  specialize (Hid eq_refl).
  destruct (getKey (Js.get requested "id") (Some true)) as [found|e];
    [|discriminate Hid].
  rewrite (bind_lift_ok _ _ _ eq_refl). apply Hcheck.
Qed.

(** *** What a delete sends *)



(** X14.  [doDelete] looks the record up with [showDeleted], so a record
    that is already deleted is found and the call is rejected with
    "Record <id> already deleted."; a record that is not there is
    rejected with "Record <id> not found."; in both cases nothing is
    sent. *)
Theorem doDelete_gone (obj : Request) (isChild : bool) (su : option bool)
  (feather : Feather) (found : option json) :
  getFeather (name obj) = Ok (Some feather) ->
  negb isChild && f_isChild feather = false ->
  match su with
  | Some false =>
      isAuthorized {| auth_id := id obj; auth_feather := None;
                      auth_action := "canDelete" |} = Ok true
  | _ => True
  end ->
  doSelect {| s_name := name obj; s_id := id obj; s_showDeleted := true;
              s_properties := Some (noChildProps (f_properties feather));
              s_sanitize := true |} true None = Ok found ->
  (Js.truthy_opt found = false ->
   doDelete obj isChild su
   = ([], Fail (ErrString ("Record " +:+ Js.text (id obj) +:+ " not found.")))) /\
  (forall rec deleted,
     found = Some rec -> Js.truthy rec = true ->
     Js.prop rec "isDeleted" = Ok deleted -> Js.truthy_opt deleted = true ->
     doDelete obj isChild su
     = ([], Fail (ErrString ("Record " +:+ Js.text (id obj)
                             +:+ " already deleted.")))).
Proof.
  intros Hf Hc Ha Hs.
  assert (match su with
          | Some false =>
              isAuthorized {| auth_id := id obj; auth_feather := None;
                              auth_action := "canDelete" |}
          | _ => Ok true
          end = Ok true) as Hauth by (by destruct su as [[|]|]).
  unfold doDelete.
  rewrite (bind_lift_ok _ _ _ Hf), Hc, (bind_lift_ok _ _ _ Hauth). cbn [negb].
  rewrite (bind_lift_ok _ _ _ Hs). split.
  - by intros ->.
  - intros rec deleted -> Ht Hd Hdt. cbn [Js.truthy_opt default from_option].
    rewrite Ht. cbn [negb].
    by rewrite (bind_lift_ok _ _ _ Hd), Hdt.
Qed.

(** *** What an insert refuses *)

Lemma known_key (props : list (string * Property)) (k : string) :
  existsb (fun kp => String.eqb kp.1 k) props = true <-> k ∈ map fst props.
Proof.
  rewrite existsb_exists, list_elem_of_fmap. split.
  - intros ([k' pr] & Hin & Heq). apply String.eqb_eq in Heq. simpl in Heq.
    subst k'. exists (k, pr). split; [done|by apply list_elem_of_In].
  - intros ([k' pr] & -> & Hin). exists (k', pr).
    split; [by apply list_elem_of_In|apply String.eqb_refl].
Qed.

Lemma unknown_key_first (props : list (string * Property))
  (before after : list string) (k : string) :
  (forall x, x ∈ before -> x ∈ map fst props) ->
  k ∉ map fst props ->
  unknown_key props (before ++ k :: after) = Some k.
Proof.
  intros Hb Hk. induction before as [|x before IH]; cbn [app unknown_key].
  - destruct (existsb _ props) eqn:E; [|done]. by apply known_key in E.
  - rewrite (proj2 (known_key props x)) by (apply Hb; left).
    apply IH. intros y Hy. apply Hb. by right.
Qed.

(** X15.  An insert whose data has a property the feather does not have is
    rejected with "Feather <name> does not contain property <key>" for the
    first such property in the order of the data, before the id is looked
    up and before anything is sent. *)
Theorem doInsert_unknown_property (obj : Request) (isChild : bool)
  (su : option bool) (feather : Feather) (before after : list (string * json))
  (k : string) (v : json) :
  data obj = Some (JObj (before ++ (k, v) :: after)) ->
  getFeather (name obj) = Ok (Some feather) ->
  (forall x, x ∈ map fst before -> x ∈ map fst (f_properties feather)) ->
  k ∉ map fst (f_properties feather) ->
  doInsert obj isChild su
  = ([], Fail (ErrorObj ("Feather " +:+ Str.dq +:+ name obj +:+ Str.dq
                         +:+ " does not contain property " +:+ Str.dq
                         +:+ k +:+ Str.dq) None)).
Proof.
  intros Hd Hf Hb Hk. unfold doInsert. rewrite Hd, (bind_lift_ok _ _ _ Hf).
  rewrite map_app. cbn [map fst].
  by rewrite (unknown_key_first _ _ _ _ Hb Hk).
Qed.

(** X16.  A direct insert by a user who is not a super user and whom
    [isAuthorized] refuses [canCreate] on the feather is rejected with
    "Not authorized to create <name>" and status 401, after the id and
    natural key checks and before the primary key is drawn or anything is
    sent.  A child insert, or one with the flag left out, is not checked. *)
Theorem doInsert_unauthorized (obj : Request) (requested : list (string * json))
  (feather : Feather) :
  data obj = Some (JObj requested) ->
  getFeather (name obj) = Ok (Some feather) ->
  unknown_key (f_properties feather) (map fst requested) = None ->
  (Js.truthy_opt (Js.get requested "id") = true ->
   is_ok (getKey (Js.get requested "id") (Some true)) = true) ->
  match natural_key feather (f_properties feather) requested with
  | Some unique => getKeys (probe unique) None = Ok []
  | None => True
  end ->
  isAuthorized {| auth_id := None; auth_feather := Some (name obj);
                  auth_action := "canCreate" |} = Ok false ->
  doInsert obj false (Some false)
  = ([], Fail (ErrorObj ("Not authorized to create " +:+ Str.dq
                         +:+ name obj +:+ Str.dq) (Some 401))) /\
  (forall d unique found,
     afterUniqueCheck obj true (Some false) feather d unique found
     = match unique, found with
       | Some u, _ :: _ => reject (ErrorObj (unique_message feather u) None)
       | _, _ => afterAuthorized obj true feather d
       end) /\
  (forall isChild d unique found,
     afterUniqueCheck obj isChild None feather d unique found
     = match unique, found with
       | Some u, _ :: _ => reject (ErrorObj (unique_message feather u) None)
       | _, _ => afterAuthorized obj isChild feather d
       end).
Proof.
  intros Hd Hf Hk Hid Hprobe Hauth. split; [|split].
  - assert (Hcheck : forall d found,
              afterIdCheck obj false (Some false) feather requested d found
              = ([], Fail (ErrorObj ("Not authorized to create " +:+ Str.dq
                                     +:+ name obj +:+ Str.dq) (Some 401)))).
    { intros d found. unfold afterIdCheck.
      destruct (natural_key feather (f_properties feather) requested) as [u|].
      - rewrite (bind_lift_ok _ _ _ Hprobe). unfold afterUniqueCheck.
        cbn [negb]. by rewrite (bind_lift_ok _ _ _ Hauth).
      - unfold afterUniqueCheck. cbn [negb]. by rewrite (bind_lift_ok _ _ _ Hauth). }
    unfold doInsert. rewrite Hd, (bind_lift_ok _ _ _ Hf), Hk.
    destruct (Js.truthy_opt (Js.get requested "id")); cbn [negb]; [|apply Hcheck].
    specialize (Hid eq_refl).
    destruct (getKey (Js.get requested "id") (Some true)) as [found|e];
      [|discriminate Hid].
    rewrite (bind_lift_ok _ _ _ eq_refl). apply Hcheck.
  - intros d unique found. unfold afterUniqueCheck. cbn [negb].
    rewrite (bind_lift_ok _ _ _ eq_refl). by destruct unique, found.
  - intros isChild d unique found. unfold afterUniqueCheck.
    rewrite (bind_lift_ok _ _ _ eq_refl). by destruct unique, found.
Qed.

(** *** What an update refuses *)

Section Updating.

Variables (obj : Request) (isChild : bool) (su : option bool).
Variables (feather : Feather) (pk : option json).

Hypothesis Hpatches : patches_of (data obj) <> [].
Hypothesis Hfeather : getFeather (name obj) = Ok (Some feather).
Hypothesis Hchild : negb isChild && f_isChild feather = false.
Hypothesis Hauth :
  match su with
  | Some false =>
      isAuthorized {| auth_id := id obj; auth_feather := None;
                      auth_action := "canUpdate" |} = Ok true
  | _ => True
  end.
Hypothesis Hkey : getKey (id obj) None = Ok pk.

Lemma doUpdate_afterDoSelect (old : option json) :
  doSelect {| s_name := name obj; s_id := id obj; s_showDeleted := false;
              s_properties := Some (noChildProps (f_properties feather));
              s_sanitize := false |} isChild None = Ok old ->
  doUpdate obj isChild su = afterDoSelect obj isChild feather pk old.
Proof using Hpatches Hfeather Hchild Hauth Hkey.
  intros Hs. unfold doUpdate.
  destruct (patches_of (data obj)) as [|p0 ps] eqn:Ep; [done|].
  rewrite (bind_lift_ok _ _ _ Hfeather), Hchild.
  assert (match su with
          | Some false =>
              isAuthorized {| auth_id := id obj; auth_feather := None;
                              auth_action := "canUpdate" |}
          | _ => Ok true
          end = Ok true) as Hok by (by destruct su as [[|]|]).
  rewrite (bind_lift_ok _ _ _ Hok). cbn [negb].
  by rewrite (bind_lift_ok _ _ _ Hkey), (bind_lift_ok _ _ _ Hs).
Qed.

(** X17.  An update of an id for which the select finds no record does not
    resolve to [false]: the old record is sanitized before it is tested,
    and sanitizing [undefined] throws, so the call is rejected with that
    SyntaxError, and nothing is sent. *)
Theorem doUpdate_missing_record :
  doSelect {| s_name := name obj; s_id := id obj; s_showDeleted := false;
              s_properties := Some (noChildProps (f_properties feather));
              s_sanitize := false |} isChild None = Ok None ->
  exists msg, doUpdate obj isChild su = ([], Fail (SyntaxError msg)).
Proof using Hpatches Hfeather Hchild Hauth Hkey.
  intros Hs. rewrite (doUpdate_afterDoSelect None Hs).
  eexists. unfold afterDoSelect. cbn [locked_out].
  rewrite (bind_lift_ok _ _ _ eq_refl). reflexivity.
Qed.

Section WithRecord.

Variables (old : option json) (oldRec newRec : json) (cacheRec : option json).
Variables (k0 : string) (v0 : json) (rest0 : list (string * json)).
Variable deleted : option json.

Hypothesis Hselect :
  doSelect {| s_name := name obj; s_id := id obj; s_showDeleted := false;
              s_properties := Some (noChildProps (f_properties feather));
              s_sanitize := false |} isChild None = Ok old.
Hypothesis Hsanitize : sanitize old = Ok oldRec.
Hypothesis Hentries : Js.entries oldRec = Ok ((k0, v0) :: rest0).
Hypothesis Hdeleted : Js.prop oldRec "isDeleted" = Ok deleted.
Hypothesis Hlive : Js.truthy_opt deleted = false.
Hypothesis Hpatch : applyPatch oldRec (JArr (patches_of (data obj))) = Ok newRec.
Hypothesis Hcache :
  match cache obj with
  | Some c => if Js.truthy c then Some <$> applyPatch oldRec c else Ok None
  | None => Ok None
  end = Ok cacheRec.

(** [updRec] once the system fields are written. *)
Definition stamped : list (string * json) :=
  stamp feather (Js.fields_of oldRec) (Js.fields_of newRec).

(** X18.  An update that leaves a required property null is rejected with
    "<key> is required." for the first such property of the feather, and
    nothing is sent. *)
Theorem doUpdate_required (key : string) :
  requiredIsNull (f_properties feather) stamped = Some key ->
  doUpdate obj isChild su
  = ([], Fail (ErrString (Str.dq +:+ key +:+ Str.dq +:+ " is required."))).
Proof using Hpatches Hfeather Hchild Hauth Hkey Hselect Hsanitize Hentries
  Hdeleted Hlive Hpatch Hcache.
  intros Hreq. rewrite (doUpdate_afterDoSelect old Hselect).
  unfold afterDoSelect. cbn [locked_out].
  rewrite (bind_lift_ok _ _ _ eq_refl).
  rewrite (bind_lift_ok _ _ _ Hsanitize), (bind_lift_ok _ _ _ Hentries),
    (bind_lift_ok _ _ _ Hdeleted), Hlive. cbn [orb].
  rewrite (bind_lift_ok _ _ _ Hpatch), (bind_lift_ok _ _ _ Hcache).
  fold stamped. by rewrite Hreq.
Qed.

(** X19.  An update that changes the value of a natural key (autonumber or
    not) to a value some record of the defining feather holds is rejected
    with the message of the insert, "Value '<value>' assigned to <Label>
    on <Feather> is not unique to data type <Defining feather>.", without
    a status code, and nothing is sent; the probe is made for the first
    natural key whose value changed. *)
Theorem doUpdate_natural_key_conflict (unique : Unique) (k : option json)
  (ks : list (option json)) :
  requiredIsNull (f_properties feather) stamped = None ->
  uniqueChanged feather (f_properties feather) (Js.fields_of oldRec) stamped
  = Some unique ->
  getKeys (probe unique) None = Ok (k :: ks) ->
  doUpdate obj isChild su
  = ([], Fail (ErrorObj (unique_message feather unique) None)).
Proof using Hpatches Hfeather Hchild Hauth Hkey Hselect Hsanitize Hentries
  Hdeleted Hlive Hpatch Hcache.
  intros Hreq Hu Hprobe. rewrite (doUpdate_afterDoSelect old Hselect).
  unfold afterDoSelect. cbn [locked_out].
  rewrite (bind_lift_ok _ _ _ eq_refl).
  rewrite (bind_lift_ok _ _ _ Hsanitize), (bind_lift_ok _ _ _ Hentries),
    (bind_lift_ok _ _ _ Hdeleted), Hlive. cbn [orb].
  rewrite (bind_lift_ok _ _ _ Hpatch), (bind_lift_ok _ _ _ Hcache).
  fold stamped. rewrite Hreq, Hu.
  by rewrite (bind_lift_ok _ _ _ Hprobe).
Qed.

End WithRecord.
End Updating.

(** *** What an update leaves alone *)

(** A value that [===] compares by value: not an array, not an object. *)
Definition primitive (v : option json) : bool :=
  match v with
  | Some (JArr _) | Some (JObj _) => false
  | _ => true
  end.

Lemma strict_eq_refl (v : option json) :
  primitive v = true -> Js.strict_eq v v = true.
Proof.
  destruct v as [[|b|n|s|l|o]|]; try done; intros _; simpl.
  - by destruct b.
  - apply Z.eqb_refl.
  - apply String.eqb_refl.
Qed.

Lemma get_remove_eq (o : list (string * json)) (k : string) :
  Js.get (Js.remove o k) k = None.
Proof.
  induction o as [|[k0 v0] o IH]; simpl; [done|].
  destruct (String.eqb k0 k) eqn:E; simpl; [done|]. by rewrite E.
Qed.

Lemma get_set_opt_eq (o : list (string * json)) (k : string) (v : option json) :
  Js.get (Js.set_opt o k v) k = v.
Proof. destruct v; [apply Pg.get_set_eq|apply get_remove_eq]. Qed.

Lemma get_set_opt_ne (o : list (string * json)) (k k' : string) (v : option json) :
  k <> k' -> Js.get (Js.set_opt o k v) k' = Js.get o k'.
Proof. destruct v; [apply Pg.get_set_ne|apply get_remove_ne]. Qed.

Lemma stamp_created (feather : Feather) (oldRec newRec : list (string * json))
  (key : string) :
  key = "created" \/ key = "createdBy" ->
  Js.get (stamp feather oldRec newRec) key = Js.get oldRec key.
Proof.
  intros Hk. unfold stamp.
  destruct (existsb _ (f_properties feather)).
  all: destruct Hk as [-> | ->].
  all: repeat first [ rewrite Pg.get_set_ne by done
                    | rewrite get_set_opt_ne by done
                    | rewrite get_set_opt_eq ].
  all: reflexivity.
Qed.

Lemma update_prop_same (oldRec : list (string * json)) (key t : string)
  (pr : Property) (st : updating) :
  p_type pr = Scalar t ->
  Js.strict_eq (Js.get (up_rec st) key) (Js.get oldRec key) = true ->
  update_prop oldRec key pr st = mret st.
Proof. intros Ht Heq. unfold update_prop. by rewrite Ht, Heq. Qed.

(** X20.  A patch cannot change [created] or [createdBy]: the record that
    is written back takes both from the old record, whatever the patch
    says, so when the old value is a string (or another primitive) the
    turn of the property loop for it finds nothing changed, and the
    statement and nested calls of the update are those of the feather
    without that property. *)
Theorem doUpdate_keeps_created (feather : Feather)
  (oldRec newRec : list (string * json)) (before after : list (string * Property))
  (key t : string) (pr : Property) (toks ary : list string)
  (ps : list (option json)) (n : nat) (sets : list (Sql.path * option json))
  (calls : list Call) :
  key = "created" \/ key = "createdBy" ->
  key ∉ map fst before ->
  p_type pr = Scalar t ->
  primitive (Js.get oldRec key) = true ->
  let st := {| up_tokens := toks; up_ary := ary; up_params := ps; up_p := n;
               up_sets := sets; up_doList := calls;
               up_rec := stamp feather oldRec newRec |} in
  Js.get (up_rec st) key = Js.get oldRec key /\
  nextProp oldRec (before ++ (key, pr) :: after) st
  = nextProp oldRec (before ++ after) st.
Proof.
  intros Hk Hb Ht Hprim st.
  assert (Hget : Js.get (up_rec st) key = Js.get oldRec key)
    by (by apply stamp_created).
  split; [exact Hget|].
  rewrite !nextProp_app. cbn [nextProp].
  destruct (nextProp oldRec before st) as [l1 [st1|e]] eqn:H1; [|done].
  apply nextProp_grows in H1 as [_ Hrec].
  unfold mbind at 1 3. unfold io_mbind, io_bind.
  rewrite (update_prop_same oldRec key t pr st1 Ht).
  - rewrite bind_ret. done.
  - rewrite Hrec by done. rewrite Hget. by apply strict_eq_refl.
Qed.

(** *** What an update sends *)

Definition is_call (a : action) : Prop :=
  match a with
  | Invoke _ => True
  | Query _ => False
  end.

Lemma update_prop_calls (oldRec : list (string * json)) (key : string)
  (pr : Property) (st : updating) :
  Forall is_call (update_prop oldRec key pr st).1.
Proof. unfold update_prop. repeat only_step. Qed.

Lemma nextProp_calls (oldRec : list (string * json))
  (props : list (string * Property)) :
  forall st, Forall is_call (nextProp oldRec props st).1.
Proof.
  induction props as [|[key pr] props IH]; intros st; [by constructor|].
  cbn [nextProp]. apply only_bind; [apply update_prop_calls|auto].
Qed.

(** X21.  A [doUpdate] that resolves has sent exactly one statement, the
    UPDATE of the feather's table at the key the lookup by id gave, with
    nested calls before it (the changes of child records); after it an
    update that is not a child has sent the insert of the log entry and
    then the unlock of the record by its id alone, whoever holds the lock,
    and a child nothing.  Or else it has sent nothing at all. *)
Theorem doUpdate_sends (obj : Request) (isChild : bool) (su : option bool)
  (acts : list action) (r : option json) :
  doUpdate obj isChild su = (acts, Ok r) ->
  acts = [] \/
  exists feather pk st pre post,
    getFeather (name obj) = Ok (Some feather) /\
    getKey (id obj) None = Ok pk /\
    acts = pre ++ Query (update_statement feather pk st) :: post /\
    Forall is_call pre /\
    if isChild then post = []
    else exists log,
        post = [Invoke (CallInsert log true None);
                Invoke (CallUnlock (id obj))].
Proof.
  unfold doUpdate. intros H.
  destruct (patches_of (data obj)); [by injection H as <-; left|].
  apply bind_ok in H as (? & [feather|] & ? & Hf & H & ->); [|discriminate H].
  apply lift_ok in Hf as [Hf ->].
  destruct (negb isChild && _); [discriminate H|].
  apply bind_ok in H as (? & authorized & ? & Hl & H & ->).
  apply lift_ok in Hl as [_ ->].
  destruct (negb authorized); [discriminate H|].
  apply bind_ok in H as (? & pk & ? & Hk & H & ->).
  apply lift_ok in Hk as [Hk ->].
  apply bind_ok in H as (? & old & ? & Hl & H & ->).
  apply lift_ok in Hl as [_ ->].
  unfold afterDoSelect in H.
  apply bind_ok in H as (? & locked & ? & Hl & H & ->).
  apply lift_ok in Hl as [_ ->].
  destruct locked.
  { apply bind_ok in H as (? & ? & ? & _ & H & _). discriminate H. }
  apply bind_ok in H as (? & oldRec & ? & Hl & H & ->).
  apply lift_ok in Hl as [_ ->].
  apply bind_ok in H as (? & keys & ? & Hl & H & ->).
  apply lift_ok in Hl as [_ ->].
  apply bind_ok in H as (? & deleted & ? & Hl & H & ->).
  apply lift_ok in Hl as [_ ->].
  destruct (_ || _); [by injection H as <-; left|].
  apply bind_ok in H as (? & newRec & ? & Hl & H & ->).
  apply lift_ok in Hl as [_ ->].
  apply bind_ok in H as (? & cacheRec & ? & Hl & H & ->).
  apply lift_ok in Hl as [_ ->].
  destruct (requiredIsNull _ _); [discriminate H|].
  apply bind_ok in H as (lu & ? & ? & Hu & H & ->).
  assert (lu = []) as ->.
  { destruct (uniqueChanged _ _ _ _).
    - apply bind_ok in Hu as (? & found & ? & Hl & Hu & ->).
      apply lift_ok in Hl as [_ ->].
      destruct found; [by injection Hu as <-|discriminate Hu].
    - by injection Hu as <-. }
  apply bind_ok in H as (lp & st & ? & Hn & H & ->).
  pose proof (nextProp_calls (Js.fields_of oldRec) (f_properties feather)
                {| up_tokens := [toSnakeCase (f_name feather)]; up_ary := [];
                   up_params := []; up_p := 1; up_sets := []; up_doList := [];
                   up_rec := stamp feather (Js.fields_of oldRec)
                               (Js.fields_of newRec) |}) as Hcalls.
  rewrite Hn in Hcalls. cbn [fst] in Hcalls.
  apply bind_ok in H as (ld & ? & ? & Hd & H & ->).
  injection Hd as <-.
  apply bind_ok in H as (? & ? & ? & Hl & H & ->).
  apply lift_ok in Hl as [_ ->].
  apply bind_ok in H as (? & ? & ? & He & H & ->).
  injection He as <-.
  apply bind_ok in H as (? & ? & ? & Hl & H & ->).
  apply lift_ok in Hl as [_ ->].
  right. exists feather, pk, st.
  exists (lp ++ map fst (map (fun c => (Invoke c, call c)) (up_doList st))).
  assert (Hpre : Forall is_call
                   (lp ++ map fst (map (fun c => (Invoke c, call c)) (up_doList st)))).
  { apply Forall_app. split; [exact Hcalls|].
    rewrite map_map. cbn [fst]. rewrite Forall_map. apply Forall_forall. by intros ? _. }
  destruct isChild.
  - injection H as <- _. exists []. cbn [app].
    split; [done|]. split; [done|]. split; [by rewrite <- !app_assoc|]. done.
  - apply bind_ok in H as (? & [res|] & ? & Hl & H & ->); [|discriminate H].
    apply lift_ok in Hl as [_ ->].
    apply bind_ok in H as (? & ? & ? & He & H & ->). injection He as <-.
    apply bind_ok in H as (? & ? & ? & Hl & H & ->). apply lift_ok in Hl as [_ ->].
    apply bind_ok in H as (? & ? & ? & He & H & ->). injection He as <-.
    apply bind_ok in H as (? & ? & ? & Hl & H & ->). apply lift_ok in Hl as [_ ->].
    destruct cacheRec; [|discriminate H]. injection H as <- _.
    eexists. split; [done|]. split; [done|].
    split; [cbn [app]; rewrite <- !app_assoc; cbn [app]; reflexivity|].
    split; [done|]. by eexists.
Qed.

End Crud.
End Crud.


(** ** Record locks

    [crud.lock] and [crud.unlock] on the rows of [object].  The type of
    the column [lock] is declared by the database scripts; its fields are
    the ones the statements here and [doDelete] name, [username],
    [_nodeid] and [_eventkey], and a time, in the order [ROW] is given
    them. *)

Module Locks.

(** [=] of PostgreSQL: NULL equals nothing. *)
Definition equals (a b : option json) : bool :=
  Pg.compare (fun _ _ _ => false) "=" a b.

(** [ROW($1, now(), $2, $3)] *)
Definition ROW (username now nodeid eventkey : json) : json :=
  JObj [("username", username); ("created", now);
        ("_nodeid", nodeid); ("_eventkey", eventkey)].

(** [SELECT lock FROM object WHERE id = $1] and its callback. *)
Definition checkLock (id : option json) (d : Pg.db) : result unit :=
  match List.filter (fun r => equals (Pg.row_id r) id) (Pg.objects d) with
  | [] => Fail (ErrorObj ("Record " +:+ Js.text id +:+ " not found.") None)
  | r :: _ =>
      if Js.truthy_opt (Pg.column r "lock")
      then Fail (ErrorObj ("Record " +:+ Js.text id +:+ " is already locked.") None)
      else Ok ()
  end.

(** [UPDATE object SET lock = ROW($1, now(), $2, $3) WHERE id = $4] *)
Definition doLock (nodeid id username eventkey : option json) (now : json)
  (d : Pg.db) : Pg.db :=
  {| Pg.objects :=
       map (fun r =>
              if equals (Pg.row_id r) id
              then Pg.set_column "lock"
                     (ROW (default JNull username) now (default JNull nodeid)
                        (default JNull eventkey)) r
              else r)
         (Pg.objects d);
     Pg.subscriptions := Pg.subscriptions d |}.

(** [crud.lock]; [now] is the time of the database. *)
Definition lock (nodeid id username eventkey : option json) (now : json)
  (d : Pg.db) : Pg.db * result bool :=
  if negb (Js.truthy_opt nodeid)
  then (d, Fail (ErrorObj "Lock requires a node id." None))
  else if negb (Js.truthy_opt eventkey)
  then (d, Fail (ErrorObj "Lock requires an eventkey." None))
  else if negb (Js.truthy_opt id)
  then (d, Fail (ErrorObj "Lock requires an object id." None))
  else if negb (Js.truthy_opt username)
  then (d, Fail (ErrorObj "Lock requires a username." None))
  else
    match checkLock id d with
    | Fail e => (d, Fail e)
    | Ok _ => (doLock nodeid id username eventkey now d, Ok true)
    end.

Record Criteria : Type := {
  c_id : option json;
  c_username : option json;
  c_eventKey : option json;
  c_nodeId : option json
}.

(** The statement of [unlock] as it is put together: the text, the
    parameters, and the conditions with the number each one writes after
    its [$]. *)
Record Unlock : Type := {
  u_sql : string;
  u_params : list json;
  u_where : list (Sql.path * nat)
}.

(** [params.push(value); sql += " AND <column> = $" + params.length] *)
Definition criterion (value : option json) (column : string) (col : Sql.path)
  (st : Unlock) : Unlock :=
  if Js.truthy_opt value
  then
    let params := u_params st ++ [default JNull value] in
    {| u_sql := u_sql st +:+ " AND " +:+ column +:+ " = $"
                +:+ pretty (length params);
       u_params := params;
       u_where := u_where st ++ [(col, length params)] |}
  else st.

Definition unlock_statement (c : Criteria) : Unlock :=
  let st := {| u_sql := "UPDATE object SET lock = NULL WHERE true ";
               u_params := []; u_where := [] |} in
  let st := if Js.truthy_opt (c_id c)
            then {| u_sql := u_sql st +:+ " AND object.id = $1";
                    u_params := u_params st ++ [default JNull (c_id c)];
                    u_where := u_where st ++ [(["id"], 1%nat)] |}
            else st in
  let st := criterion (c_username c) "username(lock)" ["lock"; "username"] st in
  let st := criterion (c_eventKey c) "_eventkey(lock)" ["lock"; "_eventkey"] st in
  criterion (c_nodeId c) "_nodeid(lock)" ["lock"; "_nodeid"] st.

(** [sql += " RETURNING id; "]: the text that is sent. *)
Definition unlock_text (c : Criteria) : string :=
  u_sql (unlock_statement c) +:+ " RETURNING id; ".

(** A row meets the conditions of the statement; [$n] is the [n]th
    parameter. *)
Definition satisfies (st : Unlock) (r : Pg.row) : bool :=
  forallb (fun w : Sql.path * nat =>
             equals (Pg.lookup (Pg.cols r) w.1) (u_params st !! (w.2 - 1)%nat))
    (u_where st).

(** [RETURNING id] *)
Definition returned (r : Pg.row) : json :=
  JObj [("id", default JNull (Pg.row_id r))].

(** [crud.unlock] *)
Definition unlock (c : Criteria) (d : Pg.db) : Pg.db * result (list json) :=
  let st := unlock_statement c in
  match u_params st with
  | [] => (d, Fail (ErrorObj "No lock criteria defined." None))
  | _ =>
      ({| Pg.objects :=
            map (fun r => if satisfies st r then Pg.set_column "lock" JNull r
                          else r)
              (Pg.objects d);
          Pg.subscriptions := Pg.subscriptions d |},
       Ok (map returned (List.filter (satisfies st) (Pg.objects d))))
  end.

(** What the criteria ask of a row, one by one. *)
Definition meets (value : option json) (col : Sql.path) (r : Pg.row) : bool :=
  if Js.truthy_opt value then equals (Pg.lookup (Pg.cols r) col) value else true.

Definition matches (c : Criteria) (r : Pg.row) : bool :=
  meets (c_id c) ["id"] r
  && meets (c_username c) ["lock"; "username"] r
  && meets (c_eventKey c) ["lock"; "_eventkey"] r
  && meets (c_nodeId c) ["lock"; "_nodeid"] r.

Definition given (c : Criteria) : bool :=
  Js.truthy_opt (c_id c) || Js.truthy_opt (c_username c)
  || Js.truthy_opt (c_eventKey c) || Js.truthy_opt (c_nodeId c).

Lemma json_eqb_refl : forall v, Pg.json_eqb v v = true.
Proof.
  fix IH 1. intros [ | b | n | s | l | o]; simpl.
  - done.
  - by destruct b.
  - apply Z.eqb_refl.
  - apply String.eqb_refl.
  - induction l as [|x xs IHl]; [done|]. rewrite IH. exact IHl.
  - induction o as [|[k x] xs IHo]; [done|].
    rewrite String.eqb_refl, IH. exact IHo.
Qed.

Lemma json_eqb_eq : forall a b, Pg.json_eqb a b = true -> a = b.
Proof.
  fix IH 1.
  intros [ | x | x | x | l | o] [ | y | y | y | l' | o']; simpl;
    try discriminate; intros H.
  - done.
  - f_equal. by apply Bool.eqb_prop.
  - f_equal. by apply Z.eqb_eq.
  - f_equal. by apply String.eqb_eq.
  - f_equal. revert l' H.
    induction l as [|a l IHl]; intros [|b l'] H; try discriminate; [done|].
    apply andb_true_iff in H as [H1 H2]. f_equal; [by apply IH|by apply IHl].
  - f_equal. revert o' H.
    induction o as [|[k a] o IHo]; intros [|[k' b] o'] H; try discriminate;
      [done|].
    apply andb_true_iff in H as [H1 H2]. apply andb_true_iff in H1 as [H0 H1].
    apply String.eqb_eq in H0 as ->.
    f_equal; [f_equal; by apply IH|by apply IHo].
Qed.

Lemma equals_refl (v : json) :
  Js.truthy v = true -> equals (Some v) (Some v) = true.
Proof.
  intros Hv. unfold equals, Pg.compare.
  destruct v; try done; cbn [String.eqb Ascii.eqb Bool.eqb];
    apply json_eqb_refl.
Qed.

Lemma equals_eq (a : option json) (v : json) :
  equals a (Some v) = true -> a = Some v.
Proof.
  unfold equals, Pg.compare. intros H.
  destruct a as [[]|]; try done; destruct v; try done;
    cbn [String.eqb Ascii.eqb Bool.eqb] in H;
    by apply json_eqb_eq in H as ->.
Qed.

Lemma criterion_params (value : option json) (column : string)
  (col : Sql.path) (st : Unlock) :
  u_params (criterion value column col st)
  = u_params st ++ (if Js.truthy_opt value then [default JNull value] else []).
Proof.
  unfold criterion. destruct (Js.truthy_opt value); cbn [u_params]; [done|].
  by rewrite app_nil_r.
Qed.

Lemma criterion_where (value : option json) (column : string)
  (col : Sql.path) (st : Unlock) :
  u_where (criterion value column col st)
  = u_where st ++ (if Js.truthy_opt value
                   then [(col, S (length (u_params st)))] else []).
Proof.
  unfold criterion. destruct (Js.truthy_opt value); cbn [u_where].
  - by rewrite length_app, Nat.add_1_r.
  - by rewrite app_nil_r.
Qed.

Lemma unlock_params (c : Criteria) :
  u_params (unlock_statement c)
  = (if Js.truthy_opt (c_id c) then [default JNull (c_id c)] else [])
    ++ (if Js.truthy_opt (c_username c) then [default JNull (c_username c)] else [])
    ++ (if Js.truthy_opt (c_eventKey c) then [default JNull (c_eventKey c)] else [])
    ++ (if Js.truthy_opt (c_nodeId c) then [default JNull (c_nodeId c)] else []).
Proof.
  unfold unlock_statement. cbv zeta. rewrite !criterion_params.
  destruct (Js.truthy_opt (c_id c)); cbn [u_params app];
    by rewrite <- ?app_assoc.
Qed.

Lemma unlock_where (c : Criteria) :
  let n1 := if Js.truthy_opt (c_id c) then 1%nat else 0%nat in
  let n2 := if Js.truthy_opt (c_username c) then S n1 else n1 in
  let n3 := if Js.truthy_opt (c_eventKey c) then S n2 else n2 in
  u_where (unlock_statement c)
  = (if Js.truthy_opt (c_id c) then [(["id"], 1%nat)] else [])
    ++ (if Js.truthy_opt (c_username c)
        then [(["lock"; "username"], S n1)] else [])
    ++ (if Js.truthy_opt (c_eventKey c)
        then [(["lock"; "_eventkey"], S n2)] else [])
    ++ (if Js.truthy_opt (c_nodeId c)
        then [(["lock"; "_nodeid"], S n3)] else []).
Proof.
  unfold unlock_statement. cbv zeta.
  rewrite !criterion_where, !criterion_params.
  destruct (Js.truthy_opt (c_id c)), (Js.truthy_opt (c_username c)),
    (Js.truthy_opt (c_eventKey c)); cbn [u_params u_where app length];
    by rewrite <- ?app_assoc.
Qed.

Lemma satisfies_matches (c : Criteria) (r : Pg.row) :
  satisfies (unlock_statement c) r = matches c r.
Proof.
  unfold satisfies. rewrite unlock_where, unlock_params. cbv zeta.
  unfold matches, meets.
  destruct (c_id c) as [i|], (c_username c) as [u|], (c_eventKey c) as [k|],
    (c_nodeId c) as [n|]; cbn [Js.truthy_opt];
    repeat match goal with
           | |- context [Js.truthy ?v] => destruct (Js.truthy v)
           end;
    cbn [app length forallb fst snd default Nat.sub lookup list_lookup andb];
    rewrite ?andb_true_r, ?andb_assoc; reflexivity.
Qed.

Lemma given_params (c : Criteria) :
  u_params (unlock_statement c) = [] <-> given c = false.
Proof.
  rewrite unlock_params. unfold given.
  destruct (Js.truthy_opt (c_id c)), (Js.truthy_opt (c_username c)),
    (Js.truthy_opt (c_eventKey c)), (Js.truthy_opt (c_nodeId c));
    cbn; split; congruence.
Qed.

Lemma row_id_set_lock (v : json) (r : Pg.row) :
  Pg.row_id (Pg.set_column "lock" v r) = Pg.row_id r.
Proof. unfold Pg.row_id, Pg.column, Pg.set_column. simpl. by apply Pg.get_set_ne. Qed.

Lemma column_set_lock (v : json) (r : Pg.row) :
  Pg.column (Pg.set_column "lock" v r) "lock" = Some v.
Proof. unfold Pg.column, Pg.set_column. simpl. apply Pg.get_set_eq. Qed.

Lemma filter_id_map (f : Pg.row -> Pg.row) (i : option json) (l : list Pg.row) :
  (forall r, Pg.row_id (f r) = Pg.row_id r) ->
  List.filter (fun r => equals (Pg.row_id r) i) (map f l)
  = map f (List.filter (fun r => equals (Pg.row_id r) i) l).
Proof.
  intros Hf. induction l as [|r l IH]; [done|].
  simpl. rewrite Hf. destruct (equals (Pg.row_id r) i); simpl; by rewrite IH.
Qed.

Lemma filter_head {A : Type} (p : A -> bool) (l : list A) (x : A) (xs : list A) :
  List.filter p l = x :: xs -> p x = true /\ In x l.
Proof.
  intros E. assert (H : In x (List.filter p l)) by (rewrite E; by left).
  apply filter_In in H as [? ?]. done.
Qed.

(** The row [doLock] leaves where it found [r]. *)
Definition locked (nodeid id username eventkey : option json) (now : json)
  (r : Pg.row) : Pg.row :=
  if equals (Pg.row_id r) id
  then Pg.set_column "lock"
         (ROW (default JNull username) now (default JNull nodeid)
            (default JNull eventkey)) r
  else r.

Lemma row_id_locked (nodeid id username eventkey : option json) (now : json)
  (r : Pg.row) :
  Pg.row_id (locked nodeid id username eventkey now r) = Pg.row_id r.
Proof. unfold locked. destruct (equals _ _); [apply row_id_set_lock|done]. Qed.

(** A lock that succeeds: every argument was there, a row has the id and
    the first such row had no lock. *)
Lemma lock_inv (nodeid id username eventkey : option json) (now : json)
  (d d1 : Pg.db) (b : bool) :
  lock nodeid id username eventkey now d = (d1, Ok b) ->
  b = true /\
  Js.truthy_opt nodeid = true /\ Js.truthy_opt eventkey = true /\
  Js.truthy_opt id = true /\ Js.truthy_opt username = true /\
  d1 = doLock nodeid id username eventkey now d /\
  exists r rest,
    List.filter (fun r => equals (Pg.row_id r) id) (Pg.objects d) = r :: rest /\
    Js.truthy_opt (Pg.column r "lock") = false.
Proof.
  unfold lock, checkLock. intros H.
  destruct (Js.truthy_opt nodeid); [|discriminate H].
  destruct (Js.truthy_opt eventkey); [|discriminate H].
  destruct (Js.truthy_opt id); [|discriminate H].
  destruct (Js.truthy_opt username); [|discriminate H].
  cbn [negb] in H.
  destruct (List.filter _ _) as [|r rest] eqn:E; [discriminate H|].
  destruct (Js.truthy_opt (Pg.column r "lock")) eqn:El; [discriminate H|].
  injection H as <- <-. repeat split; try done. by exists r, rest.
Qed.

(** The row [unlock] leaves where it found [r]. *)
Definition release (c : Criteria) (r : Pg.row) : Pg.row :=
  if matches c r then Pg.set_column "lock" JNull r else r.

Lemma row_id_release (c : Criteria) (r : Pg.row) :
  Pg.row_id (release c r) = Pg.row_id r.
Proof. unfold release. destruct (matches c r); [apply row_id_set_lock|done]. Qed.

Lemma unlock_given (c : Criteria) (d : Pg.db) :
  given c = true ->
  unlock c d
  = ({| Pg.objects := map (release c) (Pg.objects d);
        Pg.subscriptions := Pg.subscriptions d |},
     Ok (map returned (List.filter (matches c) (Pg.objects d)))).
Proof.
  intros G. unfold unlock.
  destruct (u_params (unlock_statement c)) as [|p ps] eqn:E.
  - apply given_params in E. congruence.
  - f_equal; [f_equal|f_equal; f_equal].
    + apply map_ext. intros r. unfold release. by rewrite satisfies_matches.
    + apply filter_ext. intros r. apply satisfies_matches.
Qed.

(** X24.  [unlock] releases exactly the rows that meet every criterion
    given: the number written after each [$] is the place of that
    criterion among the parameters, whichever criteria are left out.  The
    rows that meet them get a NULL lock and their ids are returned, all
    other rows stay as they are; without any criterion the call is
    rejected and nothing is sent. *)
Theorem unlock_criteria (c : Criteria) (d : Pg.db) :
  unlock c d
  = if given c
    then ({| Pg.objects :=
               map (fun r => if matches c r
                             then Pg.set_column "lock" JNull r else r)
                 (Pg.objects d);
             Pg.subscriptions := Pg.subscriptions d |},
          Ok (map returned (List.filter (matches c) (Pg.objects d))))
    else (d, Fail (ErrorObj "No lock criteria defined." None)).
Proof.
  destruct (given c) eqn:G; [by apply unlock_given|].
  unfold unlock. apply given_params in G. by rewrite G.
Qed.

(** X25.  A lock is exclusive.  When [lock] has resolved, every row with
    the id carries the lock of the caller, and until it is released any
    further [lock] of that id, by whichever node, user and event key, is
    rejected with "Record <id> is already locked." and changes nothing. *)
Theorem lock_exclusive (nodeid id username eventkey : option json)
  (now : json) (d d1 : Pg.db) (b : bool) :
  lock nodeid id username eventkey now d = (d1, Ok b) ->
  b = true /\
  (forall r, r ∈ Pg.objects d1 -> equals (Pg.row_id r) id = true ->
     Pg.column r "lock"
     = Some (ROW (default JNull username) now (default JNull nodeid)
               (default JNull eventkey))) /\
  forall nodeid' username' eventkey' now',
    Js.truthy_opt nodeid' = true ->
    Js.truthy_opt username' = true ->
    Js.truthy_opt eventkey' = true ->
    lock nodeid' id username' eventkey' now' d1
    = (d1, Fail (ErrorObj ("Record " +:+ Js.text id +:+ " is already locked.")
                   None)).
Proof.
  intros H.
  apply lock_inv in H as (-> & Hn & Hk & Hi & Hu & -> & r0 & rest & E & _).
  split; [done|]. split.
  - intros r Hin Hid. cbn [doLock Pg.objects] in Hin.
    apply list_elem_of_fmap in Hin as (r1 & -> & _).
    fold (locked nodeid id username eventkey now r1) in *.
    rewrite row_id_locked in Hid. unfold locked. rewrite Hid.
    apply column_set_lock.
  - intros n' u' k' t' Hn' Hu' Hk'. unfold lock, checkLock.
    rewrite Hn', Hk', Hi, Hu'. cbn [negb doLock Pg.objects].
    rewrite (filter_id_map (locked nodeid id username eventkey now))
      by apply row_id_locked.
    rewrite E. cbn [map].
    apply filter_head in E as [E _].
    unfold locked at 1. rewrite E. by rewrite column_set_lock.
Qed.
Lemma lookup_id (r : Pg.row) : Pg.lookup (Pg.cols r) ["id"] = Pg.row_id r.
Proof. done. Qed.

Lemma lookup_lock (v : json) (r : Pg.row) (f : string) :
  Pg.lookup (Pg.cols (Pg.set_column "lock" v r)) ["lock"; f]
  = match v with JObj inner => Js.get inner f | _ => None end.
Proof.
  cbn [Pg.lookup Pg.set_column Pg.cols]. by rewrite Pg.get_set_eq.
Qed.

Lemma meets_same (value arg : option json) (col : Sql.path) (r : Pg.row) :
  (Js.truthy_opt value = true -> value = arg) ->
  (Js.truthy_opt arg = true ->
   Pg.lookup (Pg.cols r) col = Some (default JNull arg)) ->
  meets value col r = true.
Proof.
  intros Hv Hr. unfold meets.
  destruct (Js.truthy_opt value) eqn:T; [|done].
  rewrite Hv in * by done. rewrite Hr by done.
  destruct arg as [a|]; [|done]. by apply equals_refl.
Qed.

(** The lock of a call is met by criteria that name nothing else. *)
Lemma matches_locked (nodeid id username eventkey : option json) (now : json)
  (c : Criteria) (r : Pg.row) :
  (Js.truthy_opt (c_id c) = true -> c_id c = id) ->
  (Js.truthy_opt (c_username c) = true -> c_username c = username) ->
  (Js.truthy_opt (c_eventKey c) = true -> c_eventKey c = eventkey) ->
  (Js.truthy_opt (c_nodeId c) = true -> c_nodeId c = nodeid) ->
  equals (Pg.row_id r) id = true ->
  matches c (locked nodeid id username eventkey now r) = true.
Proof.
  intros Hi Hu Hk Hn Hid. unfold locked. rewrite Hid. unfold matches.
  rewrite (meets_same (c_id c) id), (meets_same (c_username c) username),
    (meets_same (c_eventKey c) eventkey), (meets_same (c_nodeId c) nodeid);
    try done; intros _; rewrite ?lookup_lock; try done.
  rewrite lookup_id, row_id_set_lock.
  destruct id as [i|]; [|by destruct (Pg.row_id r) as [[]|]].
  by apply equals_eq in Hid.
Qed.

(** It is not met by criteria that name another node. *)
Lemma matches_other_node (nodeid id username eventkey : option json)
  (now : json) (c : Criteria) (r : Pg.row) :
  Js.truthy_opt (c_nodeId c) = true ->
  equals nodeid (c_nodeId c) = false ->
  Js.truthy_opt nodeid = true ->
  equals (Pg.row_id r) id = true ->
  matches c (locked nodeid id username eventkey now r) = false.
Proof.
  intros Hc Hne Hn Hid. unfold locked. rewrite Hid. unfold matches.
  assert (meets (c_nodeId c) ["lock"; "_nodeid"]
            (Pg.set_column "lock"
               (ROW (default JNull username) now (default JNull nodeid)
                  (default JNull eventkey)) r) = false) as ->.
  { unfold meets. rewrite Hc, lookup_lock. cbn.
    destruct nodeid as [n|]; [done|discriminate Hn]. }
  by rewrite andb_false_r.
Qed.

(** X26.  Lock, unlock, lock again.  After a [lock] that resolved, an
    [unlock] whose criteria (one at least) are taken from that call, the
    id, the user, the event key, the node or any of them, resolves to ids
    with this one among them and leaves every row of the id with a NULL
    lock, so that the next [lock] of the id resolves to true. *)
Theorem lock_unlock_lock (nodeid id username eventkey : option json)
  (now : json) (c : Criteria) (d d1 : Pg.db) (b : bool) :
  lock nodeid id username eventkey now d = (d1, Ok b) ->
  given c = true ->
  (Js.truthy_opt (c_id c) = true -> c_id c = id) ->
  (Js.truthy_opt (c_username c) = true -> c_username c = username) ->
  (Js.truthy_opt (c_eventKey c) = true -> c_eventKey c = eventkey) ->
  (Js.truthy_opt (c_nodeId c) = true -> c_nodeId c = nodeid) ->
  exists ids,
    (unlock c d1).2 = Ok ids /\
    (exists i, id = Some i /\ JObj [("id", i)] ∈ ids) /\
    (forall r, r ∈ Pg.objects (unlock c d1).1 ->
               equals (Pg.row_id r) id = true ->
               Pg.column r "lock" = Some JNull) /\
    forall nodeid' username' eventkey' now',
      Js.truthy_opt nodeid' = true ->
      Js.truthy_opt username' = true ->
      Js.truthy_opt eventkey' = true ->
      (lock nodeid' id username' eventkey' now' (unlock c d1).1).2 = Ok true.
Proof.
  intros H G Hi Hu Hk Hn.
  apply lock_inv in H as (-> & Tn & Tk & Ti & Tu & -> & r0 & rest & E & _).
  rewrite (unlock_given c _ G). cbn [fst snd doLock Pg.objects].
  fold (locked nodeid id username eventkey now).
  pose proof (filter_head _ _ _ _ E) as [Hid0 Hin0].
  assert (Hrel : forall r, equals (Pg.row_id r) id = true ->
            release c (locked nodeid id username eventkey now r)
            = Pg.set_column "lock" JNull (locked nodeid id username eventkey now r)).
  { intros r Hid. unfold release. by rewrite matches_locked. }
  eexists. split; [reflexivity|]. split; [|split].
  - destruct id as [i|]; [|discriminate Ti]. exists i. split; [done|].
    apply list_elem_of_fmap.
    exists (locked nodeid (Some i) username eventkey now r0). split.
    + unfold returned. rewrite row_id_locked.
      by rewrite (equals_eq _ _ Hid0).
    + apply list_elem_of_In, filter_In. split.
      * apply in_map. exact Hin0.
      * by apply matches_locked.
  - intros r Hin Hid.
    apply list_elem_of_fmap in Hin as (r1 & -> & Hin).
    apply list_elem_of_fmap in Hin as (r2 & -> & _).
    rewrite row_id_release, row_id_locked in Hid.
    rewrite Hrel by done. apply column_set_lock.
  - intros n' u' k' t' Tn' Tu' Tk'. unfold lock, checkLock.
    rewrite Tn', Tk', Ti, Tu'. cbn [negb Pg.objects].
    rewrite (filter_id_map (release c)) by apply row_id_release.
    rewrite (filter_id_map (locked nodeid id username eventkey now))
      by apply row_id_locked.
    rewrite E. cbn [map]. rewrite Hrel by done.
    by rewrite column_set_lock.
Qed.
(** Two records, the second one locked by bob through node [n2]. *)
Definition shelf : Pg.db :=
  {| Pg.objects :=
       [ {| Pg.tables := ["object"];
            Pg.cols := [("id", JStr "a"); ("lock", JNull)] |};
         {| Pg.tables := ["object"];
            Pg.cols := [("id", JStr "b");
                        ("lock", ROW (JStr "bob") (JStr "09:00") (JStr "n2")
                                   (JStr "k2"))] |} ];
     Pg.subscriptions := ∅ |}.

Definition ada_locks (d : Pg.db) : Pg.db * result bool :=
  lock (Some (JStr "n1")) (Some (JStr "a")) (Some (JStr "ada"))
    (Some (JStr "k1")) (JStr "10:00") d.

Definition bob_locks (d : Pg.db) : Pg.db * result bool :=
  lock (Some (JStr "n2")) (Some (JStr "a")) (Some (JStr "bob"))
    (Some (JStr "k2")) (JStr "10:05") d.

Definition by_eventKey (k : string) : Criteria :=
  {| c_id := None; c_username := None; c_eventKey := Some (JStr k);
     c_nodeId := None |}.

Lemma lock_exclusive_witness :
  (ada_locks shelf).2 = Ok true /\
  bob_locks (ada_locks shelf).1
  = ((ada_locks shelf).1,
     Fail (ErrorObj "Record a is already locked." None)).
Proof.
  split; [reflexivity|].
  apply (lock_exclusive (Some (JStr "n1")) (Some (JStr "a")) (Some (JStr "ada"))
           (Some (JStr "k1")) (JStr "10:00") shelf (ada_locks shelf).1 true);
    reflexivity.
Defined.

Lemma lock_unlock_lock_witness :
  (ada_locks shelf).2 = Ok true /\
  exists ids,
    (unlock (by_eventKey "k1") (ada_locks shelf).1).2 = Ok ids /\
    JObj [("id", JStr "a")] ∈ ids /\
    (bob_locks (unlock (by_eventKey "k1") (ada_locks shelf).1).1).2 = Ok true.
Proof.
  split; [reflexivity|].
  destruct (lock_unlock_lock (Some (JStr "n1")) (Some (JStr "a"))
              (Some (JStr "ada")) (Some (JStr "k1")) (JStr "10:00")
              (by_eventKey "k1") shelf (ada_locks shelf).1 true)
    as (ids & Hids & (i & Hi & Hin) & _ & Hlock);
    try reflexivity; try discriminate.
  exists ids. split; [exact Hids|]. split.
  - injection Hi as <-. exact Hin.
  - by apply Hlock.
Defined.

(** Unlocking by user leaves the locks of other users alone. *)
Example unlock_by_user :
  unlock {| c_id := None; c_username := Some (JStr "ada"); c_eventKey := None;
            c_nodeId := Some (JStr "n1") |} (ada_locks shelf).1
  = ({| Pg.objects :=
          [ {| Pg.tables := ["object"];
               Pg.cols := [("id", JStr "a"); ("lock", JNull)] |};
            {| Pg.tables := ["object"];
               Pg.cols := [("id", JStr "b");
                           ("lock", ROW (JStr "bob") (JStr "09:00") (JStr "n2")
                                      (JStr "k2"))] |} ];
        Pg.subscriptions := ∅ |},
     Ok [JObj [("id", JStr "a")]]).
Proof. reflexivity. Qed.

(** The text and the parameters when the id is left out. *)
Example unlock_without_id :
  let c := {| c_id := None; c_username := Some (JStr "ada");
              c_eventKey := None; c_nodeId := Some (JStr "n1") |} in
  unlock_text c
  = "UPDATE object SET lock = NULL WHERE true  AND username(lock) = $1 AND _nodeid(lock) = $2 RETURNING id; "
  /\ u_params (unlock_statement c) = [JStr "ada"; JStr "n1"].
Proof. split; reflexivity. Qed.
End Locks.

(** ** JSON patch

    Modelled after [compare] of the fast-json-patch package, which the
    server loads as [jsonpatch]: old keys are visited last to first, giving
    [replace] and [remove] operations; keys only the new value has give
    [add] operations. *)

Module JsonPatch.

Definition op (kind path : string) (value : option json) : json :=
  JObj (("op", JStr kind) :: ("path", JStr path) ::
        match value with Some v => [("value", v)] | None => [] end).

(** [escapePathComponent] *)
Fixpoint escape (s : string) : string :=
  match s with
  | EmptyString => EmptyString
  | String c rest =>
      if Ascii.eqb c "~"%char then "~0" +:+ escape rest
      else if Ascii.eqb c "/"%char then "~1" +:+ escape rest
      else String c (escape rest)
  end.

Definition has_entries (v : json) : list (string * json) :=
  match Js.entries v with Ok l => l | Fail _ => [] end.

Fixpoint generate (fuel : nat) (mirror obj : json) (path : string) : list json :=
  match fuel with
  | O => []
  | S fuel' =>
      let newKeys := has_entries obj in
      let oldKeys := has_entries mirror in
      let visit (kv : string * json) : list json * bool :=
        let '(key, oldVal) := kv in
        match Js.get newKeys key with
        | Some newVal =>
            if Js.typeof_object oldVal && negb (Js.is_null oldVal)
               && Js.typeof_object newVal && negb (Js.is_null newVal)
            then (generate fuel' oldVal newVal (path +:+ "/" +:+ escape key), false)
            else if negb (Js.strict_eq (Some oldVal) (Some newVal))
            then ([op "replace" (path +:+ "/" +:+ escape key) (Some newVal)], false)
            else ([], false)
        | None => ([op "remove" (path +:+ "/" +:+ escape key) None], true)
        end in
      let visited := map visit (rev oldKeys) in
      let deleted := existsb snd visited in
      let changes := concat (map fst visited) in
      if negb deleted && (length newKeys =? length oldKeys)%nat then changes
      else
        changes ++
        concat (map (fun kv : string * json =>
                       match Js.get oldKeys kv.1 with
                       | Some _ => []
                       | None => [op "add" (path +:+ "/" +:+ escape kv.1) (Some kv.2)]
                       end) newKeys)
  end.

Definition compare (tree1 tree2 : json) : list json :=
  generate (S (Js.depth tree1)) tree1 tree2 "".

End JsonPatch.

(** ** datasource.js: the request pipeline *)

Module Datasource.

Record Request : Type := {
  method : string;
  name : string;
  id : option json;
  data : option json
}.

(** What the client gets when a request fails. *)
Record Failure : Type := {
  message : string;
  statusCode : Z
}.

Definition message_of (err : js_error) : string :=
  match err with
  | TypeError m | SyntaxError m | ErrorObj m _ | ErrString m | DbError m => m
  | Diverged => ""
  end.

(** [error(err)]: a string becomes an [Error], and an error without a
    status code gets 500. *)
Definition error (err : js_error) : Failure :=
  {| message := message_of err;
     statusCode := match err with
                   | ErrorObj _ (Some c) => if Z.eqb c 0 then 500 else c
                   | _ => 500
                   end |}.

(** The branch [doRequest] takes for a request. *)
Inductive route : Type :=
| Select            (* [doQuery] on a GET *)
| Upsert            (* [begin], [doUpsert], [doTraverseBefore] *)
| Traverse          (* [doTraverseBefore] *)
| Function          (* a registered function *)
| Unregistered.     (* throws *)

Definition doRequest (inCatalog registered : bool) (obj : Request) : route :=
  if inCatalog then
    if String.eqb (method obj) "GET" then Select
    else if String.eqb (method obj) "POST" && Js.truthy_opt (id obj) then Upsert
    else Traverse
  else if registered then Function
  else Unregistered.

(** The service [doQuery] hands the request to. *)
Inductive transaction : Type :=
| DoSelect | DoInsert | DoUpdate | DoDelete.

Definition doQuery (obj : Request) : result transaction :=
  if String.eqb (method obj) "GET" then Ok DoSelect
  else if String.eqb (method obj) "POST" then Ok DoInsert
  else if String.eqb (method obj) "PATCH" then Ok DoUpdate
  else if String.eqb (method obj) "DELETE" then Ok DoDelete
  else Fail (ErrorObj ("method " +:+ Str.dq +:+ method obj +:+ Str.dq
                       +:+ " unknown") None).

Section Upsert.

Variable compare : json -> json -> list json.

(** The loop over an old array: [n] counts the children. *)
Definition children_loop (overlay : json -> json -> result json)
  : list json -> nat -> list json -> result (list json) :=
  fix go (oldChildren : list json) (n : nat) (newChildren : list json) :=
    match oldChildren with
    | [] => Ok newChildren
    | oldChild :: rest =>
        match newChildren !! n with
        | Some newChild =>
            newChild' ← overlay newChild oldChild;
            go rest (S n) (Js.set_at newChildren n newChild')
        | None => go rest (S n) (Js.set_at newChildren n JNull)
        end
    end.

(** The loop over the keys of the old record. *)
Definition keys_loop (overlay : json -> json -> result json) (oldRec : json)
  : list (string * json) -> json -> result json :=
  fix go (ents : list (string * json)) (newRec : json) :=
    match ents with
    | [] => Ok newRec
    | (key, oldVal) :: rest =>
        given ← Js.read newRec key;
        match oldVal with
        | JArr oldChildren =>
            match given with
            | None | Some JNull =>
                newRec1 ← Js.write newRec key oldVal; go rest newRec1
            | Some (JArr newChildren) =>
                (* update children in array *)
                children ← children_loop overlay oldChildren 0 newChildren;
                newRec1 ← Js.write newRec key (JArr children); go rest newRec1
            | Some _ =>
                objectType ← Js.read oldRec "objectType";
                oldId ← Js.read oldRec "id";
                Fail (ErrorObj ("Array expected for property " +:+ Str.dq +:+ key
                                +:+ Str.dq +:+ " on " +:+ Js.text objectType
                                +:+ " record with id " +:+ Js.text oldId) None)
            end
        | _ =>
            match given with
            | None => newRec1 ← Js.write newRec key oldVal; go rest newRec1
            | Some _ => go rest newRec
            end
        end
    end.

(** [overlay(newRec, oldRec)]; the result is [newRec] as the call leaves
    it.  (The test [oldRec.length > newRec.length] compares the records,
    not the arrays, and changes nothing in [newRec].) *)
Fixpoint overlay (fuel : nat) (newRec oldRec : json) : result json :=
  match fuel with
  | O => Fail Diverged
  | S fuel' =>
      ents ← Js.entries oldRec;
      keys_loop (overlay fuel') oldRec ents newRec
  end.

(** [doUpsert]: [resp] is what [crud.doSelect] resolved to. *)
Definition doUpsert (obj : Request) (resp : option json) : result Request :=
  match resp with
  | Some old =>
      if Js.truthy old then
        given ← match data obj with
                | Some d => Ok d
                | None => Fail (TypeError "Cannot read property of undefined")
                end;
        overlaid ← overlay (S (Js.depth old)) given old;
        Ok {| method := "PATCH"; name := name obj; id := id obj;
              data := Some (JArr (compare old overlaid)) |}
      else
        d ← match data obj with
            | Some d => Js.write_opt d "id" (id obj)
            | None => Fail (TypeError "Cannot set property 'id' of undefined")
            end;
        Ok {| method := method obj; name := name obj; id := id obj;
              data := Some d |}
  | None =>
      d ← match data obj with
          | Some d => Js.write_opt d "id" (id obj)
          | None => Fail (TypeError "Cannot set property 'id' of undefined")
          end;
      Ok {| method := method obj; name := name obj; id := id obj;
            data := Some d |}
  end.

(** *** Facts about the overlay *)

(** The field [k] of the new data after the overlay, when the new data
    gives no array for an array of the old record: an array of the old
    record is taken over, a value of the new data stays (null included),
    and a field the new data lacks takes the old value. *)
Definition overlaid_field (given old : list (string * json)) (k : string)
  : option json :=
  match Js.get old k with
  | Some (JArr l) => Some (JArr l)
  | Some oldVal =>
      match Js.get given k with
      | Some v => Some v
      | None => Some oldVal
      end
  | None => Js.get given k
  end.

Lemma get_fresh (o : list (string * json)) (k : string) :
  k ∉ map fst o -> Js.get o k = None.
Proof.
  induction o as [|[k0 v0] o IH]; [done|]. intros Hk. cbn [Js.get].
  destruct (String.eqb k0 k) eqn:E.
  - apply String.eqb_eq in E as ->. exfalso. apply Hk. left.
  - apply IH. intros Hin. apply Hk. by right.
Qed.

Lemma keys_loop_fills (ov : json -> json -> result json) (oldRec : json)
  (ents : list (string * json)) :
  NoDup (map fst ents) ->
  forall given,
    (forall k l, Js.get ents k = Some (JArr l) ->
                 Js.get given k = None \/ Js.get given k = Some JNull) ->
    exists fields,
      keys_loop ov oldRec ents (JObj given) = Ok (JObj fields) /\
      forall k, Js.get fields k = overlaid_field given ents k.
Proof.
  induction ents as [|[key oldVal] rest IH]; intros Hnd given Harr.
  { exists given. split; [done|]. intros k. reflexivity. }
  apply NoDup_cons in Hnd as [Hkey Hnd]. specialize (IH Hnd).
  pose proof (get_fresh rest key Hkey) as Hfresh.
  assert (Hrest : forall given1,
            (forall k, k <> key -> Js.get given1 k = Js.get given k) ->
            forall k l, Js.get rest k = Some (JArr l) ->
                        Js.get given1 k = None \/ Js.get given1 k = Some JNull).
  { intros given1 Hsame k l Hk.
    assert (k <> key) as Hne by (intros ->; by rewrite Hfresh in Hk).
    rewrite (Hsame k Hne). apply (Harr k l). cbn [Js.get].
    by rewrite (proj2 (String.eqb_neq key k)). }
  assert (Hfill : forall v,
            (forall k, Js.get (Js.set given key v) k
                       = if String.eqb key k then Some v else Js.get given k)).
  { intros v k. destruct (String.eqb key k) eqn:E.
    - apply String.eqb_eq in E as <-. apply Pg.get_set_eq.
    - apply Pg.get_set_ne. by apply String.eqb_neq. }
  assert (Htake : exists fields,
            keys_loop ov oldRec rest (JObj (Js.set given key oldVal)) = Ok (JObj fields)
            /\ forall k, Js.get fields k
                         = if String.eqb key k then Some oldVal
                           else overlaid_field given rest k).
  { destruct (IH (Js.set given key oldVal)) as (fields & Hloop & Hf).
    { apply Hrest. intros k Hne. apply Pg.get_set_ne. congruence. }
    exists fields. split; [exact Hloop|]. intros k. rewrite Hf.
    unfold overlaid_field. rewrite Hfill.
    destruct (String.eqb key k) eqn:E; [|done].
    apply String.eqb_eq in E as <-. by rewrite Hfresh. }
  cbn [keys_loop Js.read mbind result_bind].
  assert (Hgoal : forall k,
            overlaid_field given ((key, oldVal) :: rest) k
            = if String.eqb key k
              then match oldVal with
                   | JArr l => Some (JArr l)
                   | _ => match Js.get given key with
                          | Some v => Some v
                          | None => Some oldVal
                          end
                   end
              else overlaid_field given rest k).
  { intros k. unfold overlaid_field. cbn [Js.get].
    destruct (String.eqb key k) eqn:E; [|done].
    apply String.eqb_eq in E as <-. by destruct oldVal. }
  assert (Hkeep : forall v,
            Js.get given key = Some v ->
            exists fields,
              keys_loop ov oldRec rest (JObj given) = Ok (JObj fields)
              /\ forall k, Js.get fields k
                           = if String.eqb key k then Some v
                             else overlaid_field given rest k).
  { intros v Hv. destruct (IH given) as (fields & Hloop & Hf).
    { by apply Hrest. }
    exists fields. split; [exact Hloop|]. intros k. rewrite Hf.
    destruct (String.eqb key k) eqn:E; [|done].
    apply String.eqb_eq in E as <-. unfold overlaid_field. by rewrite Hfresh. }
  destruct oldVal as [|b|n|s|l|o].
  5: { destruct (Harr key l) as [Hg|Hg];
         [cbn [Js.get]; by rewrite String.eqb_refl|..]; rewrite Hg.
       all: cbn [Js.write mbind result_bind].
       all: destruct Htake as (fields & Hloop & Hf); exists fields.
       all: split; [exact Hloop|]; intros k; by rewrite Hf, Hgoal. }
  all: destruct (Js.get given key) as [v|] eqn:Hg.
  all: try (destruct (Hkeep v eq_refl) as (fields & Hloop & Hf); exists fields;
            split; [exact Hloop|]; intros k; by rewrite Hf, Hgoal).
  all: cbn [Js.write mbind result_bind].
  all: destruct Htake as (fields & Hloop & Hf); exists fields.
  all: split; [exact Hloop|]; intros k; by rewrite Hf, Hgoal.
Qed.

(** X22.  The overlay of new data on an existing record, when the new
    data gives no array for an array of the record (and the record has
    each key once): it succeeds, and the new data comes out with its own
    values kept (null included), with the old value for every field it
    lacks, and with the arrays of the old record taken over; fields the
    old record does not have stay as they are. *)
Theorem overlay_fills (fuel : nat) (given old : list (string * json)) :
  NoDup (map fst old) ->
  (forall k l, Js.get old k = Some (JArr l) ->
               Js.get given k = None \/ Js.get given k = Some JNull) ->
  exists fields,
    overlay (S fuel) (JObj given) (JObj old) = Ok (JObj fields) /\
    (forall k, Js.get fields k = overlaid_field given old k) /\
    (forall k v, Js.get old k = Some v -> Js.get fields k <> None) /\
    (forall k v, Js.get given k = Some v -> v <> JNull -> Js.get fields k = Some v).
Proof.
  intros Hnd Harr. cbn [overlay Js.entries mbind result_bind].
  destruct (keys_loop_fills (overlay fuel) (JObj old) old Hnd given Harr)
    as (fields & Hloop & Hf).
  exists fields. split; [exact Hloop|]. split; [exact Hf|]. split.
  - intros k v Hk. rewrite Hf. unfold overlaid_field. rewrite Hk.
    destruct v; try done; by destruct (Js.get given k).
  - intros k v Hk Hv. rewrite Hf. unfold overlaid_field. rewrite Hk.
    destruct (Js.get old k) as [[| | | |l|]|] eqn:Ho; try done.
    destruct (Harr k l Ho) as [Hg|Hg]; rewrite Hg in Hk; [done|].
    by injection Hk as <-.
Qed.

(** X23.  The upsert check.  A POST whose id resolves to a record becomes
    a PATCH, with the same name and id, whose data is the patch from the
    record to the new data overlaid on it, and the request is then
    carried out by [doUpdate]; a POST whose id resolves to no record
    stays a POST, with the id written into its data, and is carried out
    by [doInsert]. *)
Theorem doUpsert_dispatch (obj : Request) (given : list (string * json)) :
  data obj = Some (JObj given) ->
  (forall old,
     NoDup (map fst old) ->
     (forall k l, Js.get old k = Some (JArr l) ->
                  Js.get given k = None \/ Js.get given k = Some JNull) ->
     exists fields,
       overlay (S (Js.depth (JObj old))) (JObj given) (JObj old)
       = Ok (JObj fields) /\
       doUpsert obj (Some (JObj old))
       = Ok {| method := "PATCH"; name := name obj; id := id obj;
               data := Some (JArr (compare (JObj old) (JObj fields))) |} /\
       (doUpsert obj (Some (JObj old)) ≫= doQuery) = Ok DoUpdate) /\
  doUpsert obj None
  = Ok {| method := method obj; name := name obj; id := id obj;
          data := Some (JObj (Js.set_opt given "id" (id obj))) |} /\
  (method obj = "POST" -> (doUpsert obj None ≫= doQuery) = Ok DoInsert).
Proof.
  intros Hd. split; [|split].
  - intros old Hnd Harr.
    destruct (overlay_fills (Js.depth (JObj old)) given old Hnd Harr)
      as (fields & Hov & _).
    exists fields. split; [exact Hov|].
    unfold doUpsert. cbn [Js.truthy]. rewrite Hd.
    cbn [mbind result_bind]. rewrite Hov. cbn [mbind result_bind].
    split; reflexivity.
  - unfold doUpsert. rewrite Hd. cbn [mbind result_bind Js.write_opt].
    by destruct (id obj).
  - intros Hm. unfold doUpsert. rewrite Hd. cbn [mbind result_bind Js.write_opt].
    destruct (id obj); cbn [Js.write mbind result_bind]; unfold doQuery;
      cbn [method]; by rewrite Hm.
Qed.

End Upsert.
(** An order as it is stored and the data of a POST with its id. *)
Definition stored_order : list (string * json) :=
  [("id", JStr "a"); ("name", JStr "x"); ("note", JStr "n");
   ("lines", JArr [JObj [("id", JStr "l1"); ("qty", JNum 1)]])].

Definition posted_order : list (string * json) :=
  [("name", JStr "y"); ("note", JNull); ("lines", JNull); ("rush", JBool true)].

Definition upsert_request : Request :=
  {| method := "POST"; name := "Order"; id := Some (JStr "a");
     data := Some (JObj posted_order) |}.

Lemma overlay_fills_witness :
  exists fields,
    overlay 1 (JObj posted_order) (JObj stored_order) = Ok (JObj fields) /\
    (forall k, Js.get fields k = overlaid_field posted_order stored_order k) /\
    (forall k v, Js.get stored_order k = Some v -> Js.get fields k <> None) /\
    (forall k v, Js.get posted_order k = Some v -> v <> JNull ->
                 Js.get fields k = Some v).
Proof.
  apply (overlay_fills 0 posted_order stored_order).
  - apply (bool_decide_unpack _). vm_compute. exact I.
  - intros k l Hk. unfold stored_order in Hk. cbn [Js.get] in Hk.
    repeat match type of Hk with
           | (if String.eqb ?a k then _ else _) = _ =>
               destruct (String.eqb a k) eqn:?; [try discriminate Hk|]
           end; try discriminate Hk.
    match goal with E : String.eqb _ k = true |- _ => apply String.eqb_eq in E as <- end.
    by right.
Defined.

Example overlay_order :
  overlay 1 (JObj posted_order) (JObj stored_order)
  = Ok (JObj [("name", JStr "y"); ("note", JNull);
              ("lines", JArr [JObj [("id", JStr "l1"); ("qty", JNum 1)]]);
              ("rush", JBool true); ("id", JStr "a")]).
Proof. reflexivity. Qed.

Lemma doUpsert_dispatch_witness :
  doUpsert JsonPatch.compare upsert_request None
  = Ok {| method := "POST"; name := "Order"; id := Some (JStr "a");
          data := Some (JObj (posted_order ++ [("id", JStr "a")])) |} /\
  (doUpsert JsonPatch.compare upsert_request None ≫= doQuery) = Ok DoInsert /\
  exists fields,
    doUpsert JsonPatch.compare upsert_request (Some (JObj stored_order))
    = Ok {| method := "PATCH"; name := "Order"; id := Some (JStr "a");
            data := Some (JArr (JsonPatch.compare (JObj stored_order)
                                  (JObj fields))) |} /\
    (doUpsert JsonPatch.compare upsert_request (Some (JObj stored_order))
       ≫= doQuery) = Ok DoUpdate.
Proof.
  destruct (doUpsert_dispatch JsonPatch.compare upsert_request posted_order eq_refl)
    as (Hold & Hnew & Hins).
  split; [exact Hnew|]. split; [by apply Hins|].
  destruct (Hold stored_order) as (fields & _ & Hpatch & Hupd).
  - apply (bool_decide_unpack _). vm_compute. exact I.
  - intros k l Hk. unfold stored_order in Hk. cbn [Js.get] in Hk.
    repeat match type of Hk with
           | (if String.eqb ?a k then _ else _) = _ =>
               destruct (String.eqb a k) eqn:?; [try discriminate Hk|]
           end; try discriminate Hk.
    match goal with E : String.eqb _ k = true |- _ => apply String.eqb_eq in E as <- end.
    by right.
  - by exists fields.
Defined.

(** *** Locks through the datasource *)

Section Node.

(** [db.nodeId] *)
Variable nodeId : option json.

(** [that.lock] *)
Definition lock (id username eventkey : option json) (now : json)
  (d : Pg.db) : Pg.db * result bool :=
  Locks.lock nodeId id username eventkey now d.

(** [that.unlock]: [criteria = criteria || {}], then
    [criteria.nodeId = db.nodeId]. *)
Definition unlock (criteria : option Locks.Criteria) (d : Pg.db)
  : Pg.db * result (list json) :=
  let c := default {| Locks.c_id := None; Locks.c_username := None;
                      Locks.c_eventKey := None; Locks.c_nodeId := None |}
             criteria in
  Locks.unlock {| Locks.c_id := Locks.c_id c;
                  Locks.c_username := Locks.c_username c;
                  Locks.c_eventKey := Locks.c_eventKey c;
                  Locks.c_nodeId := nodeId |} d.

End Node.

(** X27.  The datasource releases only the locks of its own node.  After
    a lock made through one node, [unlock] through another node resolves,
    whatever its criteria (it does so without any, too), and leaves the
    lock on every row of the id, so that the id cannot be locked again;
    through the node that made the lock, [unlock] without criteria
    releases it. *)
Theorem unlock_other_node (here there id username eventkey : option json)
  (now : json) (criteria : option Locks.Criteria) (d d1 : Pg.db) (b : bool) :
  lock there id username eventkey now d = (d1, Ok b) ->
  Js.truthy_opt here = true ->
  Locks.equals there here = false ->
  (exists ids, (unlock here criteria d1).2 = Ok ids) /\
  (forall r, r ∈ Pg.objects (unlock here criteria d1).1 ->
             Locks.equals (Pg.row_id r) id = true ->
             Pg.column r "lock"
             = Some (Locks.ROW (default JNull username) now
                       (default JNull there) (default JNull eventkey))) /\
  (forall node' username' eventkey' now',
     Js.truthy_opt node' = true ->
     Js.truthy_opt username' = true ->
     Js.truthy_opt eventkey' = true ->
     lock node' id username' eventkey' now' (unlock here criteria d1).1
     = ((unlock here criteria d1).1,
        Fail (ErrorObj ("Record " +:+ Js.text id +:+ " is already locked.")
                None))) /\
  (forall r, r ∈ Pg.objects (unlock there None d1).1 ->
             Locks.equals (Pg.row_id r) id = true ->
             Pg.column r "lock" = Some JNull).
Proof.
  unfold lock, unlock. intros H Th Hne.
  apply Locks.lock_inv in H
    as (-> & Tn & Tk & Ti & Tu & -> & r0 & rest & E & _).
  set (c := {| Locks.c_id := _; Locks.c_nodeId := here |}).
  assert (G : Locks.given c = true).
  { unfold Locks.given. cbn [Locks.c_nodeId c]. rewrite Th.
    by rewrite !orb_true_r. }
  rewrite (Locks.unlock_given c _ G).
  cbn [fst snd Locks.doLock Pg.objects].
  fold (Locks.locked there id username eventkey now).
  assert (Hkeep : forall r, Locks.equals (Pg.row_id r) id = true ->
            Locks.release c (Locks.locked there id username eventkey now r)
            = Locks.locked there id username eventkey now r).
  { intros r Hid. unfold Locks.release.
    by rewrite Locks.matches_other_node. }
  split; [by eexists|]. split; [|split].
  - intros r Hin Hid.
    apply list_elem_of_fmap in Hin as (r1 & -> & Hin).
    apply list_elem_of_fmap in Hin as (r2 & -> & _).
    rewrite Locks.row_id_release, Locks.row_id_locked in Hid.
    rewrite Hkeep by done. unfold Locks.locked. rewrite Hid.
    apply Locks.column_set_lock.
  - intros n' u' k' t' Tn' Tu' Tk'. unfold Locks.lock, Locks.checkLock.
    rewrite Tn', Tk', Ti, Tu'. cbn [negb Pg.objects].
    rewrite (Locks.filter_id_map (Locks.release c))
      by apply Locks.row_id_release.
    rewrite (Locks.filter_id_map (Locks.locked there id username eventkey now))
      by apply Locks.row_id_locked.
    rewrite E. cbn [map].
    apply Locks.filter_head in E as [E _].
    rewrite Hkeep by done. unfold Locks.locked at 1. rewrite E.
    by rewrite Locks.column_set_lock.
  - cbn [default Locks.c_id Locks.c_username Locks.c_eventKey].
    set (c0 := {| Locks.c_id := None; Locks.c_nodeId := there |}).
    assert (G0 : Locks.given c0 = true).
    { unfold Locks.given. cbn [Locks.c_nodeId c0]. rewrite Tn.
      by rewrite !orb_true_r. }
    rewrite (Locks.unlock_given c0 _ G0). cbn [fst Pg.objects].
    intros r Hin Hid.
    apply list_elem_of_fmap in Hin as (r1 & -> & Hin).
    apply list_elem_of_fmap in Hin as (r2 & -> & _).
    fold (Locks.locked there id username eventkey now r2) in *.
    rewrite Locks.row_id_release, Locks.row_id_locked in Hid.
    unfold Locks.release. rewrite Locks.matches_locked; try done.
    apply Locks.column_set_lock.
Qed.

Lemma unlock_other_node_witness :
  let d1 := (lock (Some (JStr "n1")) (Some (JStr "a")) (Some (JStr "ada"))
               (Some (JStr "k1")) (JStr "10:00") Locks.shelf).1 in
  let criteria := Some (Locks.by_eventKey "k1") in
  (exists ids, (unlock (Some (JStr "n2")) criteria d1).2 = Ok ids) /\
  lock (Some (JStr "n2")) (Some (JStr "a")) (Some (JStr "bob"))
    (Some (JStr "k2")) (JStr "10:05")
    (unlock (Some (JStr "n2")) criteria d1).1
  = ((unlock (Some (JStr "n2")) criteria d1).1,
     Fail (ErrorObj "Record a is already locked." None)).
Proof.
  intros d1 criteria.
  destruct (unlock_other_node (Some (JStr "n2")) (Some (JStr "n1"))
              (Some (JStr "a")) (Some (JStr "ada")) (Some (JStr "k1"))
              (JStr "10:00") criteria Locks.shelf d1 true)
    as (Hids & _ & Hlock & _); try reflexivity.
  split; [exact Hids|]. by apply Hlock.
Defined.

(** *** The request pipeline

    [that.request] with the functions it closes over.  The client of a
    connection is made by database.js; [wrapped], [currentUser] and
    [isTriggering] are its three settings, each read and written through
    the function of that name.  Registered functions and triggers are
    the caller's code: they get the payload and the client and may change
    both. *)

Module Pipeline.

Inductive trigger : Type := TRIGGER_BEFORE | TRIGGER_AFTER.

Record Client : Type := {
  wrapped : bool;
  currentUser : option json;
  isTriggering : bool
}.

(** The payload [obj]; [client] tells whether [obj.client] is set. *)
Record Payload : Type := {
  the_request : Request;
  user : option json;
  client : bool;
  subscription : option json;
  cache : option json;
  newRec : option json;
  oldRec : option json;
  response : option json
}.

Definition set_request (r : Request) (o : Payload) : Payload :=
  {| the_request := r; user := user o; client := client o;
     subscription := subscription o; cache := cache o; newRec := newRec o;
     oldRec := oldRec o; response := response o |}.

Definition set_data (d : option json) (o : Payload) : Payload :=
  set_request {| method := method (the_request o); name := name (the_request o);
                 id := id (the_request o); data := d |} o.

Definition set_client (b : bool) (o : Payload) : Payload :=
  {| the_request := the_request o; user := user o; client := b;
     subscription := subscription o; cache := cache o; newRec := newRec o;
     oldRec := oldRec o; response := response o |}.

Definition set_subscription (v : option json) (o : Payload) : Payload :=
  {| the_request := the_request o; user := user o; client := client o;
     subscription := v; cache := cache o; newRec := newRec o;
     oldRec := oldRec o; response := response o |}.

Definition set_cache (v : option json) (o : Payload) : Payload :=
  {| the_request := the_request o; user := user o; client := client o;
     subscription := subscription o; cache := v; newRec := newRec o;
     oldRec := oldRec o; response := response o |}.

Definition set_newRec (v : option json) (o : Payload) : Payload :=
  {| the_request := the_request o; user := user o; client := client o;
     subscription := subscription o; cache := cache o; newRec := v;
     oldRec := oldRec o; response := response o |}.

Definition set_oldRec (v : option json) (o : Payload) : Payload :=
  {| the_request := the_request o; user := user o; client := client o;
     subscription := subscription o; cache := cache o; newRec := newRec o;
     oldRec := v; response := response o |}.

Definition set_response (v : option json) (o : Payload) : Payload :=
  {| the_request := the_request o; user := user o; client := client o;
     subscription := subscription o; cache := cache o; newRec := newRec o;
     oldRec := oldRec o; response := v |}.

(** What a rejection carries: an error as it was thrown, or one that has
    been through [error]. *)
Inductive rejection : Type :=
| Raw (e : js_error)
| Normal (f : Failure).

Inductive answer (A : Type) : Type :=
| Resolve (a : A)
| Reject (r : rejection).

Arguments Resolve {A} a.
Arguments Reject {A} r.

Section Pipeline.

(** Registered functions. *)
Variable Fn : Type.

(** An entry of [registered[method]]: a function, an object with
    triggers, or a function that was given triggers. *)
Record Entry : Type := {
  callable : option Fn;
  before : option Fn;
  after : option Fn
}.

Inductive callee : Type :=
| Crud (t : transaction)
| Registered (f : Fn).

Inductive event : Type :=
| Connect
| Release                                          (* [done()] *)
| Sql (text : string)
| Call (c : callee) (obj : Payload) (isChild : option bool)
    (isSuperUser : bool).

(** The variables of one call of [request]. *)
Record State : Type := {
  the_client : Client;
  obj : Payload;
  wrap : bool;
  isChild : option bool;
  log : list event
}.

Definition M (A : Type) : Type := State -> State * answer A.

Definition ret {A} (a : A) : M A := fun s => (s, Resolve a).

Definition bind {A B} (m : M A) (k : A -> M B) : M B :=
  fun s => match m s with
           | (s1, Resolve a) => k a s1
           | (s1, Reject r) => (s1, Reject r)
           end.

#[local] Instance M_ret : MRet M := @ret.
#[local] Instance M_bind : MBind M := fun A B k m => bind m k.

Definition reject {A} (r : rejection) : M A := fun s => (s, Reject r).

(** A [throw], or a rejection with what a service rejected with. *)
Definition throw {A} (e : js_error) : M A := reject (Raw e).

Definition lift {A} (r : result A) : M A :=
  match r with
  | Ok a => ret a
  | Fail e => throw e
  end.

(** [.catch(handler)] *)
Definition catch {A} (m : M A) (handler : rejection -> M A) : M A :=
  fun s => match m s with
           | (s1, Resolve a) => (s1, Resolve a)
           | (s1, Reject r) => handler r s1
           end.

Definition emit (e : event) : M unit :=
  fun s => ({| the_client := the_client s; obj := obj s; wrap := wrap s;
               isChild := isChild s; log := log s ++ [e] |}, Resolve ()).

Definition set_the_client (c : Client) : M unit :=
  fun s => ({| the_client := c; obj := obj s; wrap := wrap s;
               isChild := isChild s; log := log s |}, Resolve ()).

Definition set_obj (o : Payload) : M unit :=
  fun s => ({| the_client := the_client s; obj := o; wrap := wrap s;
               isChild := isChild s; log := log s |}, Resolve ()).

Definition set_wrap (b : bool) : M unit :=
  fun s => ({| the_client := the_client s; obj := obj s; wrap := b;
               isChild := isChild s; log := log s |}, Resolve ()).

Definition set_isChild (b : option bool) : M unit :=
  fun s => ({| the_client := the_client s; obj := obj s; wrap := wrap s;
               isChild := b; log := log s |}, Resolve ()).

Definition get : M State := fun s => (s, Resolve s).

Definition the_obj : M Payload := fun s => (s, Resolve (obj s)).

(** [client.wrapped(b)], [client.currentUser(u)], [client.isTriggering(b)] *)
Definition set_wrapped (b : bool) : M unit :=
  fun s => set_the_client {| wrapped := b;
                             currentUser := currentUser (the_client s);
                             isTriggering := isTriggering (the_client s) |} s.

Definition set_currentUser (u : option json) : M unit :=
  fun s => set_the_client {| wrapped := wrapped (the_client s);
                             currentUser := u;
                             isTriggering := isTriggering (the_client s) |} s.

Definition set_isTriggering (b : bool) : M unit :=
  fun s => set_the_client {| wrapped := wrapped (the_client s);
                             currentUser := currentUser (the_client s);
                             isTriggering := b |} s.

(** [db.nodeId]; the catalog, [settings.data.catalog.data[name]] with the
    [inherits] of the feather (the catalog is taken to be loaded, so that
    the variable [catalog] of [request] is the same table); the table
    [registered]; [db.connect], which gives a client; the database's
    answer to BEGIN, COMMIT and ROLLBACK; the services of crud.js, which
    get the payload and may write to it; the registered functions, which
    get the payload and the client; [jsonpatch.compare];
    [jsonpatch.applyPatch], giving the document as the call leaves it; and
    [f.copy]. *)
Variable nodeId : option json.
Variable catalog : string -> option (option string).
Variable registered : string -> option (string -> option Entry).
Variable connect : result Client.
Variable query : string -> result unit.
Variable crud : transaction -> Payload -> option bool -> bool
                -> Payload * result (option json).
Variable run : Fn -> Payload -> option bool -> bool -> Client
               -> Client * Payload * result (option json).
Variable compare : json -> json -> list json.
Variable applyPatch : option json -> option json -> result (option json).
Variable copy : option json -> result (option json).

(** [isRegistered(method, name, trigger)], as a condition. *)
Definition isRegistered (method name : string) (trigger : option trigger)
  : result bool :=
  match registered method with
  | None =>
      Fail (TypeError ("Cannot read property '" +:+ name +:+ "' of undefined"))
  | Some table =>
      match trigger, table name with
      | Some TRIGGER_BEFORE, Some found => Ok (bool_decide (is_Some (before found)))
      | Some TRIGGER_AFTER, Some found => Ok (bool_decide (is_Some (after found)))
      | Some _, None => Ok false
      | None, found => Ok (bool_decide (is_Some found))
      end
  end.

(** [trigger ? registered[method][name][trigger] : registered[method][name]] *)
Definition registered_function (method name : string)
  (trigger : option trigger) : result (option Fn) :=
  match registered method with
  | None =>
      Fail (TypeError ("Cannot read property '" +:+ name +:+ "' of undefined"))
  | Some table =>
      match trigger, table name with
      | Some TRIGGER_BEFORE, None =>
          Fail (TypeError "Cannot read property '1' of undefined")
      | Some TRIGGER_AFTER, None =>
          Fail (TypeError "Cannot read property '2' of undefined")
      | Some TRIGGER_BEFORE, Some found => Ok (before found)
      | Some TRIGGER_AFTER, Some found => Ok (after found)
      | None, Some found => Ok (callable found)
      | None, None => Ok None
      end
  end.

(** A call of [transaction]: a service of crud.js or a registered
    function. *)
Definition call (c : option callee) (child : option bool) (su : bool)
  : M (option json) :=
  fun s =>
    match c with
    | None => throw (TypeError "transaction is not a function") s
    | Some (Crud t) =>
        let '(o, r) := crud t (obj s) child su in
        (_ ← emit (Call (Crud t) (obj s) child su);
         _ ← set_obj o;
         lift r) s
    | Some (Registered f) =>
        let '(c1, o, r) := run f (obj s) child su (the_client s) in
        (_ ← emit (Call (Registered f) (obj s) child su);
         _ ← set_the_client c1;
         _ ← set_obj o;
         lift r) s
    end.

(** What [error] returns. *)
Definition normal (r : rejection) : Failure :=
  match r with
  | Raw e => error e
  | Normal f => f
  end.

Section Closure.

(** [getOld] asks [request] again; [isExternalClient], [isTriggering] and
    [isSuperUser] are set when [request] is entered. *)
Variable getOld : M (option json).
Variable isExternalClient : bool.
Variable triggering : bool.
Variable isSuperUser : bool.

Definition begin : M unit :=
  fun s =>
    if wrapped (the_client s) then ret () s
    else (_ ← emit (Sql "BEGIN;");
          _ ← lift (query "BEGIN;");
          set_wrapped true) s.

Definition setRecs (result : option json) : M unit :=
  o ← the_obj;
  _ ← set_obj (set_oldRec result o);
  copied ← lift (copy result);
  _ ← set_obj (set_newRec copied (set_oldRec result o));
  patched ← lift (applyPatch copied (data (the_request o)));
  set_obj (set_newRec patched (set_oldRec result o)).

Definition doPrepareTrigger : M unit :=
  o ← the_obj;
  if negb (Js.truthy_opt (newRec o)) && negb (Js.truthy_opt (oldRec o))
  then
    let m := method (the_request o) in
    if String.eqb m "POST" then
      copied ← lift (copy (data (the_request o)));
      set_obj (set_newRec copied o)
    else if String.eqb m "PATCH" then
      copied ← lift (copy (data (the_request o)));
      _ ← set_obj (set_newRec copied o);
      _ ← begin;
      result ← getOld;
      setRecs result
    else if String.eqb m "DELETE" then
      _ ← begin;
      result ← getOld;
      o1 ← the_obj;
      set_obj (set_oldRec result o1)
    else throw (ErrString ("Unknown trigger method " +:+ m))
  else set_isTriggering true.

Definition close (resp : option json) : M (option json) :=
  _ ← set_currentUser None;
  _ ← emit Release;
  ret resp.

Definition error (err : rejection) : State -> State * rejection :=
  fun s =>
    ((if isExternalClient then s else (emit Release s).1), Normal (normal err)).

Definition commit (resp : option json) : M (option json) :=
  fun s =>
    if triggering || isExternalClient then ret resp s
    else if wrapped (the_client s) then
      (_ ← emit (Sql "COMMIT;");
       _ ← set_currentUser None;
       _ ← set_wrapped false;
       match query "COMMIT;" with
       | Fail err => fun s1 => let '(s2, e) := error (Raw err) s1 in (s2, Reject e)
       | Ok _ => ret resp
       end) s
    else ret resp s.

(** [rollback(err, reject)] *)
Definition rollback {A} (err : rejection) : M A :=
  fun s =>
    if isExternalClient
    then let '(s1, e) := error err s in (s1, Reject e)
    else if wrapped (the_client s) then
      match (_ ← emit (Sql "ROLLBACK;");
             _ ← set_currentUser None;
             set_wrapped false) s with
      | (s1, _) => let '(s2, e) := error err s1 in (s2, Reject e)
      end
    else (s, Reject err).

Definition doExecute (transaction : option callee) : M (option json) :=
  fun s =>
    if wrap s && negb triggering
    then (_ ← begin; call transaction (Some false) isSuperUser) s
    else call transaction (isChild s) isSuperUser s.

Definition doMethod (name : string) (trigger : option trigger)
  : M (option json) :=
  o ← the_obj;
  _ ← set_wrap (negb (client o)
                && negb (String.eqb (method (the_request o)) "GET"));
  let d := match data (the_request o) with
           | Some d => if Js.truthy d then d else JObj []
           | None => JObj []
           end in
  _ ← set_obj (set_data (Some d) o);
  given ← lift (Js.read d "id");
  d1 ← lift (Js.write_opt d "id"
               (if Js.truthy_opt given then given else id (the_request o)));
  _ ← set_obj (set_client true (set_data (Some d1) o));
  f ← lift (registered_function (method (the_request o)) name trigger);
  doExecute (Registered <$> f).

Definition clearTriggerStatus : M unit :=
  if triggering then ret () else set_isTriggering false.

(** [feather.inherits || "Object"] *)
Definition parent_of (name : string) : result string :=
  match catalog name with
  | None => Fail (TypeError "Cannot read property 'inherits' of undefined")
  | Some (Some p) => Ok (if String.eqb p "" then "Object" else p)
  | Some None => Ok "Object"
  end.

Fixpoint doTraverseAfter (fuel : nat) (name : string) : M (option json) :=
  match fuel with
  | O => throw Diverged
  | S fuel' =>
      parent ← lift (parent_of name);
      o ← the_obj;
      found ← lift (isRegistered (method (the_request o)) name (Some TRIGGER_AFTER));
      if (found : bool) then
        _ ← doPrepareTrigger;
        _ ← doMethod name (Some TRIGGER_AFTER);
        _ ← clearTriggerStatus;
        if String.eqb name "Object" then commit None
        else doTraverseAfter fuel' parent
      else if String.eqb name "Object" then
        o1 ← the_obj;
        commit (response o1)
      else doTraverseAfter fuel' parent
  end.

Definition doQuery (fuel : nat) : M (option json) :=
  o ← the_obj;
  _ ← set_obj (set_client true o);
  _ ← set_isChild (Some false);
  match Datasource.doQuery (the_request o) with
  | Ok DoSelect => call (Some (Crud DoSelect)) (Some false) isSuperUser
  | Ok t =>
      resp ← doExecute (Some (Crud t));
      o1 ← the_obj;
      _ ← set_obj (set_response resp o1);
      doTraverseAfter fuel (name (the_request o1))
  | Fail e => fun s => let '(s1, r) := error (Raw e) s in (s1, Reject r)
  end.

Fixpoint doTraverseBefore (fuel : nat) (name : string) : M (option json) :=
  match fuel with
  | O => throw Diverged
  | S fuel' =>
      parent ← lift (parent_of name);
      o ← the_obj;
      found ← lift (isRegistered (method (the_request o)) name (Some TRIGGER_BEFORE));
      if (found : bool) then
        _ ← doPrepareTrigger;
        _ ← doMethod name (Some TRIGGER_BEFORE);
        _ ← clearTriggerStatus;
        if String.eqb name "Object" then doQuery fuel'
        else doTraverseBefore fuel' parent
      else if String.eqb name "Object" then
        (* accept any changes made by triggers *)
        _ ← (if Js.truthy_opt (newRec o) then
               if String.eqb (method (the_request o)) "POST"
               then set_obj (set_data (newRec o) o)
               else if String.eqb (method (the_request o)) "PATCH"
               then
                 match oldRec o, newRec o with
                 | Some old, Some new =>
                     set_obj (set_data (Some (JArr (compare old new))) o)
                 | _, _ =>
                     throw (TypeError "Cannot convert undefined or null to object")
                 end
               else ret ()
             else ret ());
        doQuery fuel'
      else doTraverseBefore fuel' parent
  end.

(** [doUpsert]: the record is looked up with a payload of its own. *)
Definition doUpsert : M unit :=
  o ← the_obj;
  let payload :=
    {| the_request := {| method := ""; name := name (the_request o);
                     id := id (the_request o); data := None |};
       user := None; client := client o; subscription := None;
       cache := None; newRec := None; oldRec := None; response := None |} in
  _ ← emit (Call (Crud DoSelect) payload (Some false) isSuperUser);
  resp ← lift (crud DoSelect payload (Some false) isSuperUser).2;
  r ← lift (Datasource.doUpsert compare (the_request o) resp);
  set_obj (set_request r o).

Definition doRequest (fuel : nat) : M (option json) :=
  s ← get;
  let o := obj s in
  let m := method (the_request o) in
  if negb (Js.truthy_opt (currentUser (the_client s)))
     && negb (Js.truthy_opt (user o))
  then throw (ErrString ("User undefined. " +:+ m +:+ " " +:+ name (the_request o)))
  else
    _ ← (if Js.truthy_opt (currentUser (the_client s)) then ret ()
         else set_currentUser (user o));
    _ ← match subscription o with
        | Some sub =>
            if Js.truthy sub
            then sub1 ← lift (Js.write_opt sub "nodeId" nodeId);
                 set_obj (set_subscription (Some sub1) o)
            else ret ()
        | None => ret ()
        end;
    match catalog (name (the_request o)) with
    | Some _ =>
        if String.eqb m "GET" then
          resp ← doQuery fuel;
          s1 ← get;
          _ ← (if wrapped (the_client s1) then ret ()
               else set_currentUser None);
          ret resp
        else if String.eqb m "POST" && Js.truthy_opt (id (the_request o)) then
          catch (_ ← begin; _ ← doUpsert;
                 doTraverseBefore fuel (name (the_request o)))
            rollback
        else
          _ ← (if isExternalClient then ret () else set_wrap true);
          catch (doTraverseBefore fuel (name (the_request o))) rollback
    | None =>
        found ← lift (isRegistered m (name (the_request o)) None);
        if (found : bool) then
          catch (resp ← doMethod (name (the_request o)) None; commit resp) rollback
        else
          throw (ErrorObj ("Function " +:+ m +:+ " " +:+ name (the_request o)
                           +:+ " is not registered.") None)
    end.

End Closure.

(** [if (obj.data) { obj.cache = Object.freeze(f.copy(obj.data)); }] *)
Definition cache_data (o : Payload) : result Payload :=
  match data (the_request o) with
  | Some d =>
      if Js.truthy d then c ← copy (Some d); Ok (set_cache c o) else Ok o
  | None => Ok o
  end.

(** What [request] leaves: the client it worked on and its settings, if
    it got one, the payload, the log and the answer. *)
Record Outcome : Type := {
  o_client : option Client;
  o_obj : Payload;
  o_log : list event;
  o_answer : answer (option json)
}.

(** [that.request(obj, isSuperUser)]; [external] is the client
    [obj.client], when the caller gives one, [log] what has happened
    before. *)
Fixpoint request (fuel : nat) (o : Payload) (isSuperUser : option bool)
  (external : option Client) (log : list event) : Outcome :=
  match fuel with
  | O => {| o_client := external; o_obj := o; o_log := log;
            o_answer := Reject (Raw Diverged) |}
  | S fuel' =>
      let su := default false isSuperUser in
      let triggering := match external with
                        | Some c => isTriggering c
                        | None => false
                        end in
      let getOld : M (option json) :=
        fun s =>
          let out :=
            request fuel'
              {| the_request := {| method := "GET";
                               name := name (the_request (obj s));
                               id := id (the_request (obj s)); data := None |};
                 user := None; client := true; subscription := None;
                 cache := None; newRec := None; oldRec := None;
                 response := None |}
              (Some true) (Some (the_client s)) (Pipeline.log s) in
          ({| the_client := default (the_client s) (o_client out);
              obj := obj s; wrap := wrap s; isChild := isChild s;
              Pipeline.log := o_log out |}, o_answer out) in
      match cache_data o with
      | Fail e =>
          {| o_client := external; o_obj := o; o_log := log;
             o_answer := Reject (Raw e) |}
      | Ok o1 =>
          match external with
          | Some c =>
              let s := {| the_client := c; obj := set_client true o1;
                          wrap := false; isChild := None;
                          Pipeline.log := log |} in
              let '(s1, a) := doRequest getOld true triggering su fuel' s in
              {| o_client := Some (the_client s1); o_obj := obj s1;
                 o_log := Pipeline.log s1; o_answer := a |}
          | None =>
              match connect with
              | Fail e =>
                  {| o_client := None; o_obj := set_client false o1;
                     o_log := log ++ [Connect];
                     o_answer := Reject (Raw e) |}
              | Ok c =>
                  let s := {| the_client := c; obj := set_client false o1;
                              wrap := false; isChild := None;
                              Pipeline.log := log ++ [Connect] |} in
                  let '(s1, a) :=
                    (resp ← doRequest getOld false triggering su fuel';
                     close resp) s in
                  {| o_client := Some (the_client s1); o_obj := obj s1;
                     o_log := Pipeline.log s1; o_answer := a |}
              end
          end
      end
  end.

(** *** Facts about the pipeline *)

(** [names] are the feathers from [name] up to [Object], each one in the
    catalog. *)
Fixpoint is_lineage (name : string) (names : list string) : bool :=
  match names with
  | [] => false
  | n :: rest =>
      String.eqb n name
      && match parent_of name with
         | Fail _ => false
         | Ok parent =>
             if String.eqb name "Object"
             then match rest with [] => true | _ => false end
             else is_lineage parent rest
         end
  end.

(** No trigger of the kind is registered for the method on any of the
    feathers. *)
Definition no_trigger (method : string) (kind : trigger) (names : list string)
  : Prop :=
  Forall (fun n => isRegistered method n (Some kind) = Ok false) names.

Lemma doTraverseAfter_plain (getOld : M (option json))
  (isExternalClient triggering isSuperUser : bool) (names : list string) :
  forall (name : string) (k : nat) (s : State),
    is_lineage name names = true ->
    no_trigger (method (the_request (obj s))) TRIGGER_AFTER names ->
    doTraverseAfter getOld isExternalClient triggering isSuperUser
      (length names + k) name s
    = commit isExternalClient triggering (response (obj s)) s.
Proof.
  induction names as [|n rest IH]; intros name k s Hl Hno; [done|].
  cbn [is_lineage] in Hl. apply andb_true_iff in Hl as [Hn Hl].
  apply String.eqb_eq in Hn as ->.
  apply Forall_cons in Hno as [Hreg Hno].
  cbn [length Nat.add doTraverseAfter].
  destruct (parent_of name) as [parent|] eqn:Hp; [|done].
  unfold mbind, M_bind, bind, lift, ret, the_obj. cbn [fst snd].
  rewrite Hreg. cbn [fst snd].
  destruct (String.eqb name "Object").
  - done.
  - by apply IH.
Qed.
Lemma doTraverseBefore_plain (getOld : M (option json))
  (isExternalClient triggering isSuperUser : bool) (names : list string) :
  forall (name : string) (k : nat) (s : State),
    is_lineage name names = true ->
    no_trigger (method (the_request (obj s))) TRIGGER_BEFORE names ->
    Js.truthy_opt (newRec (obj s)) = false ->
    doTraverseBefore getOld isExternalClient triggering isSuperUser
      (length names + k) name s
    = doQuery getOld isExternalClient triggering isSuperUser k s.
Proof.
  induction names as [|n rest IH]; intros name k s Hl Hno Hnew; [done|].
  cbn [is_lineage] in Hl. apply andb_true_iff in Hl as [Hn Hl].
  apply String.eqb_eq in Hn as ->.
  apply Forall_cons in Hno as [Hreg Hno].
  cbn [length Nat.add doTraverseBefore].
  destruct (parent_of name) as [parent|] eqn:Hp; [|done].
  unfold mbind, M_bind, bind, lift, ret, the_obj. cbn [fst snd].
  rewrite Hreg. cbn [fst snd]. rewrite Hnew.
  destruct (String.eqb name "Object").
  - by destruct rest.
  - by apply IH.
Qed.

Lemma cache_data_inv (o o1 : Payload) :
  cache_data o = Ok o1 ->
  exists c, o1 = set_cache c o.
Proof.
  unfold cache_data. intros H.
  destruct (data (the_request o)) as [d|].
  - destruct (Js.truthy d).
    + destruct (copy (Some d)) as [c|]; [|discriminate H].
      injection H as <-. by exists c.
    + injection H as <-. exists (cache o). by destruct o.
  - injection H as <-. exists (cache o). by destruct o.
Qed.

Ltac run :=
  unfold mbind, M_bind, bind, mret, M_ret, ret, lift, throw, reject, catch,
    the_obj, get, set_obj, set_wrap, set_isChild, emit, set_wrapped,
    set_currentUser, set_isTriggering, set_the_client;
  cbn [fst snd the_client obj wrap isChild log wrapped currentUser
       isTriggering the_request user client subscription cache newRec oldRec
       response set_client set_cache set_response set_request method name id
       data negb andb orb].

Lemma lineage_catalog (name : string) (names : list string) :
  is_lineage name names = true -> exists f, catalog name = Some f.
Proof.
  destruct names as [|n rest]; [done|]. cbn [is_lineage]. unfold parent_of.
  destruct (catalog name) as [f|]; [by exists f|].
  by rewrite andb_false_r.
Qed.

Lemma doQuery_method (r : Request) (t : transaction) :
  Datasource.doQuery r = Ok t -> t <> DoSelect ->
  String.eqb (method r) "GET" = false.
Proof.
  unfold Datasource.doQuery. intros H Ht.
  destruct (String.eqb (method r) "GET"); [|done].
  injection H as <-. done.
Qed.

(** A write from [doTraverseBefore] on, on a client that is not in a
    transaction, when no trigger is registered. *)
Lemma traverse_write (getOld : M (option json)) (su : bool)
  (names : list string) (t : transaction) (k : nat) (s : State) :
  wrapped (the_client s) = false ->
  Js.truthy_opt (newRec (obj s)) = false ->
  Datasource.doQuery (the_request (obj s)) = Ok t ->
  t <> DoSelect ->
  is_lineage (name (the_request (obj s))) names = true ->
  no_trigger (method (the_request (obj s))) TRIGGER_BEFORE names ->
  no_trigger (method (the_request (obj s))) TRIGGER_AFTER names ->
  query "BEGIN;" = Ok () ->
  let sent := set_client true (obj s) in
  let served := crud t sent (Some false) su in
  the_request served.1 = the_request (obj s) ->
  (_ ← set_wrap true;
   catch (doTraverseBefore getOld false false su
            (length names + (length names + k)) (name (the_request (obj s))))
     (rollback false)) s
  = ({| the_client := {| wrapped := false; currentUser := None;
                         isTriggering := isTriggering (the_client s) |};
        obj := match served.2 with
               | Ok resp => set_response resp served.1
               | Fail _ => served.1
               end;
        wrap := true;
        isChild := Some false;
        log := log s
               ++ [Sql "BEGIN;"; Call (Crud t) sent (Some false) su;
                   Sql (match served.2 with
                        | Ok _ => "COMMIT;"
                        | Fail _ => "ROLLBACK;"
                        end)]
               ++ match served.2, query "COMMIT;" with
                  | Ok _, Ok _ => []
                  | _, _ => [Release]
                  end |},
     match served.2 with
     | Ok resp =>
         match query "COMMIT;" with
         | Ok _ => Resolve resp
         | Fail e => Reject (Normal (Datasource.error e))
         end
     | Fail e => Reject (Normal (Datasource.error e))
     end).
Proof.
  intros Hw Hnew Hq Ht Hl Hb Ha Hbegin sent served Hsame.
  unfold mbind at 1. unfold M_bind, bind, set_wrap, catch. cbn [fst snd].
  rewrite doTraverseBefore_plain by done.
  unfold doQuery. run. rewrite Hq.
  assert (Hexec :
    forall s0 : State,
      wrap s0 = true -> wrapped (the_client s0) = false -> obj s0 = sent ->
      doExecute false su (Some (Crud t)) s0
      = ({| the_client := {| wrapped := true;
                             currentUser := currentUser (the_client s0);
                             isTriggering := isTriggering (the_client s0) |};
            obj := served.1; wrap := true; isChild := isChild s0;
            log := log s0 ++ [Sql "BEGIN;"; Call (Crud t) sent (Some false) su] |},
         match served.2 with
         | Ok resp => Resolve resp
         | Fail e => Reject (Raw e)
         end)).
  { intros s0 Hwrap Hw0 Hobj. unfold doExecute, begin, call.
    rewrite Hwrap. run. rewrite Hw0. run. rewrite Hbegin. run. rewrite Hobj.
    fold served. destruct served as [o2 r]. run.
    rewrite <- app_assoc, Hwrap. by destruct r. }
  assert (Hdone :
    (resp ← doExecute false su (Some (Crud t));
     o1 ← the_obj;
     _ ← set_obj (set_response resp o1);
     doTraverseAfter getOld false false su (length names + k)
       (name (the_request o1)))
      {| the_client := the_client s; obj := sent; wrap := true;
         isChild := Some false; log := log s |}
    = ({| the_client := {| wrapped := negb (is_ok served.2);
                           currentUser :=
                             if is_ok served.2 then None
                             else currentUser (the_client s);
                           isTriggering := isTriggering (the_client s) |};
          obj := match served.2 with
                 | Ok resp => set_response resp served.1
                 | Fail _ => served.1
                 end;
          wrap := true; isChild := Some false;
          log := log s
                 ++ [Sql "BEGIN;"; Call (Crud t) sent (Some false) su]
                 ++ match served.2 with
                    | Ok _ =>
                        Sql "COMMIT;"
                        :: match query "COMMIT;" with
                           | Ok _ => []
                           | Fail _ => [Release]
                           end
                    | Fail _ => []
                    end |},
       match served.2 with
       | Ok resp =>
           match query "COMMIT;" with
           | Ok _ => Resolve resp
           | Fail e => Reject (Normal (Datasource.error e))
           end
       | Fail e => Reject (Raw e)
       end)).
  { unfold mbind at 1. unfold M_bind, bind. rewrite Hexec by done.
    subst served. destruct (crud t sent (Some false) su) as [o2 r].
    cbn [fst snd] in *. destruct r as [resp|e]; run.
    - rewrite doTraverseAfter_plain; run; rewrite ?Hsame; try done.
      unfold commit. run. destruct (query "COMMIT;"); run.
      + by rewrite <- !app_assoc.
      + unfold error. run. by rewrite <- !app_assoc.
    - by rewrite app_nil_r. }
  unfold mbind, M_bind, bind, the_obj, set_obj in Hdone.
  cbn [fst snd the_client obj wrap isChild log] in Hdone.
  assert (Hbody :
    match t with
    | DoSelect => call (Some (Crud DoSelect)) (Some false) su
    | _ =>
        fun s0 : State =>
          let (s1, a0) := doExecute false su (Some (Crud t)) s0 in
          match a0 with
          | Resolve a =>
              doTraverseAfter getOld false false su (length names + k)
                (name (the_request (obj s1)))
                {| the_client := the_client s1;
                   obj := set_response a (obj s1); wrap := wrap s1;
                   isChild := isChild s1; log := log s1 |}
          | Reject r => (s1, Reject r)
          end
    end
    = fun s0 : State =>
        let (s1, a0) := doExecute false su (Some (Crud t)) s0 in
        match a0 with
        | Resolve a =>
            doTraverseAfter getOld false false su (length names + k)
              (name (the_request (obj s1)))
              {| the_client := the_client s1;
                 obj := set_response a (obj s1); wrap := wrap s1;
                 isChild := isChild s1; log := log s1 |}
        | Reject r => (s1, Reject r)
        end) by (by destruct t).
  rewrite Hbody. cbv beta. fold sent. rewrite Hdone.
  subst served. destruct (crud t sent (Some false) su) as [o2 r].
  cbn [fst snd is_ok negb]. destruct r as [resp|e].
  - destruct (query "COMMIT;"); by rewrite <- ?app_assoc.
  - unfold rollback, error. run. by rewrite <- !app_assoc.
Qed.

(** The same from [doRequest] on: the user is set on the client first. *)
Lemma doRequest_write (getOld : M (option json)) (su : bool)
  (names : list string) (t : transaction) (k : nat) (s : State) :
  wrapped (the_client s) = false ->
  Js.truthy_opt (currentUser (the_client s)) || Js.truthy_opt (user (obj s))
  = true ->
  Js.truthy_opt (subscription (obj s)) = false ->
  Js.truthy_opt (newRec (obj s)) = false ->
  Datasource.doQuery (the_request (obj s)) = Ok t ->
  t <> DoSelect ->
  String.eqb (method (the_request (obj s))) "POST"
  && Js.truthy_opt (id (the_request (obj s))) = false ->
  is_lineage (name (the_request (obj s))) names = true ->
  no_trigger (method (the_request (obj s))) TRIGGER_BEFORE names ->
  no_trigger (method (the_request (obj s))) TRIGGER_AFTER names ->
  query "BEGIN;" = Ok () ->
  let sent := set_client true (obj s) in
  let served := crud t sent (Some false) su in
  the_request served.1 = the_request (obj s) ->
  doRequest getOld false false su (length names + (length names + k)) s
  = ({| the_client := {| wrapped := false; currentUser := None;
                         isTriggering := isTriggering (the_client s) |};
        obj := match served.2 with
               | Ok resp => set_response resp served.1
               | Fail _ => served.1
               end;
        wrap := true;
        isChild := Some false;
        log := log s
               ++ [Sql "BEGIN;"; Call (Crud t) sent (Some false) su;
                   Sql (match served.2 with
                        | Ok _ => "COMMIT;"
                        | Fail _ => "ROLLBACK;"
                        end)]
               ++ match served.2, query "COMMIT;" with
                  | Ok _, Ok _ => []
                  | _, _ => [Release]
                  end |},
     match served.2 with
     | Ok resp =>
         match query "COMMIT;" with
         | Ok _ => Resolve resp
         | Fail e => Reject (Normal (Datasource.error e))
         end
     | Fail e => Reject (Normal (Datasource.error e))
     end).
Proof.
  intros Hw Hu Hsub Hnew Hq Ht Hup Hl Hb Ha Hbegin sent served Hsame.
  pose proof (doQuery_method _ _ Hq Ht) as Hget.
  destruct (lineage_catalog _ _ Hl) as [feather Hcat].
  unfold doRequest.
  unfold mbind at 1. unfold M_bind, bind, get. cbn [fst snd].
  apply orb_true_iff in Hu.
  assert (negb (Js.truthy_opt (currentUser (the_client s)))
          && negb (Js.truthy_opt (user (obj s))) = false) as ->.
  { destruct Hu as [-> | ->]; [done|by rewrite andb_false_r]. }
  rewrite Hcat, Hget, Hup.
  assert (Hsubs :
    forall A (k1 : json -> M A) (k2 : M A),
      match subscription (obj s) with
      | Some sub => if Js.truthy sub then k1 sub else k2
      | None => k2
      end = k2).
  { intros A k1 k2. destruct (subscription (obj s)) as [sub|]; [|done].
    cbn [Js.truthy_opt] in Hsub. by rewrite Hsub. }
  rewrite Hsubs.
  destruct (Js.truthy_opt (currentUser (the_client s))) eqn:Hcur.
  - unfold mbind at 1 2. unfold M_bind, bind, ret. cbn [fst snd].
    by apply traverse_write.
  - unfold mbind at 1 2. unfold M_bind, bind, ret, set_currentUser,
      set_the_client. cbn [fst snd].
    match goal with
    | |- _ ?s1 = _ =>
        pose proof (traverse_write getOld su names t k s1) as H
    end.
    cbn [the_client obj wrapped isTriggering log] in H.
    by apply H.
Qed.

(** X28.  A write is one transaction.  A POST without id, a PATCH or a
    DELETE of a feather of the catalog, made without a client of the
    caller's, when no trigger is registered for the method on the feather
    or on a feather it inherits from: the request takes a connection,
    sends BEGIN, calls the service of crud.js once (not as a child, with
    the client set in the payload), sends COMMIT when the service has
    resolved and ROLLBACK when it has rejected, and releases the
    connection, once, and nothing else.  It resolves to what the service
    resolved to; what the service, or the COMMIT, rejected with comes
    back with a status code, 500 if it had none. *)
Theorem request_transaction (o o1 : Payload) (su : option bool) (c0 : Client)
  (names : list string) (t : transaction) (fuel : nat) (log0 : list event) :
  cache_data o = Ok o1 ->
  connect = Ok c0 ->
  wrapped c0 = false ->
  Js.truthy_opt (currentUser c0) || Js.truthy_opt (user o) = true ->
  Js.truthy_opt (subscription o) = false ->
  Js.truthy_opt (newRec o) = false ->
  Datasource.doQuery (the_request o) = Ok t ->
  t <> DoSelect ->
  String.eqb (method (the_request o)) "POST"
  && Js.truthy_opt (id (the_request o)) = false ->
  is_lineage (name (the_request o)) names = true ->
  no_trigger (method (the_request o)) TRIGGER_BEFORE names ->
  no_trigger (method (the_request o)) TRIGGER_AFTER names ->
  query "BEGIN;" = Ok () ->
  (2 * length names < fuel)%nat ->
  let sent := set_client true o1 in
  let served := crud t sent (Some false) (default false su) in
  the_request served.1 = the_request o ->
  request fuel o su None log0
  = {| o_client := Some {| wrapped := false; currentUser := None;
                           isTriggering := isTriggering c0 |};
       o_obj := match served.2 with
                | Ok resp => set_response resp served.1
                | Fail _ => served.1
                end;
       o_log := log0
                ++ [Connect; Sql "BEGIN;";
                    Call (Crud t) sent (Some false) (default false su);
                    Sql (match served.2 with
                         | Ok _ => "COMMIT;"
                         | Fail _ => "ROLLBACK;"
                         end);
                    Release];
       o_answer := match served.2 with
                   | Ok resp =>
                       match query "COMMIT;" with
                       | Ok _ => Resolve resp
                       | Fail e => Reject (Normal (Datasource.error e))
                       end
                   | Fail e => Reject (Normal (Datasource.error e))
                   end |}.
Proof.
  intros Hc Hconn Hw Hu Hsub Hnew Hq Ht Hup Hl Hb Ha Hbegin Hfuel sent served Hsame.
  destruct fuel as [|f]; [lia|].
  replace f with (length names + (length names + (f - 2 * length names)))%nat
    by lia.
  apply cache_data_inv in Hc as Hc'. destruct Hc' as [c ->].
  cbn [request]. rewrite Hc, Hconn.
  unfold mbind, M_bind, bind.
  erewrite doRequest_write; try done.
  cbn [obj set_client set_cache the_request user client subscription cache
       newRec oldRec response].
  change (set_client true (set_client false (set_cache c o))) with sent.
  fold served.
  destruct served as [o2 [resp|e]]; cbn [fst snd].
  - destruct (query "COMMIT;"); unfold close; run;
      by rewrite <- !app_assoc.
  - run. by rewrite <- !app_assoc.
Qed.
(** A write on the caller's client, from [doTraverseBefore] on. *)
Lemma traverse_external (getOld : M (option json)) (triggering su : bool)
  (names : list string) (t : transaction) (k : nat) (s : State) :
  wrap s = false ->
  Js.truthy_opt (newRec (obj s)) = false ->
  Datasource.doQuery (the_request (obj s)) = Ok t ->
  t <> DoSelect ->
  is_lineage (name (the_request (obj s))) names = true ->
  no_trigger (method (the_request (obj s))) TRIGGER_BEFORE names ->
  no_trigger (method (the_request (obj s))) TRIGGER_AFTER names ->
  let sent := set_client true (obj s) in
  let served := crud t sent (Some false) su in
  the_request served.1 = the_request (obj s) ->
  catch (doTraverseBefore getOld true triggering su
           (length names + (length names + k)) (name (the_request (obj s))))
    (rollback true) s
  = ({| the_client := the_client s;
        obj := match served.2 with
               | Ok resp => set_response resp served.1
               | Fail _ => served.1
               end;
        wrap := false;
        isChild := Some false;
        log := log s ++ [Call (Crud t) sent (Some false) su] |},
     match served.2 with
     | Ok resp => Resolve resp
     | Fail e => Reject (Normal (Datasource.error e))
     end).
Proof.
  intros Hwrap Hnew Hq Ht Hl Hb Ha sent served Hsame.
  unfold catch. rewrite doTraverseBefore_plain by done.
  unfold doQuery. run. rewrite Hq.
  assert (Hbody :
    match t with
    | DoSelect => call (Some (Crud DoSelect)) (Some false) su
    | _ =>
        fun s0 : State =>
          let (s1, a0) := doExecute triggering su (Some (Crud t)) s0 in
          match a0 with
          | Resolve a =>
              doTraverseAfter getOld true triggering su (length names + k)
                (name (the_request (obj s1)))
                {| the_client := the_client s1;
                   obj := set_response a (obj s1); wrap := wrap s1;
                   isChild := isChild s1; log := log s1 |}
          | Reject r => (s1, Reject r)
          end
    end
    = fun s0 : State =>
        let (s1, a0) := doExecute triggering su (Some (Crud t)) s0 in
        match a0 with
        | Resolve a =>
            doTraverseAfter getOld true triggering su (length names + k)
              (name (the_request (obj s1)))
              {| the_client := the_client s1;
                 obj := set_response a (obj s1); wrap := wrap s1;
                 isChild := isChild s1; log := log s1 |}
        | Reject r => (s1, Reject r)
        end) by (by destruct t).
  rewrite Hbody. cbv beta.
  unfold doExecute, call. run. rewrite Hwrap. run.
  fold sent. fold served. destruct served as [o2 r]. run.
  cbn [fst snd] in Hsame. destruct r as [resp|e]; run.
  - rewrite doTraverseAfter_plain; run; rewrite ?Hsame; try done.
    unfold commit. by rewrite orb_true_r.
  - unfold rollback, error. by run.
Qed.

Lemma doRequest_external (getOld : M (option json)) (triggering su : bool)
  (names : list string) (t : transaction) (k : nat) (s : State) :
  wrap s = false ->
  Js.truthy_opt (currentUser (the_client s)) || Js.truthy_opt (user (obj s))
  = true ->
  Js.truthy_opt (subscription (obj s)) = false ->
  Js.truthy_opt (newRec (obj s)) = false ->
  Datasource.doQuery (the_request (obj s)) = Ok t ->
  t <> DoSelect ->
  String.eqb (method (the_request (obj s))) "POST"
  && Js.truthy_opt (id (the_request (obj s))) = false ->
  is_lineage (name (the_request (obj s))) names = true ->
  no_trigger (method (the_request (obj s))) TRIGGER_BEFORE names ->
  no_trigger (method (the_request (obj s))) TRIGGER_AFTER names ->
  let sent := set_client true (obj s) in
  let served := crud t sent (Some false) su in
  the_request served.1 = the_request (obj s) ->
  doRequest getOld true triggering su (length names + (length names + k)) s
  = ({| the_client :=
          {| wrapped := wrapped (the_client s);
             currentUser := if Js.truthy_opt (currentUser (the_client s))
                            then currentUser (the_client s) else user (obj s);
             isTriggering := isTriggering (the_client s) |};
        obj := match served.2 with
               | Ok resp => set_response resp served.1
               | Fail _ => served.1
               end;
        wrap := false;
        isChild := Some false;
        log := log s ++ [Call (Crud t) sent (Some false) su] |},
     match served.2 with
     | Ok resp => Resolve resp
     | Fail e => Reject (Normal (Datasource.error e))
     end).
Proof.
  intros Hwrap Hu Hsub Hnew Hq Ht Hup Hl Hb Ha sent served Hsame.
  pose proof (doQuery_method _ _ Hq Ht) as Hget.
  destruct (lineage_catalog _ _ Hl) as [feather Hcat].
  unfold doRequest.
  unfold mbind at 1. unfold M_bind, bind, get. cbn [fst snd].
  apply orb_true_iff in Hu.
  assert (negb (Js.truthy_opt (currentUser (the_client s)))
          && negb (Js.truthy_opt (user (obj s))) = false) as ->.
  { destruct Hu as [-> | ->]; [done|by rewrite andb_false_r]. }
  rewrite Hcat, Hget, Hup.
  assert (Hsubs :
    forall A (k1 : json -> M A) (k2 : M A),
      match subscription (obj s) with
      | Some sub => if Js.truthy sub then k1 sub else k2
      | None => k2
      end = k2).
  { intros A k1 k2. destruct (subscription (obj s)) as [sub|]; [|done].
    cbn [Js.truthy_opt] in Hsub. by rewrite Hsub. }
  rewrite Hsubs.
  destruct (Js.truthy_opt (currentUser (the_client s))) eqn:Hcur.
  - unfold mbind at 1 2 3. unfold M_bind, bind, ret. cbn [fst snd].
    rewrite (traverse_external getOld triggering su names t k s) by done.
    by destruct s as [[] ? ? ? ?].
  - unfold mbind at 1 2 3. unfold M_bind, bind, ret, set_currentUser,
      set_the_client. cbn [fst snd].
    match goal with
    | |- _ ?s1 = _ =>
        pose proof (traverse_external getOld triggering su names t k s1) as H
    end.
    cbn [the_client obj wrap wrapped isTriggering log] in H.
    by apply H.
Qed.

(** X29.  A write on the caller's client takes no part in the
    transaction.  With a client in the payload (the request of a trigger
    or of a registered function), a POST without id, a PATCH or a DELETE
    of a feather without triggers only calls the service of crud.js: it
    sends no BEGIN, no COMMIT and no ROLLBACK, whether the client is in a
    transaction or not, does not release the connection, and leaves the
    client as it is but for the user, which it sets if none was set.  A
    rejection of the service comes back with a status code. *)
Theorem request_external (o o1 : Payload) (su : option bool) (c : Client)
  (names : list string) (t : transaction) (fuel : nat) (log0 : list event) :
  cache_data o = Ok o1 ->
  Js.truthy_opt (currentUser c) || Js.truthy_opt (user o) = true ->
  Js.truthy_opt (subscription o) = false ->
  Js.truthy_opt (newRec o) = false ->
  Datasource.doQuery (the_request o) = Ok t ->
  t <> DoSelect ->
  String.eqb (method (the_request o)) "POST"
  && Js.truthy_opt (id (the_request o)) = false ->
  is_lineage (name (the_request o)) names = true ->
  no_trigger (method (the_request o)) TRIGGER_BEFORE names ->
  no_trigger (method (the_request o)) TRIGGER_AFTER names ->
  (2 * length names < fuel)%nat ->
  let sent := set_client true o1 in
  let served := crud t sent (Some false) (default false su) in
  the_request served.1 = the_request o ->
  request fuel o su (Some c) log0
  = {| o_client := Some {| wrapped := wrapped c;
                           currentUser := if Js.truthy_opt (currentUser c)
                                          then currentUser c else user o;
                           isTriggering := isTriggering c |};
       o_obj := match served.2 with
                | Ok resp => set_response resp served.1
                | Fail _ => served.1
                end;
       o_log := log0 ++ [Call (Crud t) sent (Some false) (default false su)];
       o_answer := match served.2 with
                   | Ok resp => Resolve resp
                   | Fail e => Reject (Normal (Datasource.error e))
                   end |}.
Proof.
  intros Hc Hu Hsub Hnew Hq Ht Hup Hl Hb Ha Hfuel sent served Hsame.
  destruct fuel as [|f]; [lia|].
  replace f with (length names + (length names + (f - 2 * length names)))%nat
    by lia.
  apply cache_data_inv in Hc as Hc'. destruct Hc' as [cached ->].
  cbn [request]. rewrite Hc.
  erewrite doRequest_external; try done.
Qed.
(** X30.  A read takes no transaction, and one that fails keeps its
    connection.  A GET of a feather of the catalog, made without a client
    of the caller's, takes a connection and calls [doSelect] (not as a
    child, with the client set in the payload) without BEGIN or COMMIT.
    When the service resolves, the user is cleared and the connection
    released; when it rejects, the rejection is passed on as it is,
    without a status code, and the connection is not released. *)
Theorem request_select (o o1 : Payload) (su : option bool) (c0 : Client)
  (feather : option string) (fuel : nat) (log0 : list event) :
  cache_data o = Ok o1 ->
  connect = Ok c0 ->
  Js.truthy_opt (currentUser c0) || Js.truthy_opt (user o) = true ->
  Js.truthy_opt (subscription o) = false ->
  catalog (name (the_request o)) = Some feather ->
  method (the_request o) = "GET" ->
  let sent := set_client true o1 in
  let served := crud DoSelect sent (Some false) (default false su) in
  request (S fuel) o su None log0
  = {| o_client :=
         Some {| wrapped := wrapped c0;
                 currentUser :=
                   match served.2 with
                   | Ok _ => None
                   | Fail _ => if Js.truthy_opt (currentUser c0)
                               then currentUser c0 else user o
                   end;
                 isTriggering := isTriggering c0 |};
       o_obj := served.1;
       o_log := log0
                ++ [Connect;
                    Call (Crud DoSelect) sent (Some false) (default false su)]
                ++ match served.2 with
                   | Ok _ => [Release]
                   | Fail _ => []
                   end;
       o_answer := match served.2 with
                   | Ok resp => Resolve resp
                   | Fail e => Reject (Raw e)
                   end |}.
Proof.
  intros Hc Hconn Hu Hsub Hcat Hget sent served.
  destruct c0 as [w0 cu0 tr0]. cbn [wrapped currentUser isTriggering] in *.
  apply cache_data_inv in Hc as Hc'. destruct Hc' as [cached ->].
  cbn [request]. rewrite Hc, Hconn.
  unfold doRequest.
  unfold mbind at 1 2. unfold M_bind, bind, get.
  cbn [fst snd obj the_client set_client set_cache the_request user
       subscription wrapped currentUser isTriggering].
  apply orb_true_iff in Hu.
  assert (negb (Js.truthy_opt cu0)
          && negb (Js.truthy_opt (user o)) = false) as ->.
  { destruct Hu as [-> | ->]; [done|by rewrite andb_false_r]. }
  rewrite Hcat, Hget. cbn [String.eqb Ascii.eqb Bool.eqb].
  assert (Hsubs :
    forall A (k1 : json -> M A) (k2 : M A),
      match subscription o with
      | Some sub => if Js.truthy sub then k1 sub else k2
      | None => k2
      end = k2).
  { intros A k1 k2. destruct (subscription o) as [sub|]; [|done].
    cbn [Js.truthy_opt] in Hsub. by rewrite Hsub. }
  rewrite Hsubs.
  destruct (Js.truthy_opt cu0); run;
    unfold doQuery, Datasource.doQuery; run; rewrite Hget;
    cbn [String.eqb Ascii.eqb Bool.eqb]; unfold call, close; run;
    change (set_client true (set_client false (set_cache cached o))) with sent;
    fold served; destruct served as [o2 [resp|e]]; run;
    rewrite <- ?app_assoc; try reflexivity;
    destruct w0; run; rewrite <- ?app_assoc; reflexivity.
Qed.
End Pipeline.

Arguments Crud {Fn} t.
Arguments Registered {Fn} f.
Arguments Connect {Fn}.
Arguments Release {Fn}.
Arguments Sql {Fn} text.
Arguments Call {Fn} c obj isChild isSuperUser.
Arguments o_client {Fn} o.
Arguments o_obj {Fn} o.
Arguments o_log {Fn} o.
Arguments o_answer {Fn} o.

(** A catalog with [Contact], which inherits from [Party], and a server
    on which nothing is registered. *)
Definition catalog0 (name : string) : option (option string) :=
  if String.eqb name "Contact" then Some (Some "Party")
  else if String.eqb name "Party" then Some None
  else if String.eqb name "Object" then Some None
  else None.

Definition registered0 (method : string)
  : option (string -> option (Entry Empty_set)) :=
  if String.eqb method "GET" || String.eqb method "POST"
     || String.eqb method "PUT" || String.eqb method "PATCH"
     || String.eqb method "DELETE"
  then Some (fun _ => None)
  else None.

Definition fresh : Client :=
  {| wrapped := false; currentUser := None; isTriggering := false |}.

(** Services that leave the payload alone: the insert resolves, the
    delete does not find the record. *)
Definition crud0 (t : transaction) (o : Payload) (child : option bool)
  (su : bool) : Payload * result (option json) :=
  (o, match t with
      | DoDelete => Fail (ErrString "Record c9 not found.")
      | DoSelect => Ok (Some (JObj [("id", JStr "c1")]))
      | _ => Ok (Some (JArr []))
      end).

Definition run0 (f : Empty_set) (o : Payload) (child : option bool)
  (su : bool) (c : Client) : Client * Payload * result (option json) :=
  match f with end.

Definition request0 : nat -> Payload -> option bool -> option Client
                      -> list (event Empty_set) -> Outcome Empty_set :=
  request Empty_set None catalog0 registered0 (Ok fresh) (fun _ => Ok ())
    crud0 run0 JsonPatch.compare (fun d _ => Ok d) (fun v => Ok v).

Definition payload (method name : string) (id data : option json) : Payload :=
  {| the_request := {| method := method; name := name; id := id;
                       data := data |};
     user := Some (JStr "ada"); client := false; subscription := None;
     cache := None; newRec := None; oldRec := None; response := None |}.

Definition post_contact : Payload :=
  payload "POST" "Contact" None (Some (JObj [("name", JStr "Ada")])).

Definition delete_contact : Payload :=
  payload "DELETE" "Contact" (Some (JStr "c9")) None.

Definition get_contact : Payload :=
  payload "GET" "Contact" (Some (JStr "c1")) None.

Lemma request_transaction_witness :
  o_log (request0 7 post_contact None None [])
  = [Connect; Sql "BEGIN;";
     Call (Crud DoInsert)
       (set_client true
          (set_cache (Some (JObj [("name", JStr "Ada")])) post_contact))
       (Some false) false;
     Sql "COMMIT;"; Release]
  /\ o_answer (request0 7 post_contact None None []) = Resolve (Some (JArr []))
  /\ o_log (request0 7 delete_contact None None [])
     = [Connect; Sql "BEGIN;";
        Call (Crud DoDelete) (set_client true delete_contact) (Some false)
          false;
        Sql "ROLLBACK;"; Release]
  /\ o_answer (request0 7 delete_contact None None [])
     = Reject (Normal {| message := "Record c9 not found.";
                         statusCode := 500 |}).
Proof.
  unfold request0.
  rewrite (request_transaction Empty_set None catalog0 registered0 (Ok fresh)
             (fun _ => Ok ()) crud0 run0 JsonPatch.compare (fun d _ => Ok d)
             (fun v => Ok v) post_contact
             (set_cache (Some (JObj [("name", JStr "Ada")])) post_contact)
             None fresh ["Contact"; "Party"; "Object"] DoInsert 7 []);
    [|try reflexivity; try discriminate; try (by repeat constructor);
      try (cbn; lia)..].
  rewrite (request_transaction Empty_set None catalog0 registered0 (Ok fresh)
             (fun _ => Ok ()) crud0 run0 JsonPatch.compare (fun d _ => Ok d)
             (fun v => Ok v) delete_contact delete_contact
             None fresh ["Contact"; "Party"; "Object"] DoDelete 7 []);
    [|try reflexivity; try discriminate; try (by repeat constructor);
      try (cbn; lia)..].
  repeat split; reflexivity.
Defined.

Lemma request_external_witness :
  let inside := {| wrapped := true; currentUser := Some (JStr "ada");
                   isTriggering := true |} in
  o_log (request0 7 delete_contact None (Some inside) [])
  = [Call (Crud DoDelete) (set_client true delete_contact) (Some false) false]
  /\ o_client (request0 7 delete_contact None (Some inside) []) = Some inside
  /\ o_answer (request0 7 delete_contact None (Some inside) [])
     = Reject (Normal {| message := "Record c9 not found.";
                         statusCode := 500 |}).
Proof.
  intros inside. unfold request0.
  rewrite (request_external Empty_set None catalog0 registered0 (Ok fresh)
             (fun _ => Ok ()) crud0 run0 JsonPatch.compare (fun d _ => Ok d)
             (fun v => Ok v) delete_contact delete_contact
             None inside ["Contact"; "Party"; "Object"] DoDelete 7 []);
    [|try reflexivity; try discriminate; try (by repeat constructor);
      try (cbn; lia)..].
  repeat split; reflexivity.
Defined.

Lemma request_select_witness :
  o_log (request0 1 get_contact None None [])
  = [Connect;
     Call (Crud DoSelect) (set_client true get_contact) (Some false) false;
     Release]
  /\ o_answer (request0 1 get_contact None None [])
     = Resolve (Some (JObj [("id", JStr "c1")])).
Proof.
  unfold request0.
  rewrite (request_select Empty_set None catalog0 registered0 (Ok fresh)
             (fun _ => Ok ()) crud0 run0 JsonPatch.compare (fun d _ => Ok d)
             (fun v => Ok v) get_contact get_contact None fresh
             (Some "Party") 0 []);
    [|reflexivity..].
  split; reflexivity.
Defined.

End Pipeline.

End Datasource.

(** ** Deleted records and the key queries *)

Module Visibility.
Section Visibility.

Variable toSnakeCase : string -> string.
Variable ops : list string.
Variable pg_op : string -> json -> json -> bool.
Variable authorized : json -> Pg.row -> bool.
Variable order_rows : list (Sql.path * string) -> list Pg.row -> list Pg.row.
Hypothesis order_rows_sub :
  forall keys l r, r ∈ order_rows keys l -> r ∈ l.

Variable getFeather : string -> result (option Crud.Feather).
Variable isAuthorized : Crud.AuthRequest -> result bool.
Variable doSelect : Crud.SelectRequest -> bool -> option bool -> result (option json).
Variable call : Crud.Call -> result (option json).
Variable now : json.

(** The key lookup of [doSelect] for a request with an id: the payload
    carries the name and [showDeleted] of the request. *)
Definition doSelect_key (obj : Crud.SelectRequest) (user : json)
  (isSuperUser : option bool) : result Sql.select_keys :=
  Tools.getKey toSnakeCase ops
    {| Tools.key_name := Some (Crud.s_name obj);
       Tools.key_id := Crud.s_id obj;
       Tools.key_showDeleted := Crud.s_showDeleted obj;
       Tools.key_user := user |} isSuperUser.

Lemma getKeys_hides_deleted (payload payload' : Tools.Payload)
  (su : option bool) (q : Sql.select_keys) (d : Pg.db) (r : Pg.row) :
  Tools.showDeleted payload = false ->
  Tools.getKeys toSnakeCase ops payload su = (payload', Ok q) ->
  r ∈ Pg.select_rows pg_op authorized order_rows d q ->
  Pg.is_deleted r = false.
Proof using order_rows_sub.
  intros Hs Hq Hr.
  apply Tools.getKeys_inv in Hq as (? & ? & ? & ? & _ & _ & Hnd & _).
  rewrite Hs in Hnd.
  by eapply Pg.select_rows_not_deleted.
Qed.

(** X4, C5.  When a soft DELETE of the object with id [i] has returned success,
    the statement it has sent marks the object deleted, and in the database
    after that statement no key query whose payload does not set
    [showDeleted] returns the object: not [getKeys], and not the lookup by
    id that [doSelect] makes through [getKey]. *)
Theorem deleted_is_invisible (obj : Crud.Request) (isChild : bool)
  (su : option bool) (acts : list Crud.action) (b : bool) (i : string)
  (d : Pg.db) :
  Crud.id obj = Some (JStr i) ->
  Crud.isHard obj = false ->
  Crud.doDelete getFeather isAuthorized doSelect call now obj isChild su
  = (acts, Ok b) ->
  (exists stmt, Crud.Query stmt ∈ acts
                /\ Crud.does stmt = Crud.SoftDelete (Some (JStr i))) /\
  let d' := Pg.soft_delete (Some (JStr i)) d in
  (forall payload payload' su' q r,
     Tools.showDeleted payload = false ->
     Tools.getKeys toSnakeCase ops payload su' = (payload', Ok q) ->
     r ∈ Pg.select_rows pg_op authorized order_rows d' q ->
     Pg.row_id r <> Some (JStr i)) /\
  (forall sel user su' q r,
     Crud.s_showDeleted sel = false ->
     doSelect_key sel user su' = Ok q ->
     r ∈ Pg.select_rows pg_op authorized order_rows d' q ->
     Pg.row_id r <> Some (JStr i)).
Proof using order_rows_sub.
  intros Hid Hsoft Hrun.
  apply Crud.doDelete_statement in Hrun as [Hin _].
  assert (Hkeys : forall payload payload' su' q r,
            Tools.showDeleted payload = false ->
            Tools.getKeys toSnakeCase ops payload su' = (payload', Ok q) ->
            r ∈ Pg.select_rows pg_op authorized order_rows
                  (Pg.soft_delete (Some (JStr i)) d) q ->
            Pg.row_id r <> Some (JStr i)).
  { intros payload payload' su' q r Hs Hq Hr Hrow.
    pose proof (getKeys_hides_deleted _ _ _ _ _ _ Hs Hq Hr) as Hnot.
    apply Pg.select_rows_selected in Hr as [Hr _]; [|done].
    by rewrite (Pg.soft_delete_marks _ _ _ Hr Hrow) in Hnot. }
  split; [|split; [exact Hkeys|]].
  - exists (Crud.delete_statement obj). split; [done|].
    unfold Crud.delete_statement. by rewrite Hsoft, Hid.
  - intros sel user su' q r Hs Hq Hr. unfold doSelect_key, Tools.getKey in Hq.
    destruct (Tools.getKeys _ _ _ su') as [payload' res] eqn:E.
    simpl in Hq. subst res. by eapply Hkeys; [|exact E|exact Hr].
Qed.

End Visibility.
End Visibility.

(** ** A contact, stored and locked *)

Module Scenario.
Import Crud.

Definition text : Property :=
  {| p_type := Scalar "string"; p_format := None; p_default := None;
     p_isRequired := false; p_isNaturalKey := false; p_isReadOnly := false;
     p_autonumber := None; p_alias := None; p_inheritedFrom := None |}.

Definition typed (type : string) (format : option string) : Property :=
  {| p_type := Scalar type; p_format := format; p_default := None;
     p_isRequired := false; p_isNaturalKey := false; p_isReadOnly := false;
     p_autonumber := None; p_alias := None; p_inheritedFrom := None |}.

Definition natural : Property :=
  {| p_type := Scalar "string"; p_format := None; p_default := None;
     p_isRequired := true; p_isNaturalKey := true; p_isReadOnly := false;
     p_autonumber := None; p_alias := None; p_inheritedFrom := None |}.

Definition contact : Feather :=
  {| f_name := "Contact"; f_isChild := false;
     f_properties :=
       [("id", text);
        ("created", typed "string" (Some "dateTime"));
        ("createdBy", text);
        ("updated", typed "string" (Some "dateTime"));
        ("updatedBy", text);
        ("isDeleted", typed "boolean" None);
        ("lock", typed "object" (Some "lock"));
        ("etag", text);
        ("lastName", natural)] |}.

(** The row of contact [c1] as the database returns it; [bob] holds the
    lock under event key [k1]. *)
Definition stored : json :=
  JObj [("_pk", JNum 7);
        ("id", JStr "c1");
        ("created", JStr "2020-01-01T00:00:00.000Z");
        ("created_by", JStr "ada");
        ("updated", JStr "2020-01-01T00:00:00.000Z");
        ("updated_by", JStr "ada");
        ("is_deleted", JBool false);
        ("lock", JObj [("username", JStr "bob");
                       ("created", JStr "2020-01-01T00:00:00.000Z");
                       ("_nodeid", JStr "n1");
                       ("_eventkey", JStr "k1")]);
        ("etag", JStr "e1");
        ("last_name", JStr "Lovelace")].

(** Contact [c2] is not locked, and [e2] is the contact a POST creates. *)
Definition free : json :=
  JObj [("_pk", JNum 5);
        ("id", JStr "c2");
        ("created", JStr "2020-01-01T00:00:00.000Z");
        ("created_by", JStr "ada");
        ("updated", JStr "2020-01-01T00:00:00.000Z");
        ("updated_by", JStr "ada");
        ("is_deleted", JBool false);
        ("lock", JNull);
        ("etag", JStr "e0");
        ("last_name", JStr "Hopper")].

Definition created : json :=
  JObj [("_pk", JNum 8);
        ("id", JStr "e2");
        ("created", JStr "2020-01-02T00:00:00.000Z");
        ("created_by", JStr "ada");
        ("updated", JStr "2020-01-02T00:00:00.000Z");
        ("updated_by", JStr "ada");
        ("is_deleted", JBool false);
        ("lock", JNull);
        ("etag", JStr "");
        ("last_name", JStr "Byron")].

Definition sanitized (row : json) : json :=
  match Sanitize.sanitize Str.toCamelCase (S (Js.depth row)) row with
  | Ok v => v
  | Fail _ => JNull
  end.

Definition getFeather (name : string) : result (option Feather) :=
  Ok (if String.eqb name "Contact" then Some contact else None).

Definition isAuthorized (_ : AuthRequest) : result bool := Ok true.

Definition with_id (i : option json) (row : json) : bool :=
  Js.strict_eq (Js.get (Js.fields_of row) "id") i.

(** What a select by id is answered with. *)
Definition doSelect (obj : SelectRequest) (_ : bool) (_ : option bool)
  : result (option json) :=
  Ok (row ← List.find (with_id (s_id obj)) [stored; free; created];
      Some (if s_sanitize obj then sanitized row else row)).

Definition call (_ : Call) : result (option json) := Ok None.

(** The keys of the contacts that are stored. *)
Definition getKey (id : option json) (_ : option bool) : result (option json) :=
  Ok (row ← List.find (with_id id) [stored; free];
      Js.get (Js.fields_of row) "_pk").

(** The probe for a last name finds the contacts that have it. *)
Definition getKeys (payload : Tools.Payload) (_ : option bool)
  : result (list (option json)) :=
  match Tools.filter payload with
  | Some {| Tools.criteria := Some [crit] |} =>
      Ok (map (fun row => Js.get (Js.fields_of row) "_pk")
            (List.filter
               (fun row => Js.strict_eq (Js.get (Js.fields_of row) "last_name")
                             (Tools.c_value crit))
               [stored; free]))
  | _ => Ok []
  end.

Definition query (_ : Statement) : result unit := Ok ().

(** [jsonpatch.applyPatch] for operations that replace or add a member of
    the document, which is what the requests below carry. *)
Definition applyOperation (doc : result json) (operation : json) : result json :=
  d ← doc;
  match Js.get (Js.fields_of operation) "op",
        Js.get (Js.fields_of operation) "path",
        Js.get (Js.fields_of operation) "value" with
  | Some (JStr kind), Some (JStr (String "/" key)), Some v =>
      if String.eqb kind "replace" || String.eqb kind "add"
      then Js.write d key v
      else Fail (ErrorObj "OPERATION_OP_INVALID" None)
  | _, _, _ => Fail (ErrorObj "OPERATION_OP_INVALID" None)
  end.

Definition applyPatch (doc patches : json) : result json :=
  match patches with
  | JArr operations => fold_left applyOperation operations (Ok doc)
  | _ => Fail (ErrorObj "Patch sequence must be an array" None)
  end.

Definition JSON_stringify (v : option json) : option json := v.
Definition createId : string := "e2".
Definition now : json := JStr "2020-01-02T00:00:00.000Z".
Definition currentUser : json := JStr "ada".
Definition callDefault (fn : string) : result json :=
  if String.eqb fn "now" then Ok now
  else Fail (ErrorObj ("f." +:+ fn +:+ " is not a function") None).
Definition nextval (_ : string) : result Z := Ok 8.
Definition pad (n : Z) (_ : nat) : string := pretty n.

Definition doUpdate : Request -> bool -> option bool -> io (option json) :=
  Crud.doUpdate Str.toSnakeCase getFeather isAuthorized doSelect call Str.toName
    getKey getKeys query applyPatch JsonPatch.compare JSON_stringify createId
    now currentUser Str.toCamelCase.

Definition doInsert : Request -> bool -> option bool -> io (option json) :=
  Crud.doInsert Str.toSnakeCase getFeather isAuthorized doSelect call now
    Str.toName getKey getKeys query JsonPatch.compare JSON_stringify createId
    currentUser callDefault nextval pad.

Definition doDelete : Request -> bool -> option bool -> io bool :=
  Crud.doDelete getFeather isAuthorized doSelect call now.

(** [PATCH] of the last name, from a session with event key [k2]. *)
Definition rename : json :=
  JArr [JsonPatch.op "replace" "/lastName" (Some (JStr "Byron"))].

Definition patch_request : Request :=
  {| name := "Contact"; id := Some (JStr "c1"); data := Some rename;
     eventkey := Some (JStr "k2"); isHard := false; cache := Some rename;
     pk := None |}.

Definition delete_request : Request :=
  {| name := "Contact"; id := Some (JStr "c1"); data := None;
     eventkey := Some (JStr "k2"); isHard := false; cache := None;
     pk := None |}.

Definition post_request (fields : list (string * json)) : Request :=
  {| name := "Contact"; id := None; data := Some (JObj fields);
     eventkey := None; isHard := false; cache := Some (JObj fields);
     pk := None |}.

Definition empty_request : Request :=
  {| name := "Contact"; id := Some (JStr "c1"); data := Some (JArr []);
     eventkey := Some (JStr "k1"); isHard := false; cache := Some (JArr []);
     pk := None |}.

Definition free_delete : Request :=
  {| name := "Contact"; id := Some (JStr "c2"); data := None;
     eventkey := None; isHard := false; cache := None; pk := None |}.

(** The table [object] with the two contacts, and a key query for the
    contacts that does not ask for deleted ones. *)
Definition as_row (rec : json) : Pg.row :=
  {| Pg.tables := ["object"; "contact"]; Pg.cols := Js.fields_of rec |}.

Definition database : Pg.db :=
  {| Pg.objects := [as_row stored; as_row free]; Pg.subscriptions := ∅ |}.

Definition no_operator (_ : string) (_ _ : json) : bool := false.
Definition everyone (_ : json) (_ : Pg.row) : bool := true.
Definition unordered (_ : list (Sql.path * string)) (l : list Pg.row)
  : list Pg.row := l.

Lemma unordered_sub (keys : list (Sql.path * string)) (l : list Pg.row)
  (r : Pg.row) : r ∈ unordered keys l -> r ∈ l.
Proof. exact (fun H => H). Defined.

Lemma doUpdate_etag_witness :
  doUpdate empty_request false None = ([], Ok (Some (JArr []))) /\
  exists stmt sets pk,
    Query stmt ∈ (doUpdate patch_request false None).1 /\
    does stmt = Update "contact" sets pk /\
    (["etag"], Some (JStr "e2")) ∈ sets.
Proof.
  pose proof (Crud.doUpdate_etag Str.toSnakeCase getFeather isAuthorized
                doSelect call Str.toName getKey getKeys query applyPatch
                JsonPatch.compare JSON_stringify createId now currentUser
                Str.toCamelCase) as T.
  split.
  - apply (proj1 (T empty_request false None)). reflexivity.
  - destruct (doUpdate patch_request false None) as [acts r] eqn:E.
    pose proof E as E1. vm_compute in E1. injection E1 as Hacts Hr.
    apply (proj2 (T patch_request false None) contact
             [("id", text);
              ("created", typed "string" (Some "dateTime"));
              ("createdBy", text);
              ("updated", typed "string" (Some "dateTime"));
              ("updatedBy", text);
              ("isDeleted", typed "boolean" None);
              ("lock", typed "object" (Some "lock"))]
             text [("lastName", natural)] (Some stored) (sanitized stored)
             acts (Some (JArr [JsonPatch.op "replace" "/lastName"
                                 (Some (JStr "Lovelace"));
                               JsonPatch.op "replace" "/lock" (Some JNull)]))).
    + vm_compute. discriminate.
    + reflexivity.
    + reflexivity.
    + apply (bool_decide_unpack _). vm_compute. exact I.
    + reflexivity.
    + reflexivity.
    + vm_compute. reflexivity.
    + vm_compute. discriminate.
    + rewrite <- Hr in E. exact E.
    + discriminate.
Defined.

(** C4. The stored contact is locked by [bob] under event key [k1] and
    the requests come with event key [k2].  The DELETE is rejected with
    "Record is locked by bob and cannot be updated." before anything is
    sent; the PATCH is not: it resolves, having sent the UPDATE that
    writes the new last name.  For every request, [doUpdate] gives the
    same outcome whatever the event key is. *)
Theorem locked_record_is_updated :
  Pg.lookup (Js.fields_of stored) ["lock"; "_eventkey"] = Some (JStr "k1") /\
  eventkey patch_request = Some (JStr "k2") /\
  eventkey delete_request = Some (JStr "k2") /\
  doDelete delete_request false None
  = ([], Fail (ErrorObj "Record is locked by bob and cannot be updated." None)) /\
  (exists acts r stmt sets,
     doUpdate patch_request false None = (acts, Ok r) /\
     Query stmt ∈ acts /\
     does stmt = Update "contact" sets (Some (JNum 7)) /\
     (["last_name"], Some (JStr "Byron")) ∈ sets) /\
  (forall obj key isChild su,
     doUpdate (with_eventkey obj key) isChild su = doUpdate obj isChild su).
Proof.
  repeat split; try reflexivity.
  destruct (doUpdate patch_request false None) as [acts r] eqn:E.
  vm_compute in E. injection E as <- <-.
  eexists _, _, _, _. split; [reflexivity|].
  split; [apply list_elem_of_here|]. split; [reflexivity|].
  do 3 apply list_elem_of_further. apply list_elem_of_here.
Qed.

Lemma doInsert_natural_key_conflict_witness :
  doInsert (post_request [("lastName", JStr "Lovelace")]) false None
  = ([], Fail (ErrorObj ("Value 'Lovelace' assigned to Last Name on Contact"
                         +:+ " is not unique to data type Contact.") None)).
Proof.
  apply (Crud.doInsert_natural_key_conflict Str.toSnakeCase getFeather
           isAuthorized doSelect call now Str.toName getKey getKeys query
           JsonPatch.compare JSON_stringify createId currentUser callDefault
           nextval pad
           (post_request [("lastName", JStr "Lovelace")]) false None
           [("lastName", JStr "Lovelace")] contact
           [("id", text);
            ("created", typed "string" (Some "dateTime"));
            ("createdBy", text);
            ("updated", typed "string" (Some "dateTime"));
            ("updatedBy", text);
            ("isDeleted", typed "boolean" None);
            ("lock", typed "object" (Some "lock"));
            ("etag", text)] [] "lastName" natural (Some (JNum 7)) []).
  - reflexivity.
  - reflexivity.
  - reflexivity.
  - vm_compute. discriminate.
  - reflexivity.
  - repeat constructor.
  - reflexivity.
  - reflexivity.
  - reflexivity.
Defined.

(** The rejection carries no status code, so the request pipeline hands
    the client status 500, not 409. *)
Lemma natural_key_conflict_status :
  exists e,
    doInsert (post_request [("lastName", JStr "Lovelace")]) false None
    = ([], Fail e) /\
    Datasource.error e
    = {| Datasource.message :=
           "Value 'Lovelace' assigned to Last Name on Contact"
           +:+ " is not unique to data type Contact.";
         Datasource.statusCode := 500 |} /\
    Datasource.statusCode (Datasource.error e) <> 409.
Proof.
  eexists. split; [vm_compute; reflexivity|]. split; [reflexivity|].
  vm_compute. discriminate.
Qed.


Lemma deleted_is_invisible_witness :
  (exists stmt, Query stmt ∈ (doDelete free_delete false None).1
                /\ does stmt = SoftDelete (Some (JStr "c2"))) /\
  let d' := Pg.soft_delete (Some (JStr "c2")) database in
  (forall payload payload' su' q r,
     Tools.showDeleted payload = false ->
     Tools.getKeys Str.toSnakeCase Tools.operators payload su' = (payload', Ok q) ->
     r ∈ Pg.select_rows no_operator everyone unordered d' q ->
     Pg.row_id r <> Some (JStr "c2")) /\
  (forall sel user su' q r,
     s_showDeleted sel = false ->
     Visibility.doSelect_key Str.toSnakeCase Tools.operators sel user su' = Ok q ->
     r ∈ Pg.select_rows no_operator everyone unordered d' q ->
     Pg.row_id r <> Some (JStr "c2")).
Proof.
  apply (Visibility.deleted_is_invisible Str.toSnakeCase Tools.operators
           no_operator everyone unordered unordered_sub
           getFeather isAuthorized doSelect call now
           free_delete false None (doDelete free_delete false None).1 true
           "c2" database).
  - reflexivity.
  - reflexivity.
  - vm_compute. reflexivity.
Defined.


(** More requests: a contact that is not there, a last name that is
    taken, a last name that is missing, a property the feather lacks. *)
Definition patch_of (i : string) (operations : list json) : Request :=
  {| name := "Contact"; id := Some (JStr i); data := Some (JArr operations);
     eventkey := None; isHard := false; cache := Some (JArr operations);
     pk := None |}.

Definition nobody (_ : AuthRequest) : result bool := Ok false.


Lemma doDelete_gone_witness :
  doDelete (request "Contact" (Some (JStr "c9")) None false) false None
  = ([], Fail (ErrString "Record c9 not found.")).
Proof.
  apply (Crud.doDelete_gone getFeather isAuthorized doSelect call now
           (request "Contact" (Some (JStr "c9")) None false) false None
           contact None); try reflexivity.
Defined.

Lemma doInsert_unknown_property_witness :
  doInsert (post_request [("lastName", JStr "Byron"); ("shoeSize", JNum 9);
                          ("hat", JNull)]) false None
  = ([], Fail (ErrorObj ("Feather " +:+ Str.dq +:+ "Contact" +:+ Str.dq
                         +:+ " does not contain property " +:+ Str.dq
                         +:+ "shoeSize" +:+ Str.dq) None)).
Proof.
  apply (Crud.doInsert_unknown_property Str.toSnakeCase getFeather isAuthorized
           doSelect call now Str.toName getKey getKeys query JsonPatch.compare
           JSON_stringify createId currentUser callDefault nextval pad
           (post_request [("lastName", JStr "Byron"); ("shoeSize", JNum 9);
                          ("hat", JNull)]) false None contact
           [("lastName", JStr "Byron")] [("hat", JNull)] "shoeSize" (JNum 9)).
  - reflexivity.
  - reflexivity.
  - intros x Hx. apply list_elem_of_singleton in Hx as ->.
    apply (bool_decide_unpack _). vm_compute. exact I.
  - apply (bool_decide_unpack _). vm_compute. exact I.
Defined.

Lemma doInsert_unauthorized_witness :
  Crud.doInsert Str.toSnakeCase getFeather nobody doSelect call now Str.toName
    getKey getKeys query JsonPatch.compare JSON_stringify createId currentUser
    callDefault nextval pad (post_request [("lastName", JStr "Byron")])
    false (Some false)
  = ([], Fail (ErrorObj ("Not authorized to create " +:+ Str.dq +:+ "Contact"
                         +:+ Str.dq) (Some 401))).
Proof.
  apply (Crud.doInsert_unauthorized Str.toSnakeCase getFeather nobody doSelect
           call now Str.toName getKey getKeys query JsonPatch.compare
           JSON_stringify createId currentUser callDefault nextval pad
           (post_request [("lastName", JStr "Byron")])
           [("lastName", JStr "Byron")] contact); try reflexivity.
Defined.

Definition rename_taken : Request :=
  patch_of "c1" [JsonPatch.op "replace" "/lastName" (Some (JStr "Hopper"))].

Definition unname : Request :=
  patch_of "c1" [JsonPatch.op "replace" "/lastName" (Some JNull)].

Definition backdate : Request :=
  patch_of "c1" [JsonPatch.op "replace" "/created"
                   (Some (JStr "1999-01-01T00:00:00.000Z"))].

Lemma doUpdate_missing_record_witness :
  exists msg,
    doUpdate (patch_of "c9" [JsonPatch.op "replace" "/lastName" (Some (JStr "Byron"))])
      false None
    = ([], Fail (SyntaxError msg)).
Proof.
  apply (Crud.doUpdate_missing_record Str.toSnakeCase getFeather isAuthorized
           doSelect call Str.toName getKey getKeys query applyPatch
           JsonPatch.compare JSON_stringify createId now currentUser
           Str.toCamelCase
           (patch_of "c9" [JsonPatch.op "replace" "/lastName" (Some (JStr "Byron"))])
           false None contact None); try reflexivity.
  discriminate.
Defined.

Lemma doUpdate_required_witness :
  doUpdate unname false None
  = ([], Fail (ErrString (Str.dq +:+ "lastName" +:+ Str.dq +:+ " is required."))).
Proof.
  eapply (Crud.doUpdate_required Str.toSnakeCase getFeather isAuthorized
            doSelect call Str.toName getKey getKeys query applyPatch
            JsonPatch.compare JSON_stringify createId now currentUser
            Str.toCamelCase unname false None contact (Some (JNum 7))
            ltac:(discriminate) eq_refl eq_refl I eq_refl
            (Some stored) (sanitized stored)).
  - reflexivity.
  - vm_compute. reflexivity.
  - vm_compute. reflexivity.
  - vm_compute. reflexivity.
  - reflexivity.
  - vm_compute. reflexivity.
  - vm_compute. reflexivity.
  - vm_compute. reflexivity.
Defined.

Lemma doUpdate_natural_key_conflict_witness :
  doUpdate rename_taken false None
  = ([], Fail (ErrorObj ("Value 'Hopper' assigned to Last Name on Contact"
                         +:+ " is not unique to data type Contact.") None)).
Proof.
  eapply (Crud.doUpdate_natural_key_conflict Str.toSnakeCase getFeather
            isAuthorized doSelect call Str.toName getKey getKeys query applyPatch
            JsonPatch.compare JSON_stringify createId now currentUser
            Str.toCamelCase rename_taken false None contact (Some (JNum 7))
            ltac:(discriminate) eq_refl eq_refl I eq_refl
            (Some stored) (sanitized stored) _ _ _ _ _ _
            _ _ _ _ _ _ _
            {| u_feather := "Contact"; u_prop := "lastName";
               u_value := Some (JStr "Hopper"); u_label := "lastName" |}).
  Unshelve.
  all: try (vm_compute; reflexivity).
  all: vm_compute; reflexivity.
Defined.

Lemma doUpdate_keeps_created_witness :
  let st := {| up_tokens := ["contact"]; up_ary := []; up_params := [];
               up_p := 1; up_sets := []; up_doList := [];
               up_rec := Crud.stamp createId now currentUser contact
                           (Js.fields_of (sanitized stored))
                           (Js.set (Js.fields_of (sanitized stored)) "created"
                              (JStr "1999-01-01T00:00:00.000Z")) |} in
  Js.get (up_rec st) "created" = Some (JStr "2020-01-01T00:00:00.000Z") /\
  Crud.nextProp Str.toSnakeCase call getKey JsonPatch.compare JSON_stringify
    (Js.fields_of (sanitized stored)) (f_properties contact) st
  = Crud.nextProp Str.toSnakeCase call getKey JsonPatch.compare JSON_stringify
      (Js.fields_of (sanitized stored))
      (("id", text) :: drop 2 (f_properties contact)) st.
Proof.
  apply (Crud.doUpdate_keeps_created Str.toSnakeCase call getKey
           JsonPatch.compare JSON_stringify createId now currentUser contact
           (Js.fields_of (sanitized stored))
           (Js.set (Js.fields_of (sanitized stored)) "created"
              (JStr "1999-01-01T00:00:00.000Z"))
           [("id", text)] (drop 2 (f_properties contact)) "created" "string"
           (typed "string" (Some "dateTime")) ["contact"] [] [] 1%nat [] []).
  - by left.
  - apply (bool_decide_unpack _). vm_compute. exact I.
  - reflexivity.
  - reflexivity.
Defined.

Lemma doUpdate_sends_witness :
  (doUpdate backdate false None).1 = [] \/
  exists feather pk st pre post,
    getFeather "Contact" = Ok (Some feather) /\
    getKey (Some (JStr "c1")) None = Ok pk /\
    (doUpdate backdate false None).1
    = pre ++ Query (Crud.update_statement Str.toSnakeCase feather pk st) :: post /\
    Forall is_call pre /\
    exists log,
      post = [Invoke (CallInsert log true None);
              Invoke (CallUnlock (Some (JStr "c1")))].
Proof.
  destruct (doUpdate backdate false None) as [acts r] eqn:E.
  pose proof E as E1. vm_compute in E1. injection E1 as _ Hr. subst r.
  exact (Crud.doUpdate_sends Str.toSnakeCase getFeather isAuthorized doSelect
           call Str.toName getKey getKeys query applyPatch JsonPatch.compare
           JSON_stringify createId now currentUser Str.toCamelCase
           backdate false None acts _ E).
Defined.

(** The UPDATE of the backdating patch writes the time stamp, the lock and
    the etag; [created] is not among its columns. *)
Example backdate_statement :
  exists stmt post,
    (doUpdate backdate false None).1 = Query stmt :: post /\
    tokens stmt = ["contact"; "updated"; "lock"; "etag"].
Proof. eexists _, _. split; vm_compute; reflexivity. Qed.

End Scenario.
